(** * ProjectAIGirlfriend: a shallow embedding of the chat companion's core

    The development follows the Python sources module by module:
    - [Py]: the fragment of Python's built-in [str], [int] and [float]
      behaviour the program relies on;
    - [todo_system]: the task list engine ([TodoList]);
    - [function_registry]: [SmartParameterParser] and
      [UnifiedFunctionRegistry];
    - [session_manager]: [SessionManager];
    - [chat_handler]: [StreamFunctionDetector] and the turn driver of
      [AIGirlfriendChatHandler].

    Python objects are mutable and shared by reference; every method is
    therefore embedded as a state transformer over the object it mutates,
    and an exception leaves behind whatever was mutated before it was
    raised. *)

From Stdlib Require Import ZArith NArith List Lia Bool String Ascii.
From Stdlib Require Import Floats.PrimFloat Floats.FloatOps Floats.SpecFloat.
From Stdlib Require DecimalString DecimalPos Sorted.
From stdpp Require Import base option list gmap.
From Equations Require Import Equations.

Open Scope Z_scope.

(* ================================================================== *)
(** * Python built-ins                                                 *)
(* ================================================================== *)

Module Py.

(** A Python [str] is a sequence of Unicode code points; [len], slicing
    and [find] count code points, not bytes. *)
Definition char := N.
Definition str := list char.

(** Source literals are written as UTF-8 text and decoded once. *)
Fixpoint utf8_decode (bs : list N) : str :=
  match bs with
  | [] => []
  | b :: r =>
      if (b <? 128)%N then b :: utf8_decode r
      else if (b <? 224)%N then
        match r with
        | c1 :: r1 => ((b - 192) * 64 + (c1 - 128))%N :: utf8_decode r1
        | _ => []
        end
      else if (b <? 240)%N then
        match r with
        | c1 :: c2 :: r2 =>
            ((b - 224) * 4096 + (c1 - 128) * 64 + (c2 - 128))%N :: utf8_decode r2
        | _ => []
        end
      else
        match r with
        | c1 :: c2 :: c3 :: r3 =>
            ((b - 240) * 262144 + (c1 - 128) * 4096 + (c2 - 128) * 64 + (c3 - 128))%N
              :: utf8_decode r3
        | _ => []
        end
  end.

Definition u (s : string) : str :=
  utf8_decode (map N_of_ascii (list_ascii_of_string s)).

Arguments u : simpl never.

(** The line feed, written [\n] in the sources. *)
Definition nl : str := [10%N].

(** [s.startswith(p)], [s.endswith(p)], [s.find(sub)], [sub in s]. *)
Fixpoint startswith (s p : str) {struct p} : bool :=
  match p, s with
  | [], _ => true
  | _ :: _, [] => false
  | c :: p', d :: s' => (c =? d)%N && startswith s' p'
  end.

Definition endswith (s p : str) : bool := startswith (rev s) (rev p).

Fixpoint find (s sub : str) : option nat :=
  if startswith s sub then Some 0%nat
  else match s with
       | [] => None
       | _ :: s' => S <$> find s' sub
       end.

Definition contains (sub s : str) : bool := bool_decide (is_Some (find s sub)).

(** [s[-n:]] for a positive literal [n]. *)
Definition last_n (n : nat) (s : str) : str := drop (length s - n) s.

(** [str.strip()] with no argument removes the characters for which
    [str.isspace] holds. *)
Definition isspace (c : char) : bool :=
  ((9 <=? c) && (c <=? 13) || (28 <=? c) && (c <=? 32) || (c =? 133) || (c =? 160)
   || (c =? 5760) || (8192 <=? c) && (c <=? 8202) || (c =? 8232) || (c =? 8233)
   || (c =? 8239) || (c =? 8287) || (c =? 12288))%N.

Fixpoint lstrip (s : str) : str :=
  match s with
  | c :: s' => if isspace c then lstrip s' else s
  | [] => []
  end.

Definition strip (s : str) : str := rev (lstrip (rev (lstrip s))).

(** [str.lower()], exact on ASCII; the program only compares the result
    with the ASCII words [true] and [false], and no character outside
    ASCII lower-cases to one of their letters. *)
Definition lower_char (c : char) : char :=
  if ((65 <=? c) && (c <=? 90))%N then (c + 32)%N else c.
Definition lower (s : str) : str := map lower_char s.

(** [s.replace(c, '')] for a one-character [c]. *)
Definition remove_char (c : char) (s : str) : str :=
  filter (fun d => d <> c) s.

(** ** Digits

    The digits of the Unicode database, in the version that CPython 3.11
    carries (14.0).  The decimal digits (category [Nd], the class [\d] and
    what [int] and [float] read) come in runs of ten consecutive code
    points that stand for 0 to 9; [decimal_zeros] lists the first of each
    run, the ASCII digits being the first one. *)
Definition is_ascii_digit (c : char) : bool := ((48 <=? c) && (c <=? 57))%N.

Definition decimal_zeros : list N :=
  [48; 1632; 1776; 1984; 2406; 2534; 2662; 2790; 2918; 3046; 3174; 3302;
   3430; 3558; 3664; 3792; 3872; 4160; 4240; 6112; 6160; 6470; 6608; 6784;
   6800; 6992; 7088; 7232; 7248; 42528; 43216; 43264; 43472; 43504; 43600;
   44016; 65296; 66720; 68912; 69734; 69872; 69942; 70096; 70384; 70736;
   70864; 71248; 71360; 71472; 71904; 72016; 72784; 73040; 73120; 92768;
   92864; 93008; 120782; 120792; 120802; 120812; 120822; 123200; 123632;
   125264; 130032]%N.

(** [unicodedata.decimal(c)], [None] where it raises. *)
Definition decimal_value (c : char) : option Z :=
  (fun zero => Z.of_N (c - zero))
    <$> List.find (fun zero => (zero <=? c) && (c <? zero + 10))%N decimal_zeros.

(** [c.isdecimal()] *)
Definition isdecimal_char (c : char) : bool := bool_decide (is_Some (decimal_value c)).

(** The digits that are not decimal (superscripts, subscripts, circled
    digits and the like), as ranges with both ends included. *)
Definition other_digits : list (N * N) :=
  [(178, 179); (185, 185); (4969, 4977); (6618, 6618); (8304, 8304);
   (8308, 8313); (8320, 8329); (9312, 9320); (9332, 9340); (9352, 9360);
   (9450, 9450); (9461, 9469); (9471, 9471); (10102, 10110); (10112, 10120);
   (10122, 10130); (68160, 68163); (69216, 69224); (69714, 69722);
   (127232, 127242)]%N.

(** [c.isdigit()] *)
Definition isdigit_char (c : char) : bool :=
  isdecimal_char c
  || existsb (fun range : N * N => (range.1 <=? c) && (c <=? range.2))%N other_digits.

(** [str.isdigit()]: the text is not empty and all of it is digits. *)
Definition isdigit (s : str) : bool :=
  negb (bool_decide (s = [])) && forallb isdigit_char s.

Definition str_eqb (a b : str) : bool := bool_decide (a = b).

(** [str(n)] for an [int]. *)
Definition str_of_int (z : Z) : str :=
  map N_of_ascii
      (list_ascii_of_string (DecimalString.NilZero.string_of_int (Z.to_int z))).

(** ** Floats: IEEE 754 binary64, as CPython's [float]. *)

(** The double nearest to the rational [n / d] (ties to even). *)
Definition round_ratio (neg : bool) (n d : positive) : float :=
  SF2Prim (SFdiv prec emax (S754_finite neg n 0) (S754_finite false d 0)).

Definition float_of_ratio (n d : Z) : float :=
  match n, d with
  | Z0, _ => if (d <? 0) then (-0)%float else 0%float
  | Zpos p, Zpos q => round_ratio false p q
  | Zneg p, Zpos q => round_ratio true p q
  | Zpos p, Zneg q => round_ratio true p q
  | Zneg p, Zneg q => round_ratio false p q
  | _, Z0 => nan
  end.

(** [float(n)] for an [int]. *)
Definition float_of_int (n : Z) : float := float_of_ratio n 1.

(** [a / b] on two [int]s: the correctly rounded quotient, or
    [ZeroDivisionError]. *)
Definition int_truediv (a b : Z) : option float :=
  if b =? 0 then None else Some (float_of_ratio a b).

(** [int(x)] on a [float]: truncation towards zero; [None] stands for the
    [OverflowError] / [ValueError] raised on infinities and NaN. *)
Definition int_of_float (x : float) : option Z :=
  match Prim2SF x with
  | S754_zero _ => Some 0
  | S754_finite s m e =>
      let v := if 0 <=? e then Z.pos m * 2 ^ e else Z.pos m / 2 ^ (- e) in
      Some (if s then - v else v)
  | _ => None
  end.

(** ** Objects

    The Python values that parameter parsing can produce.  A [dict] keeps
    its keys in insertion order. *)
#[warnings="-register-all"]
Inductive value :=
| VNone
| VBool (b : bool)
| VInt (z : Z)
| VFloat (f : float)
| VStr (s : str)
| VList (l : list value)
| VDict (d : list (str * value)).

(** [d[k] = v] *)
Fixpoint dict_set {A} (k : str) (v : A) (d : list (str * A)) : list (str * A) :=
  match d with
  | [] => [(k, v)]
  | (k', v') :: d' =>
      if str_eqb k' k then (k, v) :: d' else (k', v') :: dict_set k v d'
  end.

(** [dict(pairs)] *)
Definition dict_of_pairs {A} (pairs : list (str * A)) : list (str * A) :=
  fold_left (fun d kv => dict_set kv.1 kv.2 d) pairs [].

(** ** Numbers from text

    [digits_value s] reads [s], made of ASCII digits, in base ten;
    [decimals_value acc s] reads decimal digits of any script and is
    [None] when [s] holds something else. *)
Definition digit_value (c : char) : Z := Z.of_N (c - 48).
Definition digits_value (s : str) : Z :=
  fold_left (fun acc c => 10 * acc + digit_value c) s 0.

Fixpoint decimals_value (acc : Z) (s : str) : option Z :=
  match s with
  | [] => Some acc
  | c :: rest => d ← decimal_value c; decimals_value (10 * acc + d) rest
  end.

(** The double nearest to [(-1)^neg * m * 10^e10]. *)
Definition float_of_decimal (neg : bool) (m e10 : Z) : float :=
  if m =? 0 then (if neg then (-0)%float else 0%float)
  else
    let m := if neg then - m else m in
    if 0 <=? e10 then float_of_ratio (m * 10 ^ e10) 1
    else float_of_ratio m (10 ^ (- e10)).

(** [int(s)] and [float(s)] on a [str].  They are reached by the program
    only with text made of digits, ['-'] and ['.'], on which the built-ins
    accept an optional leading minus sign followed by decimal digits of
    any script, with one decimal point among them for [float]; a digit
    that is not decimal is refused.  [int] also refuses more digits than
    [sys.get_int_max_str_digits()], which the program leaves at its
    default.  [None] is [ValueError]. *)
Definition int_max_str_digits : nat := 4300.

Definition split_sign (s : str) : bool * str :=
  match s with
  | c :: r => if (c =? 45)%N then (true, r) else (false, s)
  | [] => (false, [])
  end.

Definition int_of_str (s : str) : option Z :=
  let '(neg, digits) := split_sign (strip s) in
  if negb (bool_decide (digits = [])) && (length digits <=? int_max_str_digits)%nat
  then (fun n => if neg then - n else n) <$> decimals_value 0 digits
  else None.

Definition float_of_str (s : str) : option float :=
  let '(neg, body) := split_sign (strip s) in
  match find body [46%N] with
  | None =>
      if bool_decide (body = []) then None
      else (fun n => float_of_decimal neg n 0) <$> decimals_value 0 body
  | Some i =>
      let int_part := take i body in
      let frac_part := drop (S i) body in
      if bool_decide (int_part ++ frac_part = []) then None
      else (fun n => float_of_decimal neg n (- Z.of_nat (length frac_part)))
             <$> decimals_value 0 (int_part ++ frac_part)
  end.

End Py.

Export Py.

(* ================================================================== *)
(** * Exceptions and state                                             *)
(* ================================================================== *)

(** A method call either returns or raises, and in both cases leaves a
    state behind. *)
Module Eff.

Inductive exn :=
| KeyError (key : str)
| ZeroDivisionError
| OverflowError
| TypeError (msg : str)
| ValueError (msg : str)
| RecursionError (msg : str)
| UnicodeEncodeError (msg : str)
| OSError (msg : str).

(** [str(e)] *)
Definition str_exn (e : exn) : str :=
  match e with
  | KeyError key => u "'" ++ key ++ u "'"
  | ZeroDivisionError => u "division by zero"
  | OverflowError => u "cannot convert float infinity to integer"
  | TypeError msg => msg
  | ValueError msg => msg
  | RecursionError msg => msg
  | UnicodeEncodeError msg => msg
  | OSError msg => msg
  end.

Inductive outcome (A : Type) :=
| Return (a : A)
| Raise (e : exn).
Arguments Return {A} a.
Arguments Raise {A} e.

(** A function that touches no state either returns or raises. *)
#[global] Instance outcome_ret : MRet outcome := fun A a => Return a.
#[global] Instance outcome_bind : MBind outcome := fun A B f r =>
  match r with
  | Return a => f a
  | Raise e => Raise e
  end.

Definition M (S A : Type) : Type := S -> outcome A * S.

#[global] Instance M_ret {S} : MRet (M S) := fun A a s => (Return a, s).
#[global] Instance M_bind {S} : MBind (M S) := fun A B f m s =>
  match m s with
  | (Return a, s') => f a s'
  | (Raise e, s') => (Raise e, s')
  end.

Definition raise {S A} (e : exn) : M S A := fun s => (Raise e, s).
Definition lift {S A} (r : outcome A) : M S A := fun s => (r, s).
Definition get {S} : M S S := fun s => (Return s, s).
Definition put {S} (s : S) : M S unit := fun _ => (Return tt, s).

(** [try: m except Exception as e: h e] *)
Definition try_except {S A} (m : M S A) (h : exn -> M S A) : M S A :=
  fun s =>
    match m s with
    | (Return a, s') => (Return a, s')
    | (Raise e, s') => h e s'
    end.

End Eff.

Export Eff.


(* ================================================================== *)
(** * json.loads                                                       *)
(* ================================================================== *)

(** The decoder of the standard library, as [json.loads(s)] runs it with
    its default settings on a [str].  Text that is not JSON raises
    [JSONDecodeError].  Two other exceptions leave the decoder: the
    [ValueError] of [int] on an integer of more than
    [sys.get_int_max_str_digits()] digits, and [RecursionError] when
    arrays and objects are nested deeper than the interpreter's recursion
    limit leaves room for at the call. *)
Module json.

Inductive decoding (A : Type) :=
| Decoded (a : A)
| JSONDecodeError
| Raised (e : exn).
Arguments Decoded {A} a.
Arguments JSONDecodeError {A}.
Arguments Raised {A} e.

#[global] Instance decoding_bind : MBind decoding := fun A B f r =>
  match r with
  | Decoded a => f a
  | JSONDecodeError => JSONDecodeError
  | Raised e => Raised e
  end.

Definition of_option {A} (o : option A) : decoding A :=
  match o with
  | Some a => Decoded a
  | None => JSONDecodeError
  end.

Definition int_too_long (digits : nat) : exn :=
  ValueError
    (u "Exceeds the limit (4300 digits) for integer string conversion: value has "
       ++ str_of_int (Z.of_nat digits)
       ++ u " digits; use sys.set_int_max_str_digits() to increase the limit").

Definition too_deep (container : string) : exn :=
  RecursionError
    (u "maximum recursion depth exceeded while decoding a JSON " ++ u container
       ++ u " from a unicode string").

Definition is_ws (c : char) : bool :=
  ((c =? 32) || (c =? 9) || (c =? 10) || (c =? 13))%N.

Fixpoint skip_ws (s : str) : str :=
  match s with
  | c :: r => if is_ws c then skip_ws r else s
  | [] => []
  end.

Definition hex_value (c : char) : option N :=
  if ((48 <=? c) && (c <=? 57))%N then Some (c - 48)%N
  else if ((97 <=? c) && (c <=? 102))%N then Some (c - 87)%N
  else if ((65 <=? c) && (c <=? 70))%N then Some (c - 55)%N
  else None.

Definition hex4 (a b c d : char) : option N :=
  x ← hex_value a; y ← hex_value b; z ← hex_value c; w ← hex_value d;
  Some (((x * 16 + y) * 16 + z) * 16 + w)%N.

(** The one-character escapes: quote, backslash, slash, b, f, n, r, t. *)
Definition simple_escape (c : char) : option char :=
  if (c =? 34)%N then Some 34%N
  else if (c =? 92)%N then Some 92%N
  else if (c =? 47)%N then Some 47%N
  else if (c =? 98)%N then Some 8%N
  else if (c =? 102)%N then Some 12%N
  else if (c =? 110)%N then Some 10%N
  else if (c =? 114)%N then Some 13%N
  else if (c =? 116)%N then Some 9%N
  else None.

Definition is_high_surrogate (c : N) : bool := ((55296 <=? c) && (c <=? 56319))%N.
Definition is_low_surrogate (c : N) : bool := ((56320 <=? c) && (c <=? 57343))%N.

(** The text of a string after its opening quote, up to the closing one. *)
Fixpoint scanstring (s : str) (acc : str) : option (str * str) :=
  match s with
  | [] => None
  | c :: r =>
      if (c =? 34)%N then Some (rev acc, r)
      else if (c =? 92)%N then
        match r with
        | [] => None
        | e :: r1 =>
            if (e =? 117)%N then
              match r1 with
              | h1 :: h2 :: h3 :: h4 :: r2 =>
                  match hex4 h1 h2 h3 h4 with
                  | None => None
                  | Some hi =>
                      match r2 with
                      | b1 :: b2 :: l1 :: l2 :: l3 :: l4 :: r3 =>
                          if is_high_surrogate hi && (b1 =? 92)%N && (b2 =? 117)%N then
                            match hex4 l1 l2 l3 l4 with
                            | None => None
                            | Some lo =>
                                if is_low_surrogate lo
                                then scanstring r3
                                       ((65536 + (hi - 55296) * 1024 + (lo - 56320))%N :: acc)
                                else scanstring r2 (hi :: acc)
                            end
                          else scanstring r2 (hi :: acc)
                      | _ => scanstring r2 (hi :: acc)
                      end
                  end
              | _ => None
              end
            else
              match simple_escape e with
              | Some ch => scanstring r1 (ch :: acc)
              | None => None
              end
        end
      else if (c <? 32)%N then None
      else scanstring r (c :: acc)
  end.

Fixpoint span_digits (s : str) : str * str :=
  match s with
  | c :: r =>
      if is_ascii_digit c then let '(d, r') := span_digits r in (c :: d, r')
      else ([], s)
  | [] => ([], [])
  end.

(** [NUMBER_RE]: an optional minus sign; then a zero, or a non-zero digit
    and any digits; then optionally a point and one or more digits; then
    optionally e or E, an optional sign and one or more digits.  The
    number is an integer when neither fraction nor exponent matched, else
    a float.  The digits are the ASCII ones; the integer is converted by
    [int], which refuses it when it is too long. *)
Definition match_number (s : str) : decoding (value * str) :=
  let '(neg, s1) := split_sign s in
  match s1 with
  | [] => JSONDecodeError
  | c :: r =>
      if negb (is_ascii_digit c) then JSONDecodeError
      else
        let '(int_digits, s2) :=
          if (c =? 48)%N then ([c], r) else span_digits s1 in
        let '(frac_digits, s3) :=
          match s2 with
          | dot :: r2 =>
              if (dot =? 46)%N then
                let '(d, r3) := span_digits r2 in
                if bool_decide (d = []) then ([], s2) else (d, r3)
              else ([], s2)
          | [] => ([], s2)
          end in
        let '(exp, s4) :=
          match s3 with
          | e :: r3 =>
              if ((e =? 101) || (e =? 69))%N then
                let '(eneg, r4) :=
                  match r3 with
                  | sg :: r4 =>
                      if (sg =? 45)%N then (true, r4)
                      else if (sg =? 43)%N then (false, r4) else (false, r3)
                  | [] => (false, r3)
                  end in
                let '(d, r5) := span_digits r4 in
                if bool_decide (d = []) then (None, s3)
                else (Some (if eneg then - digits_value d else digits_value d), r5)
              else (None, s3)
          | [] => (None, s3)
          end in
        match frac_digits, exp with
        | [], None =>
            if (int_max_str_digits <? length int_digits)%nat
            then Raised (int_too_long (length int_digits))
            else
              let n := digits_value int_digits in
              Decoded (VInt (if neg then - n else n), s4)
        | _, _ =>
            Decoded (VFloat (float_of_decimal neg
                               (digits_value (int_digits ++ frac_digits))
                               (default 0 exp - Z.of_nat (length frac_digits))),
                     s4)
        end
  end.

Definition lit (text : string) : str := u text.

(** [scan_once], [JSONArray] and [JSONObject].  Every call consumes a
    character before it calls further, so recursion is bounded by the
    length of the text; [loads] supplies that bound as [fuel].  [room] is
    the number of arrays and objects that may still be entered, one
    inside the other, before the recursion limit is reached: the decoder
    checks it each time it meets an opening bracket or brace, before it
    reads on. *)
Fixpoint scan_once (fuel room : nat) (s : str) : decoding (value * str) :=
  match fuel with
  | O => JSONDecodeError
  | S fuel =>
      match s with
      | [] => JSONDecodeError
      | c :: r =>
          if (c =? 34)%N then '(k, r') ← of_option (scanstring r []); Decoded (VStr k, r')
          else if (c =? 123)%N then
            match room with
            | O => Raised (too_deep "object")
            | S room =>
                let r1 := skip_ws r in
                match r1 with
                | c1 :: r2 =>
                    if (c1 =? 34)%N then object_items fuel room r2 []
                    else if (c1 =? 125)%N then Decoded (VDict [], r2)
                    else JSONDecodeError
                | [] => JSONDecodeError
                end
            end
          else if (c =? 91)%N then
            match room with
            | O => Raised (too_deep "array")
            | S room =>
                let r1 := skip_ws r in
                match r1 with
                | c1 :: r2 =>
                    if (c1 =? 93)%N then Decoded (VList [], r2)
                    else array_items fuel room r1 []
                | [] => JSONDecodeError
                end
            end
          else if startswith s (lit "null") then Decoded (VNone, drop 4 s)
          else if startswith s (lit "true") then Decoded (VBool true, drop 4 s)
          else if startswith s (lit "false") then Decoded (VBool false, drop 5 s)
          else
            match match_number s with
            | JSONDecodeError =>
                if startswith s (lit "NaN") then Decoded (VFloat nan, drop 3 s)
                else if startswith s (lit "Infinity")
                then Decoded (VFloat infinity, drop 8 s)
                else if startswith s (lit "-Infinity")
                then Decoded (VFloat neg_infinity, drop 9 s)
                else JSONDecodeError
            | res => res
            end
      end
  end
with array_items (fuel room : nat) (s : str) (values : list value)
  : decoding (value * str) :=
  match fuel with
  | O => JSONDecodeError
  | S fuel =>
      '(v, r) ← scan_once fuel room s;
      match skip_ws r with
      | c :: r1 =>
          if (c =? 93)%N then Decoded (VList (rev (v :: values)), r1)
          else if (c =? 44)%N then array_items fuel room (skip_ws r1) (v :: values)
          else JSONDecodeError
      | [] => JSONDecodeError
      end
  end
with object_items (fuel room : nat) (s : str) (pairs : list (str * value))
  : decoding (value * str) :=
  (* [s] starts just after the opening quote of a key *)
  match fuel with
  | O => JSONDecodeError
  | S fuel =>
      '(key, r) ← of_option (scanstring s []);
      match skip_ws r with
      | colon :: r1 =>
          if negb (colon =? 58)%N then JSONDecodeError
          else
            '(v, r2) ← scan_once fuel room (skip_ws r1);
            match skip_ws r2 with
            | c :: r3 =>
                if (c =? 125)%N
                then Decoded (VDict (dict_of_pairs (rev ((key, v) :: pairs))), r3)
                else if (c =? 44)%N then
                  match skip_ws r3 with
                  | q :: r4 =>
                      if (q =? 34)%N then object_items fuel room r4 ((key, v) :: pairs)
                      else JSONDecodeError
                  | [] => JSONDecodeError
                  end
                else JSONDecodeError
            | [] => JSONDecodeError
            end
      | [] => JSONDecodeError
      end
  end.

(** [json.loads(s)] with room for [room] nested arrays and objects. *)
Definition loads (room : nat) (s : str) : decoding value :=
  '(v, r) ← scan_once (2 * length s + 2) room (skip_ws s);
  if bool_decide (skip_ws r = []) then Decoded v else JSONDecodeError.

End json.

(* ================================================================== *)
(** * re                                                               *)
(* ================================================================== *)

Module re.

(** [findall] for the two shapes of pattern the program uses, with
    [re.DOTALL]: [A(.*?)B] and [A(.*?)B(.*?)C].  A lazy group stops at
    the first occurrence of what follows it; when that is missing for the
    first candidate it is missing for every later one. *)
Fixpoint findall1 (fuel : nat) (A B s : str) : list str :=
  match fuel with
  | O => []
  | S fuel =>
      match find s A with
      | None => []
      | Some i =>
          let s1 := drop (i + length A)%nat s in
          match find s1 B with
          | None => []
          | Some j => take j s1 :: findall1 fuel A B (drop (j + length B)%nat s1)
          end
      end
  end.

(** [re.search(A(.*?)B, s, re.DOTALL).group(0)] *)
Definition search1 (A B s : str) : option str :=
  i ← find s A;
  let s1 := drop (i + length A)%nat s in
  j ← find s1 B;
  Some (A ++ take j s1 ++ B).

Fixpoint findall2 (fuel : nat) (A B C s : str) : list (str * str) :=
  match fuel with
  | O => []
  | S fuel =>
      match find s A with
      | None => []
      | Some i =>
          let s1 := drop (i + length A)%nat s in
          match find s1 B with
          | None => []
          | Some j =>
              let s2 := drop (j + length B)%nat s1 in
              match find s2 C with
              | None => []
              | Some k =>
                  (take j s1, take k s2)
                    :: findall2 fuel A B C (drop (k + length C)%nat s2)
              end
          end
      end
  end.

End re.

(* ================================================================== *)
(** * todo_system.py: the task list engine                             *)
(* ================================================================== *)

Module todo_system.

(** ** Records

    A todo is a Python dict with a fixed set of keys.  [add] creates all
    eleven of them, [update_all] only the first four, so the remaining
    seven are optional here: [None] means that the key is absent and that
    subscripting it raises [KeyError].  [started_at] and [completed_at]
    hold Python's [None] until they are stamped, hence the inner option. *)

Module Subtask.
Record t := mk { id : str; content : str; completed : bool }.
End Subtask.

Module LogEntry.
Record t := mk { timestamp : str; action : str; description : str }.
End LogEntry.

Module Todo.
Record t := mk {
  id : Z;
  content : str;
  status : str;
  priority : str;
  progress : option Z;
  activeForm : option str;
  subtasks : option (list Subtask.t);
  created_at : option str;
  started_at : option (option str);
  completed_at : option (option str);
  execution_log : option (list LogEntry.t)
}.

Definition set_content (v : str) (d : t) : t :=
  mk (id d) v (status d) (priority d) (progress d) (activeForm d) (subtasks d)
     (created_at d) (started_at d) (completed_at d) (execution_log d).
Definition set_status (v : str) (d : t) : t :=
  mk (id d) (content d) v (priority d) (progress d) (activeForm d) (subtasks d)
     (created_at d) (started_at d) (completed_at d) (execution_log d).
Definition set_priority (v : str) (d : t) : t :=
  mk (id d) (content d) (status d) v (progress d) (activeForm d) (subtasks d)
     (created_at d) (started_at d) (completed_at d) (execution_log d).
Definition set_progress (v : Z) (d : t) : t :=
  mk (id d) (content d) (status d) (priority d) (Some v) (activeForm d) (subtasks d)
     (created_at d) (started_at d) (completed_at d) (execution_log d).
Definition set_subtasks (v : list Subtask.t) (d : t) : t :=
  mk (id d) (content d) (status d) (priority d) (progress d) (activeForm d) (Some v)
     (created_at d) (started_at d) (completed_at d) (execution_log d).
Definition set_started_at (v : str) (d : t) : t :=
  mk (id d) (content d) (status d) (priority d) (progress d) (activeForm d) (subtasks d)
     (created_at d) (Some (Some v)) (completed_at d) (execution_log d).
Definition set_completed_at (v : str) (d : t) : t :=
  mk (id d) (content d) (status d) (priority d) (progress d) (activeForm d) (subtasks d)
     (created_at d) (started_at d) (Some (Some v)) (execution_log d).
Definition set_execution_log (v : list LogEntry.t) (d : t) : t :=
  mk (id d) (content d) (status d) (priority d) (progress d) (activeForm d) (subtasks d)
     (created_at d) (started_at d) (completed_at d) (Some v).
End Todo.

(** One element of the argument of [update_all]: a dict that should hold
  [content] and may hold [status] and [priority]; [others] are any
  further keys the caller put there. *)
Module TodoData.
Record t := mk {
  content : option str;
  status : option str;
  priority : option str;
  others : list (str * str)
}.
End TodoData.

Definition TODO_HIGH : str := Eval vm_compute in u "high".
Definition TODO_MEDIUM : str := Eval vm_compute in u "medium".
Definition TODO_LOW : str := Eval vm_compute in u "low".

Definition PENDING : str := Eval vm_compute in u "pending".
Definition IN_PROGRESS : str := Eval vm_compute in u "in_progress".
Definition COMPLETED : str := Eval vm_compute in u "completed".

(** ** State and effects

    The object state of a [TodoList] is its [todos] list.  The only other
    effect is reading the wall clock: [strftime_now n] is the text that the
    [n]-th evaluation of [datetime.now().strftime("%Y-%m-%d %H:%M:%S")]
    produces, and [clock] counts the evaluations made so far. *)

Record TodoList := mkTodoList { todos : list Todo.t; clock : nat }.

Definition init : TodoList := mkTodoList [] 0.

Abbreviation M := (Eff.M TodoList).

Definition get_todos : M (list Todo.t) := fun s => (Return (todos s), s).
Definition put_todos (l : list Todo.t) : M unit :=
  fun s => (Return tt, mkTodoList l (clock s)).

(** Assignment to a key of the dict stored at position [i]. *)
Definition mutate (i : nat) (f : Todo.t -> Todo.t) : M unit :=
  l ← get_todos; put_todos (alter f i l).

(** The dict found by a loop stays the same object while later statements
    mutate it; [todo_at i] reads it back for the final [return todo]. *)
Definition todo_at (i : nat) : M (option Todo.t) :=
  l ← get_todos; mret (l !! i).

(** [int((completed_count / total_count) * 100)]: a true division, a float
    product and a truncation. *)
Definition percent (completed_count total_count : Z) : outcome Z :=
  match int_truediv completed_count total_count with
  | None => Raise ZeroDivisionError
  | Some q =>
      match int_of_float (q * float_of_int 100)%float with
      | Some p => Return p
      | None => Raise OverflowError
      end
  end.

Definition has_status (status : str) (d : Todo.t) : bool :=
  str_eqb (Todo.status d) status.

(** [for todo in self.todos: if todo["id"] == id: ...]: the position and
    the value of the first todo with that id. *)
Fixpoint find_todo (id : Z) (l : list Todo.t) : option (nat * Todo.t) :=
  match l with
  | [] => None
  | d :: l' =>
      if Todo.id d =? id then Some (0%nat, d)
      else '(i, d') ← find_todo id l'; Some (S i, d')
  end.

Fixpoint find_subtask (subtask_id : str) (sts : list Subtask.t)
  : option (nat * Subtask.t) :=
  match sts with
  | [] => None
  | st :: sts' =>
      if str_eqb (Subtask.id st) subtask_id then Some (0%nat, st)
      else '(j, st') ← find_subtask subtask_id sts'; Some (S j, st')
  end.

(** The nested loops of [complete_subtask] only read until they reach a
    todo with the id that owns a subtask with the subtask id; a todo with
    the id but without such a subtask lets the outer loop go on. *)
Fixpoint find_todo_subtask (todo_id : Z) (subtask_id : str) (i : nat)
    (l : list Todo.t) : outcome (option (nat * nat * Subtask.t)) :=
  match l with
  | [] => Return None
  | d :: l' =>
      if Todo.id d =? todo_id then
        match Todo.subtasks d with
        | None => Raise (KeyError (u "subtasks"))
        | Some sts =>
            match find_subtask subtask_id sts with
            | Some (j, st) => Return (Some (i, j, st))
            | None => find_todo_subtask todo_id subtask_id (S i) l'
            end
        end
      else find_todo_subtask todo_id subtask_id (S i) l'
  end.

Definition set_completed (j : nat) (d : Todo.t) : Todo.t :=
  match Todo.subtasks d with
  | Some sts =>
      Todo.set_subtasks
        (alter (fun st => Subtask.mk (Subtask.id st) (Subtask.content st) true) j sts) d
  | None => d
  end.

Definition append_log (e : LogEntry.t) (d : Todo.t) : Todo.t :=
  match Todo.execution_log d with
  | Some log => Todo.set_execution_log (log ++ [e]) d
  | None => d
  end.

Fixpoint enumerate_subtasks (todo_id : Z) (i : Z) (subtasks_list : list str)
  : list Subtask.t :=
  match subtasks_list with
  | [] => []
  | c :: rest =>
      Subtask.mk (str_of_int todo_id ++ u "-" ++ str_of_int i) c false
        :: enumerate_subtasks todo_id (i + 1) rest
  end.

Definition repeat_str (s : str) (n : Z) : str := concat (replicate (Z.to_nat n) s).

Fixpoint summary_loop (summary : str) (active_todos : list Todo.t) : outcome str :=
  match active_todos with
  | [] => Return summary
  | todo :: rest =>
      match Todo.progress todo with
      | None => Raise (KeyError (u "progress"))
      | Some p =>
          let progress_bar :=
            repeat_str (u "█") (p / 10) ++ repeat_str (u "░") (10 - p / 10) in
          let summary := summary ++ u "🔄 " ++ Todo.content todo ++ nl in
          let summary :=
            summary ++ u "   进度: [" ++ progress_bar ++ u "] " ++ str_of_int p
                    ++ u "%" ++ nl in
          match Todo.subtasks todo with
          | None => Raise (KeyError (u "subtasks"))
          | Some sts =>
              let summary :=
                if bool_decide (sts = []) then summary
                else
                  let completed_subtasks := List.filter Subtask.completed sts in
                  summary ++ u "   子任务: "
                    ++ str_of_int (Z.of_nat (length completed_subtasks)) ++ u "/"
                    ++ str_of_int (Z.of_nat (length sts)) ++ u " 已完成" ++ nl in
              summary_loop (summary ++ nl) rest
          end
      end
  end.

Section Engine.

(** [strftime_now n] is the text produced by the [n]-th evaluation of
    [datetime.now().strftime("%Y-%m-%d %H:%M:%S")]. *)
Variable strftime_now : nat -> str.

Definition datetime_now : M str :=
  fun s => (Return (strftime_now (clock s)), mkTodoList (todos s) (S (clock s))).

Definition add (content : str) (priority : str) : M Todo.t :=
  l ← get_todos;
  now ← datetime_now;
  let todo := Todo.mk (Z.of_nat (length l) + 1) content PENDING priority
                      (Some 0) (Some (u "正在" ++ content)) (Some [])
                      (Some now) (Some None) (Some None) (Some []) in
  put_todos (l ++ [todo]);;
  mret todo.

Definition modify (id : Z) (content priority : str) : M (option Todo.t) :=
  l ← get_todos;
  match find_todo id l with
  | Some (i, _) =>
      mutate i (Todo.set_content content);;
      mutate i (Todo.set_priority priority);;
      todo_at i
  | None => mret None
  end.

(** [self.todos.remove(todo)] removes the first element equal to [todo];
    the loop has just found [todo] as the first element with its id, so no
    earlier element is equal to it. *)
Definition delete (id : Z) : M (option Todo.t) :=
  l ← get_todos;
  match find_todo id l with
  | Some (i, d) => put_todos (take i l ++ drop (S i) l);; mret (Some d)
  | None => mret None
  end.

Fixpoint update_all_loop (i : Z) (todos_data : list TodoData.t) : M unit :=
  match todos_data with
  | [] => mret tt
  | todo_data :: rest =>
      match TodoData.content todo_data with
      | None => raise (KeyError (u "content"))
      | Some c =>
          let todo := Todo.mk i c
                        (default PENDING (TodoData.status todo_data))
                        (default TODO_MEDIUM (TodoData.priority todo_data))
                        None None None None None None None in
          l ← get_todos;
          put_todos (l ++ [todo]);;
          update_all_loop (i + 1) rest
      end
  end.

Definition update_all (todos_data : list TodoData.t) : M (list Todo.t) :=
  put_todos [];;
  update_all_loop 1 todos_data;;
  get_todos.

Definition get_all : M (list Todo.t) := get_todos.

Definition update_status (id : Z) (status : str) : M (option Todo.t) :=
  l ← get_todos;
  match find_todo id l with
  | Some (i, _) => mutate i (Todo.set_status status);; todo_at i
  | None => mret None
  end.

Definition get_by_status (status : str) : M (list Todo.t) :=
  l ← get_todos; mret (List.filter (has_status status) l).

Definition log_execution (todo_id : Z) (action description : str) : M bool :=
  l ← get_todos;
  match find_todo todo_id l with
  | Some (i, d) =>
      now ← datetime_now;
      let log_entry := LogEntry.mk now action description in
      match Todo.execution_log d with
      | None => raise (KeyError (u "execution_log"))
      | Some _ => mutate i (append_log log_entry);; mret true
      end
  | None => mret false
  end.

Definition start_todo (todo_id : Z) : M (option Todo.t) :=
  l ← get_todos;
  let active_tasks := List.filter (has_status IN_PROGRESS) l in
  if negb (bool_decide (active_tasks = [])) then mret None
  else
    match find_todo todo_id l with
    | Some (i, d) =>
        mutate i (Todo.set_status IN_PROGRESS);;
        now ← datetime_now;
        mutate i (Todo.set_started_at now);;
        log_execution todo_id (u "started") (u "开始执行任务: " ++ Todo.content d);;
        todo_at i
    | None => mret None
    end.

Definition break_down_task (todo_id : Z) (subtasks_list : list str)
  : M (option Todo.t) :=
  l ← get_todos;
  match find_todo todo_id l with
  | Some (i, _) =>
      let subtasks := enumerate_subtasks todo_id 1 subtasks_list in
      mutate i (Todo.set_subtasks subtasks);;
      log_execution todo_id (u "breakdown")
        (u "任务分解为" ++ str_of_int (Z.of_nat (length subtasks)) ++ u "个子任务");;
      todo_at i
  | None => mret None
  end.

Definition complete_todo (todo_id : Z) : M (option Todo.t) :=
  l ← get_todos;
  match find_todo todo_id l with
  | Some (i, d) =>
      mutate i (Todo.set_status COMPLETED);;
      mutate i (Todo.set_progress 100);;
      now ← datetime_now;
      mutate i (Todo.set_completed_at now);;
      log_execution todo_id (u "completed") (u "任务完成: " ++ Todo.content d);;
      todo_at i
  | None => mret None
  end.

Definition update_progress (todo_id : Z) (progress : Z) : M (option Todo.t) :=
  l ← get_todos;
  match find_todo todo_id l with
  | Some (i, d) =>
      match Todo.progress d with
      | None => raise (KeyError (u "progress"))
      | Some old_progress =>
          mutate i (Todo.set_progress (Z.max 0 (Z.min 100 progress)));;
          log_execution todo_id (u "progress")
            (u "进度更新: " ++ str_of_int old_progress ++ u "% -> "
               ++ str_of_int progress ++ u "%");;
          (if 100 <=? progress then complete_todo todo_id;; mret tt else mret tt);;
          todo_at i
      end
  | None => mret None
  end.

Definition complete_subtask (todo_id : Z) (subtask_id : str) : M (option Todo.t) :=
  l ← get_todos;
  found ← lift (find_todo_subtask todo_id subtask_id 0 l);
  match found with
  | Some (i, j, subtask) =>
      mutate i (set_completed j);;
      log_execution todo_id (u "subtask_completed")
        (u "完成子任务: " ++ Subtask.content subtask);;
      todo ← todo_at i;
      let sts := default [] (todo ≫= Todo.subtasks) in
      let completed_count := Z.of_nat (length (List.filter Subtask.completed sts)) in
      let total_count := Z.of_nat (length sts) in
      (if 0 <? total_count then
         progress ← lift (percent completed_count total_count);
         mutate i (Todo.set_progress progress);;
         (if completed_count =? total_count
          then complete_todo todo_id;; mret tt else mret tt)
       else mret tt);;
      todo_at i
  | None => mret None
  end.

Definition get_active_todos : M (list Todo.t) :=
  l ← get_todos; mret (List.filter (has_status IN_PROGRESS) l).

Definition get_pending_todos : M (list Todo.t) :=
  l ← get_todos; mret (List.filter (has_status PENDING) l).

Definition get_todo_progress_summary : M str :=
  active_todos ← get_active_todos;
  if bool_decide (active_todos = []) then mret (u "当前没有正在进行的任务")
  else
    summary ← lift (summary_loop (u "📋 正在进行的任务:" ++ nl) active_todos);
    mret (strip summary).

(** ** The methods as commands *)

Inductive op :=
| Add (content priority : str)
| Modify (id : Z) (content priority : str)
| Delete (id : Z)
| UpdateAll (todos_data : list TodoData.t)
| GetAll
| UpdateStatus (id : Z) (status : str)
| GetByStatus (status : str)
| StartTodo (todo_id : Z)
| BreakDownTask (todo_id : Z) (subtasks_list : list str)
| UpdateProgress (todo_id : Z) (progress : Z)
| CompleteSubtask (todo_id : Z) (subtask_id : str)
| CompleteTodo (todo_id : Z)
| GetActiveTodos
| GetPendingTodos
| LogExecution (todo_id : Z) (action description : str)
| GetTodoProgressSummary.

(** The state a call leaves behind, whether it returns or raises. *)
Definition exec (o : op) (s : TodoList) : TodoList :=
  match o with
  | Add c p => (add c p s).2
  | Modify i c p => (modify i c p s).2
  | Delete i => (delete i s).2
  | UpdateAll d => (update_all d s).2
  | GetAll => (get_all s).2
  | UpdateStatus i st => (update_status i st s).2
  | GetByStatus st => (get_by_status st s).2
  | StartTodo i => (start_todo i s).2
  | BreakDownTask i l => (break_down_task i l s).2
  | UpdateProgress i p => (update_progress i p s).2
  | CompleteSubtask i j => (complete_subtask i j s).2
  | CompleteTodo i => (complete_todo i s).2
  | GetActiveTodos => (get_active_todos s).2
  | GetPendingTodos => (get_pending_todos s).2
  | LogExecution i a d => (log_execution i a d s).2
  | GetTodoProgressSummary => (get_todo_progress_summary s).2
  end.

Definition run (ops : list op) (s : TodoList) : TodoList :=
  fold_left (fun s o => exec o s) ops s.

End Engine.

(** ** The single-active-task invariant *)

Definition active_count (l : list Todo.t) : nat :=
  length (List.filter (has_status IN_PROGRESS) l).

Definition single_active (l : list Todo.t) : Prop := (active_count l <= 1)%nat.

(** How many records of a batch ask for the status [in_progress]. *)
Definition batch_active_count (todos_data : list TodoData.t) : nat :=
  length (List.filter
            (fun d => str_eqb (default PENDING (TodoData.status d)) IN_PROGRESS)
            todos_data).

(** The two methods that store a status chosen by the caller are the only
    ones that can be asked to create a second active task. *)
Definition stores_unchecked_status (o : op) : Prop :=
  match o with
  | UpdateStatus _ status => status = IN_PROGRESS
  | UpdateAll todos_data => (2 <= batch_active_count todos_data)%nat
  | _ => False
  end.

(** The record that [update_all] builds from its [i]-th element. *)
Definition batch_todo (i : Z) (c : str) (d : TodoData.t) : Todo.t :=
  Todo.mk i c (default PENDING (TodoData.status d))
          (default TODO_MEDIUM (TodoData.priority d))
          None None None None None None None.

Fixpoint batch_list (i : Z) (todos_data : list TodoData.t) : list Todo.t :=
  match todos_data with
  | [] => []
  | d :: rest => batch_todo i (default [] (TodoData.content d)) d :: batch_list (i + 1) rest
  end.

(** The keys that only [add] creates are all absent. *)
Definition is_basic (d : Todo.t) : Prop :=
  Todo.progress d = None /\ Todo.activeForm d = None /\ Todo.subtasks d = None
  /\ Todo.created_at d = None /\ Todo.started_at d = None
  /\ Todo.completed_at d = None /\ Todo.execution_log d = None.

(** A todo with every key that [add] creates. *)
Definition is_executable (d : Todo.t) : Prop :=
  is_Some (Todo.progress d) /\ is_Some (Todo.activeForm d)
  /\ is_Some (Todo.subtasks d) /\ is_Some (Todo.created_at d)
  /\ is_Some (Todo.started_at d) /\ is_Some (Todo.completed_at d)
  /\ is_Some (Todo.execution_log d).

End todo_system.

(* ================================================================== *)
(** * core/function_registry.py                                        *)
(* ================================================================== *)

Module function_registry.

Definition kwargs := list (str * value).

Record FunctionResult := mkFunctionResult {
  success : bool;
  content : str;
  function_name : str;
  parameters : option kwargs;
  error : str;
  needs_confirmation : bool
}.

(** ** SmartParameterParser *)

Definition quote : str := [34%N].

(** What [parse_value] does with stripped text that is not taken as
    JSON: the boolean and the number detection. *)
Definition parse_scalar (value : str) : Py.value :=
  if bool_decide (lower value ∈ [u "true"; u "false"])
  then VBool (str_eqb (lower value) (u "true"))
  else
    let number :=
      if isdigit (remove_char 46%N (remove_char 45%N value))
      then
        if negb (contains (u ".") value)
        then VInt <$> int_of_str value
        else VFloat <$> float_of_str value
      else None in
    default (VStr value) number.

(** [recursion_room] is the room the interpreter's recursion limit leaves
    [json.loads] at the call.  Of what [json.loads] raises, only
    [JSONDecodeError] is caught. *)
Definition parse_value (recursion_room : nat) (value : value) : outcome Py.value :=
  match value with
  | VStr value =>
      let value := strip value in
      if bool_decide (value = []) then Return (VStr [])
      else if (startswith value (u "{") && endswith value (u "}"))
              || (startswith value (u "[") && endswith value (u "]"))
      then
        match json.loads recursion_room value with
        | json.Decoded parsed => Return parsed
        | json.JSONDecodeError => Return (parse_scalar value)
        | json.Raised e => Raise e
        end
      else Return (parse_scalar value)
  | other => Return other
  end.

Fixpoint parse_parameters (recursion_room : nat) (param_matches : list (str * str))
    (parameters : kwargs) : outcome kwargs :=
  match param_matches with
  | [] => Return parameters
  | (param_name, param_value) :: rest =>
      parsed ← parse_value recursion_room (VStr param_value);
      parse_parameters recursion_room rest (dict_set param_name parsed parameters)
  end.

Definition parse_xml_parameters (recursion_room : nat) (xml_params : str)
  : outcome kwargs :=
  let param_matches :=
    re.findall2 (length xml_params)
      (u "<parameter name=" ++ quote) (quote ++ u ">") (u "</parameter>")
      xml_params in
  parse_parameters recursion_room param_matches [].

(** ** UnifiedFunctionRegistry

    A registered function runs against the rest of the program's state,
    of type [W].  What the registry observes of a call is whether it
    raised, and of the returned object whether it is a [str] and what
    [str(result)] is; of a raised exception [e], the text [str(e)]. *)

Inductive returned :=
| RStr (s : str)
| RObject (str_result : str).

Inductive handler_outcome :=
| HReturn (result : returned)
| HRaise (str_e : str).

Definition NEEDS_CONFIRMATION : str := Eval vm_compute in u "需要用户输入Y确认".

(** [str(result)] *)
Definition py_str (result : returned) : str :=
  match result with
  | RStr text => text
  | RObject text => text
  end.

(** [isinstance(result, str) and "需要用户输入Y确认" in result] *)
Definition asks_confirmation (result : returned) : bool :=
  match result with
  | RStr text => contains NEEDS_CONFIRMATION text
  | RObject _ => false
  end.

Definition format_result_xml (content : str) (success : bool) : str :=
  let tag := if success then u "success" else u "failed" in
  u "<" ++ tag ++ u ">" ++ content ++ u "</" ++ tag ++ u ">".

Definition format_results (results : list FunctionResult) : str :=
  if bool_decide (results = []) then []
  else
    let formatted_responses :=
      map (fun result =>
             if needs_confirmation result
             then format_result_xml (content result) false
             else if success result
             then format_result_xml (content result) true
             else
               let error_msg :=
                 if bool_decide (error result = []) then u "未知错误"
                 else error result in
               format_result_xml error_msg false)
          results in
    u "<function_response>" ++ concat formatted_responses ++ u "</function_response>".

Section Registry.

Context {W : Type}.

Definition handler := kwargs -> W -> handler_outcome * W.

(** [self._functions]; the descriptions only feed [generate_xml]. *)
Record UnifiedFunctionRegistry := mkRegistry {
  _functions : gmap str handler
}.

Definition register (name : str) (func : handler) (r : UnifiedFunctionRegistry)
  : UnifiedFunctionRegistry :=
  mkRegistry (<[name := func]> (_functions r)).

Definition call (r : UnifiedFunctionRegistry) (name : str) (kw : kwargs)
  : W -> FunctionResult * W :=
  fun w =>
    match _functions r !! name with
    | None =>
        (mkFunctionResult false [] name None
           (u "Function '" ++ name ++ u "' not found") false, w)
    | Some func =>
        match func kw w with
        | (HReturn result, w') =>
            if asks_confirmation result
            then (mkFunctionResult false (py_str result) name (Some kw) [] true, w')
            else (mkFunctionResult true (py_str result) name (Some kw) [] false, w')
        | (HRaise str_e, w') =>
            (mkFunctionResult false [] name (Some kw) str_e false, w')
        end
    end.

(** [self.call(func_name, **parameters)]: a parameter called [self] or
    [name] collides with the positional arguments of [call], which Python
    reports as a [TypeError] before the body runs, naming the first such
    key of the dict. *)
Definition is_positional (key : str) : bool :=
  str_eqb key (u "self") || str_eqb key (u "name").

Definition call_with (r : UnifiedFunctionRegistry) (func_name : str)
    (parameters : kwargs) : Eff.M W FunctionResult :=
  match List.find is_positional (map fst parameters) with
  | Some key =>
      raise (TypeError (u "UnifiedFunctionRegistry.call() got multiple values for argument '"
                          ++ key ++ u "'"))
  | None =>
      fun w => let '(res, w') := call r func_name parameters w in (Return res, w')
  end.

Variable recursion_room : nat.

Fixpoint execute_invokes (r : UnifiedFunctionRegistry)
    (invokes : list (str * str)) (results : list FunctionResult)
  : Eff.M W (list FunctionResult) :=
  match invokes with
  | [] => mret results
  | (func_name, params_xml) :: rest =>
      parameters ← lift (parse_xml_parameters recursion_room params_xml);
      result ← call_with r func_name parameters;
      execute_invokes r rest (results ++ [result])
  end.

Fixpoint execute_blocks (r : UnifiedFunctionRegistry)
    (function_blocks : list str) (results : list FunctionResult)
  : Eff.M W (list FunctionResult) :=
  match function_blocks with
  | [] => mret results
  | block :: rest =>
      let invokes :=
        re.findall2 (length block)
          (u "<invoke name=" ++ quote) (quote ++ u ">") (u "</invoke>") block in
      results ← execute_invokes r invokes results;
      execute_blocks r rest results
  end.

Definition parse_and_execute (r : UnifiedFunctionRegistry) (xml_content : str)
  : Eff.M W (list FunctionResult) :=
  let function_blocks :=
    re.findall1 (length xml_content)
      (u "<function_calls>") (u "</function_calls>") xml_content in
  execute_blocks r function_blocks [].

End Registry.

Arguments UnifiedFunctionRegistry W : clear implicits.
Arguments handler W : clear implicits.

End function_registry.

(* ================================================================== *)
(** * config/settings.py                                               *)
(* ================================================================== *)

Module settings.

Definition AI_MODEL : str := Eval vm_compute in u "claude-sonnet-4-20250514".
Definition MAX_CONVERSATION_DEPTH : Z := 5.

End settings.

(* ================================================================== *)
(** * core/session_manager.py                                          *)
(* ================================================================== *)

Module session_manager.

Record Message := mkMessage { role : str; content : str; timestamp : str }.

(** The document written to a session file. *)
Record SessionData := mkSessionData {
  session_id : str;
  created_at : str;
  last_activity : str;
  messages : list Message
}.

(** One reading of the system clock, under the three renderings the
    module uses: [datetime.now().strftime("%Y-%m-%d")],
    [datetime.now().isoformat()] and [time.time()]. *)
Record instant := mkInstant { today : str; isoformat : str; time : float }.

(** A file below [logs_dir]: the date directory and the file name. *)
Definition path : Type := str * str.

Record SessionManager := mkSessionManager {
  current_session_id : option str;
  current_context : list Message;
  last_activity_time : float;
  session_timeout : Z
}.

(** What a session file holds: a document, or the beginning of the text
    of one, which [json.load] refuses, left behind by a write that
    stopped part-way. *)
Inductive Content :=
| Document (data : SessionData)
| Partial (data : SessionData).

(** Where the operating system or the codec can fail the manager. *)
Inductive failure :=
| at_mkdir (date_dir : str)
| at_open (file : path)
| at_write (file : path)
| at_encode (data : SessionData)
| at_decode (data : SessionData).

(** The manager together with what it acts on: the session files below
    [logs_dir] and the directories they are in, the directories that
    cannot be made, the files that cannot be opened and the files whose
    device does not take the whole text written to them (a full disk, an
    I/O error), the text [str(e)] of the exception raised at each
    failure, the number of clock readings made so far, and the lines
    printed. *)
Record World := mkWorld {
  self : SessionManager;
  files : gmap path Content;
  dirs : gset str;
  mkdir_denied : str -> bool;
  open_denied : path -> bool;
  dump_denied : path -> bool;
  strerror : failure -> str;
  clock_reads : nat;
  stdout : list str
}.

Abbreviation M := (Eff.M World).

Definition get_self : M SessionManager := fun w => (Return (self w), w).
Definition set_self (f : SessionManager -> SessionManager) : M unit :=
  fun w => (Return tt,
            mkWorld (f (self w)) (files w) (dirs w) (mkdir_denied w) (open_denied w)
                    (dump_denied w) (strerror w) (clock_reads w) (stdout w)).
Definition print (line : str) : M unit :=
  fun w => (Return tt,
            mkWorld (self w) (files w) (dirs w) (mkdir_denied w) (open_denied w)
                    (dump_denied w) (strerror w) (clock_reads w) (stdout w ++ [line])).

(** A directory is there when it was made or holds a file. *)
Definition has_dir (w : World) (date_dir : str) : bool :=
  bool_decide (date_dir ∈ dirs w)
  || existsb (fun f : path * Content => str_eqb f.1.1 date_dir) (map_to_list (files w)).

(** The directories made, once [date_dir] is there. *)
Definition made (date_dir : str) (w : World) : gset str :=
  if has_dir w date_dir then dirs w else {[date_dir]} ∪ dirs w.

(** [date_dir.mkdir(exist_ok=True)] *)
Definition mkdir (date_dir : str) : M unit :=
  fun w =>
    if negb (has_dir w date_dir) && mkdir_denied w date_dir
    then (Raise (OSError (strerror w (at_mkdir date_dir))), w)
    else (Return tt,
          mkWorld (self w) (files w) (made date_dir w) (mkdir_denied w) (open_denied w)
                  (dump_denied w) (strerror w) (clock_reads w) (stdout w)).

(** The file cannot be written: its directory is missing and cannot be
    made, or the file cannot be opened, or the device does not take the
    text. *)
Definition write_denied (w : World) (file : path) : bool :=
  negb (has_dir w file.1) && mkdir_denied w file.1 || open_denied w file
  || dump_denied w file.

(** Text that UTF-8 can encode holds no surrogate code point. *)
Definition encodable (text : str) : bool :=
  forallb (fun c => negb ((55296 <=? c) && (c <=? 57343))%N) text.

Definition encodable_document (data : SessionData) : bool :=
  encodable (session_id data) && encodable (created_at data)
  && encodable (last_activity data)
  && forallb (fun m => encodable (role m) && encodable (content m)
                       && encodable (timestamp m))
             (messages data).

(** [with open(file, 'w', encoding='utf-8') as f:
         json.dump(data, f, ensure_ascii=False, indent=2)]
    When [open] raises, nothing is changed.  Otherwise it has emptied the
    file, and [json.dump] writes the document piece by piece until it
    comes to a string that cannot be encoded.  When the device does not
    take the text, the [OSError] of the write, or of the flush on
    leaving the [with] block, is the exception that leaves, also when
    the encoder had stopped before. *)
Definition write_json (file : path) (data : SessionData) : M unit :=
  fun w =>
    let store content :=
      mkWorld (self w) (<[file := content]> (files w)) (dirs w) (mkdir_denied w)
              (open_denied w) (dump_denied w) (strerror w) (clock_reads w) (stdout w) in
    if negb (has_dir w file.1) || open_denied w file
    then (Raise (OSError (strerror w (at_open file))), w)
    else if dump_denied w file
    then (Raise (OSError (strerror w (at_write file))), store (Partial data))
    else if encodable_document data then (Return tt, store (Document data))
    else (Raise (UnicodeEncodeError (strerror w (at_encode data))), store (Partial data)).

Definition set_current_session_id (v : option str) (m : SessionManager) :=
  mkSessionManager v (current_context m) (last_activity_time m) (session_timeout m).
Definition set_current_context (v : list Message) (m : SessionManager) :=
  mkSessionManager (current_session_id m) v (last_activity_time m) (session_timeout m).
Definition set_last_activity_time (v : float) (m : SessionManager) :=
  mkSessionManager (current_session_id m) (current_context m) v (session_timeout m).

(** [Path.glob("session_*.json")] on a file name. *)
Definition is_session_file (name : str) : bool :=
  startswith name (u "session_") && endswith name (u ".json")
  && bool_decide (13 <= length name)%nat.

(** [f"{n:03d}"] *)
Definition format_03d (n : Z) : str :=
  let digits := str_of_int n in
  replicate (3 - length digits) 48%N ++ digits.

Section Manager.

Variable system_clock : nat -> instant.

Definition now : M instant :=
  fun w => (Return (system_clock (clock_reads w)),
            mkWorld (self w) (files w) (dirs w) (mkdir_denied w) (open_denied w)
                    (dump_denied w) (strerror w) (S (clock_reads w)) (stdout w)).

Definition _get_today_dir : M str :=
  t ← now;
  let today_dir := today t in
  mkdir today_dir;;
  mret today_dir.

Definition _generate_session_id : M str :=
  today_dir ← _get_today_dir;
  w ← get;
  let session_files :=
    List.filter (fun f : path * Content =>
                   str_eqb f.1.1 today_dir && is_session_file f.1.2)
                (map_to_list (files w)) in
  let session_count := Z.of_nat (length session_files) + 1 in
  mret (u "session_" ++ format_03d session_count).

Definition _get_session_file_path (session_id : str) : M path :=
  today_dir ← _get_today_dir;
  mret (today_dir, session_id ++ u ".json").

Definition create_new_session : M str :=
  id ← _generate_session_id;
  set_self (set_current_session_id (Some id));;
  set_self (set_current_context []);;
  t ← now;
  set_self (set_last_activity_time (time t));;
  created ← now;
  activity ← now;
  let session_data := mkSessionData id (isoformat created) (isoformat activity) [] in
  session_file ← _get_session_file_path id;
  write_json session_file session_data;;
  mret id.

Definition save_current_session : M unit :=
  me ← get_self;
  match current_session_id me with
  | None => mret tt
  | Some id =>
      if bool_decide (id = []) then mret tt
      else
        created ← now;
        activity ← now;
        let session_data :=
          mkSessionData id (isoformat created) (isoformat activity)
                        (current_context me) in
        session_file ← _get_session_file_path id;
        try_except (write_json session_file session_data)
          (fun e => print (u "⚠️  会话保存失败: " ++ str_exn e))
  end.

Definition update_activity : M unit :=
  t ← now; set_self (set_last_activity_time (time t)).

Definition check_timeout : M bool :=
  t ← now;
  me ← get_self;
  mret (PrimFloat.ltb (float_of_int (session_timeout me))
                      (time t - last_activity_time me)%float).

Definition add_message (role content : str) : M unit :=
  t ← now;
  let message := mkMessage role content (isoformat t) in
  me ← get_self;
  set_self (set_current_context (current_context me ++ [message]));;
  update_activity;;
  save_current_session.

Definition get_current_context : M (list (str * str)) :=
  me ← get_self;
  mret (map (fun msg => (role msg, content msg)) (current_context me)).

Definition clear_current_session : M unit :=
  set_self (set_current_context []);;
  me ← get_self;
  match current_session_id me with
  | Some id => if bool_decide (id = []) then mret tt else save_current_session
  | None => mret tt
  end.

(** ** Loading

    What the loading methods see of the directory tree: the session
    files in [files], which are the ones the manager wrote, and
    [iterdir w], the names in [logs_dir] in the order in which the
    operating system lists them.  A name that is not a directory holding
    the wanted file fails the [exists()] or [glob] that follows, as a
    missing one does, so that [is_dir()] needs no test of its own.
    [is_decimal] is the character class [\d] of a [str] pattern, the
    decimal digits of the Unicode database. *)
Variable iterdir : World -> list str.
Variable is_decimal : char -> bool.

(** [re.match(r'\d{4}-\d{2}-\d{2}', name)]: the pattern matches at the
    start of the name; what follows is not looked at. *)
Definition is_date_name (name : str) : bool :=
  match name with
  | y1 :: y2 :: y3 :: y4 :: h1 :: m1 :: m2 :: h2 :: d1 :: d2 :: _ =>
      is_decimal y1 && is_decimal y2 && is_decimal y3 && is_decimal y4
      && (h1 =? 45)%N && is_decimal m1 && is_decimal m2
      && (h2 =? 45)%N && is_decimal d1 && is_decimal d2
  | _ => false
  end.






(** [sorted(paths, reverse=True)] on the entries of one directory: the
    names in descending order, compared code point by code point. *)
Fixpoint str_ltb (a b : str) : bool :=
  match a, b with
  | _, [] => false
  | [], _ :: _ => true
  | x :: a', y :: b' => (x <? y)%N || ((x =? y)%N && str_ltb a' b')
  end.

Fixpoint insert_descending (name : str) (sorted : list str) : list str :=
  match sorted with
  | [] => [name]
  | first :: rest =>
      if str_ltb name first then first :: insert_descending name rest
      else name :: sorted
  end.

Definition sorted_descending (names : list str) : list str :=
  fold_right insert_descending [] names.

(** [date_dir.glob("session_*.json")]: the names of the session files of
    a date directory. *)
Definition glob_sessions (date_dir : str) (w : World) : list str :=
  map (fun f : path * Content => f.1.2)
      (List.filter (fun f : path * Content =>
                      str_eqb f.1.1 date_dir && is_session_file f.1.2)
                   (map_to_list (files w))).

(** [session_file.stem] of a name that ends in [.json] *)
Definition stem (name : str) : str := take (length name - 5) name.

Fixpoint latest_in_dirs (date_dirs : list str) (w : World) : option str :=
  match date_dirs with
  | [] => None
  | date_dir :: rest =>
      match sorted_descending (glob_sessions date_dir w) with
      | session_file :: _ => Some (stem session_file)
      | [] => latest_in_dirs rest w
      end
  end.

Definition get_latest_session_id : M (option str) :=
  w ← get;
  let date_dirs := sorted_descending (List.filter is_date_name (iterdir w)) in
  mret (latest_in_dirs date_dirs w).


End Manager.

(** [_get_session_preview]: the first message of the user, cut to 50
    characters. *)
Fixpoint _get_session_preview (messages : list Message) : str :=
  match messages with
  | [] => u "无对话内容"
  | msg :: rest =>
      if str_eqb (role msg) (u "user") then
        if (50 <? length (content msg))%nat
        then take 50 (content msg) ++ u "..."
        else content msg
      else _get_session_preview rest
  end.

(** [SessionManager()] on a given directory tree. *)
Definition init (files : gmap path Content) (dirs : gset str)
    (mkdir_denied : str -> bool) (open_denied dump_denied : path -> bool)
    (strerror : failure -> str) (t0 : float) : World :=
  mkWorld (mkSessionManager None [] t0 (30 * 60)) files dirs mkdir_denied open_denied
          dump_denied strerror 0 [].

End session_manager.

(* ================================================================== *)
(** * core/chat_handler.py                                             *)
(* ================================================================== *)

Module chat_handler.

Import function_registry.

(** ** StreamFunctionDetector *)

Record StreamFunctionDetector := mkDetector {
  buffer : str;
  in_function_block : bool;
  start_tag_found : bool;
  clean_content : str;
  function_hint_shown : bool
}.

Definition reset : StreamFunctionDetector := mkDetector [] false false [] false.

Definition OPEN_TAG : str := Eval vm_compute in u "<function_calls>".
Definition CLOSE_TAG : str := Eval vm_compute in u "</function_calls>".
Definition HINT : str := Eval vm_compute in nl ++ u "🔧 执行中...".

(** The last part of [feed_chunk], shared by the two paths that reach it:
    the search for a complete block in the buffer. *)
Definition check_end (d : StreamFunctionDetector) (clean_chunk : str)
  : (bool * option str * str) * StreamFunctionDetector :=
  if in_function_block d && contains CLOSE_TAG (buffer d) then
    match re.search1 OPEN_TAG CLOSE_TAG (buffer d) with
    | Some function_call => ((true, Some function_call, []), d)
    | None => ((false, None, clean_chunk), d)
    end
  else ((false, None, clean_chunk), d).

Definition feed_chunk (chunk : str) (d : StreamFunctionDetector)
  : (bool * option str * str) * StreamFunctionDetector :=
  let buffer := buffer d ++ chunk in
  let clean_chunk := chunk in
  if negb (start_tag_found d) then
    if contains OPEN_TAG buffer then
      let '(clean_chunk, hint_shown) :=
        match find buffer OPEN_TAG with
        | Some tag_start =>
            let clean_chunk :=
              match find chunk OPEN_TAG with
              | Some k => take k chunk
              | None => []
              end in
            if negb (function_hint_shown d)
            then (clean_chunk ++ HINT, true)
            else (clean_chunk, function_hint_shown d)
        | None => (clean_chunk, function_hint_shown d)
        end in
      check_end (mkDetector buffer true true (clean_content d) hint_shown) clean_chunk
    else
      let buffer := if (20 <? length buffer)%nat then last_n 20 buffer else buffer in
      ((false, None, clean_chunk),
       mkDetector buffer (in_function_block d) (start_tag_found d)
                  (clean_content d) (function_hint_shown d))
  else
    check_end (mkDetector buffer (in_function_block d) (start_tag_found d)
                          (clean_content d) (function_hint_shown d)) [].

(** Feeding a sequence of chunks: after each chunk, the report and the
    detector it leaves. *)
Fixpoint feed_all (chunks : list str) (d : StreamFunctionDetector)
  : list ((bool * option str * str) * StreamFunctionDetector) :=
  match chunks with
  | [] => []
  | chunk :: rest =>
      let step := feed_chunk chunk d in
      step :: feed_all rest step.2
  end.

(** A step that reports plain text and leaves at most 20 characters in
    the buffer. *)
Definition plain_step
    (step : (bool * option str * str) * StreamFunctionDetector) : Prop :=
  step.1.1.1 = false /\ step.1.1.2 = None /\ (length (buffer step.2) <= 20)%nat.

(** ** AIGirlfriendChatHandler *)

(** One call of [self.client.messages.stream] and what it yields: the
    text of the [content_block_delta] events, then possibly an exception
    raised by the client. *)
Record Request := mkRequest {
  model : str;
  system : str;
  messages : list (str * str)
}.

Record Response := mkResponse {
  chunks : list str;
  failure : option str
}.

(** Calls made to the log manager. *)
Inductive LogEvent :=
| log_api_call (model : str)
| log_assistant_message (message : str)
| log_function_detection (xml : str)
| log_function_call (name : str) (parameters : kwargs) (success : bool) (result : str).

Record AIGirlfriendChatHandler := mkHandler {
  detector : StreamFunctionDetector;
  context : list (str * str)
}.

Section Handler.

(** [E] is the state of the collaborators the handler does not look
    into: the prompt manager's cache and whatever the registered
    functions and the caller's callbacks work on. *)
Context {E : Type}.

Record World := mkWorld {
  self : AIGirlfriendChatHandler;
  sessions : session_manager.World;
  requests : list Request;
  log : list LogEvent;
  stdout : list str;
  env : E
}.

Abbreviation M := (Eff.M World).

Variable system_clock : nat -> session_manager.instant.
(** The model: the response to a request, given how many were made before. *)
Variable anthropic : nat -> Request -> Response.
Variable registry : UnifiedFunctionRegistry E.
Variable generate_xml : UnifiedFunctionRegistry E -> str.
Variable update_system_prompt : str -> E -> str * E.
Variable handle_api_error : str -> str.
(** The room the recursion limit leaves [json.loads] when the functions
    of a turn at a given depth are run. *)
Variable recursion_room : Z -> nat.

Definition max_depth : Z := settings.MAX_CONVERSATION_DEPTH.

Definition DEPTH_LIMIT_ERROR : str := Eval vm_compute in u "错误: 达到最大对话深度限制".

Definition set_detector (d : StreamFunctionDetector) : M unit :=
  fun w => (Return tt,
            mkWorld (mkHandler d (context (self w))) (sessions w) (requests w)
                    (log w) (stdout w) (env w)).
Definition set_context (c : list (str * str)) : M unit :=
  fun w => (Return tt,
            mkWorld (mkHandler (detector (self w)) c) (sessions w) (requests w)
                    (log w) (stdout w) (env w)).
Definition log_event (e : LogEvent) : M unit :=
  fun w => (Return tt,
            mkWorld (self w) (sessions w) (requests w) (log w ++ [e]) (stdout w) (env w)).
Definition print (line : str) : M unit :=
  fun w => (Return tt,
            mkWorld (self w) (sessions w) (requests w) (log w) (stdout w ++ [line]) (env w)).

(** Running a collaborator on its part of the world. *)
Definition in_sessions {A} (m : session_manager.M A) : M A :=
  fun w =>
    let '(r, s') := m (sessions w) in
    (r, mkWorld (self w) s' (requests w) (log w) (stdout w) (env w)).
Definition in_env {A} (m : Eff.M E A) : M A :=
  fun w =>
    let '(r, e') := m (env w) in
    (r, mkWorld (self w) (sessions w) (requests w) (log w) (stdout w) e').

Definition send (req : Request) : M Response :=
  fun w => (Return (anthropic (length (requests w)) req),
            mkWorld (self w) (sessions w) (requests w ++ [req]) (log w) (stdout w) (env w)).

Definition callback (f : option (str -> E -> E)) (text : str) : M unit :=
  match f with
  | Some f => in_env (fun e => (Return tt, f text e))
  | None => mret tt
  end.

(** The body of [for event in stream]: [Some full_content] when a
    complete block stopped the generation. *)
Fixpoint stream_loop (on_text_chunk : option (str -> E -> E))
    (events : list str) (full_content : str) : M (str * bool) :=
  match events with
  | [] => mret (full_content, false)
  | chunk :: rest =>
      let full_content := full_content ++ chunk in
      w ← get;
      let '((should_stop, function_call, clean_chunk), d) :=
        feed_chunk chunk (detector (self w)) in
      set_detector d;;
      if should_stop && bool_decide (is_Some function_call)
      then mret (full_content, true)
      else
        (if negb (bool_decide (clean_chunk = []))
         then callback on_text_chunk clean_chunk else mret tt);;
        stream_loop on_text_chunk rest full_content
  end.

Definition get_response_stream (system_prompt : str)
    (on_text_chunk : option (str -> E -> E)) : M (str * bool) :=
  set_detector reset;;
  w ← get;
  response ← send (mkRequest settings.AI_MODEL system_prompt (context (self w)));
  '(full_content, stopped) ← stream_loop on_text_chunk (chunks response) [];
  if stopped : bool then mret (full_content, true)
  else
    match failure response with
    | Some e => print (handle_api_error e);; mret (full_content, false)
    | None => mret (full_content, false)
    end.

Definition add_assistant_message (message : str) : M unit :=
  in_sessions (session_manager.add_message system_clock (u "assistant") message);;
  log_event (log_assistant_message message).

Fixpoint log_results (results : list FunctionResult) : M unit :=
  match results with
  | [] => mret tt
  | result :: rest =>
      log_event
        (log_function_call (function_name result)
           (default [] (parameters result)) (success result)
           (if success result then content result else error result));;
      log_results rest
  end.

Equations? process_conversation_turn (depth : Z)
    (on_text_chunk : option (str -> E -> E))
    (on_function_call : option (list FunctionResult -> E -> E))
    (w : World) : outcome str * World
    by wf (Z.to_nat (max_depth - depth)) lt :=
  process_conversation_turn depth on_text_chunk on_function_call w
    with decide (max_depth <= depth) => {
    | left _ := (Return DEPTH_LIMIT_ERROR, w);
    | right _ :=
        ((let functions_xml := generate_xml registry in
         system_prompt ← in_env (fun e => let '(p, e') := update_system_prompt functions_xml e
                                          in (Return p, e'));
         ctx ← in_sessions session_manager.get_current_context;
         set_context ctx;;
         '(response_content, has_function_calls) ←
           get_response_stream system_prompt on_text_chunk;
         log_event (log_api_call settings.AI_MODEL);;
         add_assistant_message response_content;;
         if has_function_calls : bool then
           log_event (log_function_detection response_content);;
           results ← in_env (parse_and_execute (recursion_room depth) registry
                                               response_content);
           log_results results;;
           match on_function_call with
           | Some f => in_env (fun e => (Return tt, f results e))
           | None => mret tt
           end;;
           if existsb needs_confirmation results
           then
             let function_response := format_results results in
             in_sessions (session_manager.add_message system_clock (u "assistant")
                                                      function_response);;
             mret response_content
           else
             let function_response := format_results results in
             in_sessions (session_manager.add_message system_clock (u "assistant")
                                                      function_response);;
             ((fun w' =>
                 process_conversation_turn (depth + 1) on_text_chunk
                                           on_function_call w') : M str)
         else mret response_content) : M str) w }.
Proof. unfold max_depth, settings.MAX_CONVERSATION_DEPTH in *. lia. Qed.

End Handler.

End chat_handler.

(* ================================================================== *)
(** * Concrete scenarios                                               *)
(* ================================================================== *)

Module scenarios.

Import todo_system.

(** A clock whose [n]-th reading prints as [t<n>]. *)
Definition sample_clock (n : nat) : str := u "t" ++ str_of_int (Z.of_nat n).

Definition two_todos : TodoList :=
  run sample_clock [Add (u "write") TODO_MEDIUM; Add (u "test") TODO_HIGH] init.

Definition first_started : TodoList := exec sample_clock (StartTodo 1) two_todos.

Definition add_add_delete_add : list op :=
  [Add (u "a") TODO_MEDIUM; Add (u "b") TODO_MEDIUM; Delete 1; Add (u "c") TODO_MEDIUM].

Definition batch_pending : list TodoData.t :=
  [TodoData.mk (Some (u "plan")) None None [];
   TodoData.mk (Some (u "ship")) (Some PENDING) (Some TODO_HIGH) [(u "progress", u "50")]].

Definition batch_active : list TodoData.t :=
  [TodoData.mk (Some (u "plan")) (Some IN_PROGRESS) None []].

Definition batch_two_active : list TodoData.t :=
  [TodoData.mk (Some (u "plan")) (Some IN_PROGRESS) None [];
   TodoData.mk (Some (u "ship")) (Some IN_PROGRESS) None []].

(** A task broken into [n] subtasks of which the first [k] are then
    completed, one call each. *)
Definition subtask_names (n : nat) : list str :=
  map (fun j => u "step " ++ str_of_int (Z.of_nat j)) (seq 1 n).

Definition complete_first (k : nat) : list op :=
  map (fun j => CompleteSubtask 1 (u "1-" ++ str_of_int (Z.of_nat j))) (seq 1 k).

Definition broken_down (n k : nat) : TodoList :=
  run sample_clock
      (Add (u "release") TODO_MEDIUM :: BreakDownTask 1 (subtask_names n)
         :: complete_first k)
      init.

(** The stream of the detector example, its marker split over chunks. *)
Definition three_chunks : list str :=
  [u "hello <func"; u "tion_calls><invoke";
   u " name=" ++ function_registry.quote ++ u "x" ++ function_registry.quote
     ++ u "></invoke></function_calls> world"].

Definition full_block : str :=
  u "<function_calls><invoke name=" ++ function_registry.quote ++ u "x"
    ++ function_registry.quote ++ u "></invoke></function_calls>".

Definition plain_chunks : list str :=
  [u "Good morning! "; u "I kept the list you asked for, and ";
   u "nothing else is pending."].

(** A system clock whose [n]-th reading is on one day and prints as
    [T<n>]. *)
Definition sample_instants (n : nat) : session_manager.instant :=
  session_manager.mkInstant (u "2025-08-28") (u "T" ++ str_of_int (Z.of_nat n))
                            (float_of_int (Z.of_nat n)).

(** The texts of the operating system's and the codec's exceptions. *)
Definition sample_strerror (f : session_manager.failure) : str :=
  match f with
  | session_manager.at_mkdir date_dir =>
      u "[Errno 13] Permission denied: 'logs/" ++ date_dir ++ u "'"
  | session_manager.at_open file =>
      u "[Errno 13] Permission denied: 'logs/" ++ file.1 ++ u "/" ++ file.2 ++ u "'"
  | session_manager.at_write _ => u "[Errno 28] No space left on device"
  | session_manager.at_encode _ =>
      u "'utf-8' codec can't encode character '\ud800' in position 1: surrogates not allowed"
  | session_manager.at_decode _ => u "Expecting value: line 1 column 1 (char 0)"
  end.

(** An empty [logs_dir] in which everything is permitted. *)
Definition empty_logs : session_manager.World :=
  session_manager.init ∅ ∅ (fun _ => false) (fun _ => false) (fun _ => false)
                       sample_strerror (float_of_int 0).

Definition session_file : session_manager.path :=
  (u "2025-08-28", u "session_001.json").

(** A registry with one function that greets, one that asks to be
    confirmed, one that returns a number and one that fails. *)
Definition sample_registry : function_registry.UnifiedFunctionRegistry nat :=
  function_registry.register (u "greet")
    (fun _ n => (function_registry.HReturn (function_registry.RStr (u "hello")), S n))
  (function_registry.register (u "send_message")
    (fun _ n => (function_registry.HReturn
                   (function_registry.RStr
                      (u "发送前" ++ function_registry.NEEDS_CONFIRMATION)), n))
  (function_registry.register (u "count")
    (fun _ n => (function_registry.HReturn (function_registry.RObject (u "3")), n))
  (function_registry.register (u "fail")
    (fun _ n => (function_registry.HRaise (u "boom"), n))
    (function_registry.mkRegistry ∅)))).

(** A model that answers every request with one plain sentence, and a
    handler world with an empty session and nothing sent yet. *)
Definition sample_model (n : nat) (req : chat_handler.Request)
  : chat_handler.Response :=
  chat_handler.mkResponse [u "All "; u "done."] None.

Definition sample_world : chat_handler.World (E := nat) :=
  chat_handler.mkWorld
    (chat_handler.mkHandler chat_handler.reset []) empty_logs [] [] [] 0%nat.

Definition sample_turn (depth : Z) : outcome str * chat_handler.World (E := nat) :=
  chat_handler.process_conversation_turn
    sample_instants sample_model sample_registry
    (fun _ => u "<function name=...>") (fun xml e => (u "You are helpful. " ++ xml, e))
    (fun e => u "API error: " ++ e) (fun _ => 900%nat)
    depth None None sample_world.

End scenarios.

(* ================================================================== *)
(** * Properties                                                       *)
(* ================================================================== *)

(** ** Strings *)

Section StrFacts.

Lemma startswith_app (p r : str) : startswith (p ++ r) p = true.
Proof. induction p as [|c p IH]; simpl; [reflexivity|]. rewrite N.eqb_refl. exact IH. Qed.

Lemma startswith_inv (s p : str) : startswith s p = true -> exists r, s = p ++ r.
Proof.
  revert s; induction p as [|c p IH]; intros s H.
  - exists s. reflexivity.
  - destruct s as [|d s]; simpl in H; [discriminate|].
    apply andb_true_iff in H as [Hc Hp]. apply N.eqb_eq in Hc. subst d.
    destruct (IH s Hp) as [r ->]. exists r. reflexivity.
Qed.

Lemma find_Some_inv (s sub : str) i :
  find s sub = Some i -> exists b, s = take i s ++ sub ++ b.
Proof.
  revert i; induction s as [|c s IH]; intros i H; simpl in H.
  - destruct (startswith [] sub) eqn:E; [|discriminate].
    inversion H; subst. apply startswith_inv in E as [r E]. exists r. exact E.
  - destruct (startswith (c :: s) sub) eqn:E.
    + inversion H; subst. apply startswith_inv in E as [r E]. exists r. exact E.
    + destruct (find s sub) as [j|] eqn:F; simpl in H; [|discriminate].
      inversion H; subst. destruct (IH j eq_refl) as [b Hb]. exists b.
      simpl. f_equal. exact Hb.
Qed.

Lemma find_startswith (s sub : str) : startswith s sub = true -> find s sub = Some 0%nat.
Proof. intros H. destruct s; simpl; rewrite H; reflexivity. Qed.

Lemma find_app_is_Some (a sub b : str) : is_Some (find (a ++ sub ++ b) sub).
Proof.
  induction a as [|c a IH].
  - simpl. rewrite find_startswith by apply startswith_app. eauto.
  - simpl. destruct (startswith (c :: a ++ sub ++ b) sub); [eauto|].
    destruct IH as [j ->]. simpl. eauto.
Qed.

Lemma contains_true (sub s : str) :
  contains sub s = true <-> exists a b, s = a ++ sub ++ b.
Proof.
  unfold contains. rewrite bool_decide_eq_true. split.
  - intros [i H]. apply find_Some_inv in H as [b Hb]. eauto.
  - intros (a & b & ->). apply find_app_is_Some.
Qed.

Lemma contains_app (sub a s b : str) :
  contains sub s = true -> contains sub (a ++ s ++ b) = true.
Proof.
  rewrite !contains_true. intros (x & y & ->). exists (a ++ x), (y ++ b).
  rewrite <- !app_assoc. reflexivity.
Qed.

Lemma contains_false_inner (sub a s b : str) :
  contains sub (a ++ s ++ b) = false -> contains sub s = false.
Proof.
  intros H. destruct (contains sub s) eqn:E; [|reflexivity].
  rewrite (contains_app _ _ _ _ E) in H. discriminate.
Qed.

Lemma last_n_length n (s : str) : (length (last_n n s) <= n)%nat.
Proof. unfold last_n. rewrite length_drop. lia. Qed.

Lemma last_n_suffix n (s : str) : exists p, s = p ++ last_n n s.
Proof. exists (take (length s - n) s). unfold last_n. rewrite take_drop. reflexivity. Qed.

End StrFacts.

(** ** The stream detector *)

Section DetectorFacts.
Import chat_handler.

(** While the opening marker has not been seen, a chunk that does not
    complete it is reported as plain text and the buffer is cut. *)
Lemma feed_chunk_seeking chunk d :
  start_tag_found d = false ->
  contains OPEN_TAG (buffer d ++ chunk) = false ->
  exists buf,
    feed_chunk chunk d
    = ((false, None, chunk),
       mkDetector buf (in_function_block d) false (clean_content d)
                  (function_hint_shown d))
    /\ (length buf <= 20)%nat
    /\ exists p, buffer d ++ chunk = p ++ buf.
Proof.
  intros Hs Hc. unfold feed_chunk. rewrite Hs, Hc. simpl.
  destruct (20 <? length (buffer d ++ chunk))%nat eqn:E.
  - eexists; split; [reflexivity|]. split; [apply last_n_length | apply last_n_suffix].
  - eexists; split; [reflexivity|]. apply Nat.ltb_ge in E. split; [exact E|].
    exists []. reflexivity.
Qed.

Lemma feed_all_seeking chunks : forall d pre,
  start_tag_found d = false ->
  contains OPEN_TAG (pre ++ buffer d ++ concat chunks) = false ->
  Forall plain_step (feed_all chunks d).
Proof.
  induction chunks as [|chunk rest IH]; intros d pre Hs Hc; simpl; [constructor|].
  assert (Hb : contains OPEN_TAG (buffer d ++ chunk) = false).
  { apply (contains_false_inner _ pre _ (concat rest)).
    rewrite <- Hc. simpl. rewrite <- !app_assoc. reflexivity. }
  destruct (feed_chunk_seeking chunk d Hs Hb) as (buf & -> & Hlen & p & Hp).
  constructor.
  - unfold plain_step. simpl. auto.
  - simpl. apply (IH _ (pre ++ p)); [reflexivity|]. simpl.
    rewrite <- Hc. simpl. rewrite <- !app_assoc. f_equal.
    rewrite !app_assoc. f_equal. rewrite <- app_assoc. symmetry. rewrite <- Hp.
    rewrite app_assoc. reflexivity.
Qed.

End DetectorFacts.

(** ** The task list engine *)

Section TodoFacts.
Import todo_system.

Lemma find_todo_Some id l i d :
  find_todo id l = Some (i, d) -> l !! i = Some d /\ Todo.id d = id.
Proof.
  revert i; induction l as [|x l IH]; intros i H; simpl in H; [discriminate|].
  destruct (Todo.id x =? id) eqn:E.
  - inversion H; subst. split; [reflexivity | lia].
  - destruct (find_todo id l) as [[j d']|]; simpl in H; [|discriminate].
    inversion H; subst. simpl. apply IH. reflexivity.
Qed.

Lemma find_todo_alter id l i d (f : Todo.t -> Todo.t) :
  (forall x, Todo.id (f x) = Todo.id x) ->
  find_todo id l = Some (i, d) ->
  find_todo id (alter f i l) = Some (i, f d).
Proof.
  intros Hf. revert i; induction l as [|x l IH]; intros i H; simpl in H; [discriminate|].
  destruct (Todo.id x =? id) eqn:E.
  - inversion H; subst. simpl. rewrite Hf, E. reflexivity.
  - destruct (find_todo id l) as [[j d']|] eqn:F; simpl in H; [|discriminate].
    inversion H; subst. simpl. rewrite E.
    change (list_alter f j l) with (alter f j l).
    rewrite (IH j eq_refl). reflexivity.
Qed.

Lemma find_todo_alter_None id l i (f : Todo.t -> Todo.t) :
  (forall x, Todo.id (f x) = Todo.id x) ->
  find_todo id l = None -> find_todo id (alter f i l) = None.
Proof.
  intros Hf. revert i; induction l as [|x l IH]; intros i H; [destruct i; reflexivity|].
  simpl in H. destruct (Todo.id x =? id) eqn:E; [discriminate|].
  destruct (find_todo id l) as [[j d']|] eqn:F; simpl in H; [discriminate|].
  destruct i; simpl; rewrite ?Hf, E.
  - rewrite F. reflexivity.
  - change (list_alter f i l) with (alter f i l).
    rewrite (IH i eq_refl). reflexivity.
Qed.

Lemma alter_insert_at (l : list Todo.t) i d f :
  l !! i = Some d -> alter f i l = <[i := f d]> l.
Proof.
  revert i; induction l as [|x l IH]; intros [|i] H; simpl in *; try discriminate.
  - inversion H; reflexivity.
  - f_equal. apply IH, H.
Qed.

Lemma active_count_cons x l :
  active_count (x :: l) =
  ((if has_status IN_PROGRESS x then 1 else 0) + active_count l)%nat.
Proof. unfold active_count. simpl. destruct (has_status IN_PROGRESS x); reflexivity. Qed.

Lemma active_count_app l1 l2 :
  active_count (l1 ++ l2) = (active_count l1 + active_count l2)%nat.
Proof. unfold active_count. rewrite List.filter_app, length_app. reflexivity. Qed.

Lemma active_count_alter_le (f : Todo.t -> Todo.t) i l :
  (forall d, has_status IN_PROGRESS (f d) = true -> has_status IN_PROGRESS d = true) ->
  (active_count (alter f i l) <= active_count l)%nat.
Proof.
  intros Hf. revert i; induction l as [|x l IH]; intros [|i]; simpl; try lia.
  - rewrite !active_count_cons. specialize (Hf x).
    destruct (has_status IN_PROGRESS (f x)) eqn:E1.
    + rewrite (Hf eq_refl). lia.
    + destruct (has_status IN_PROGRESS x); lia.
  - rewrite !active_count_cons. specialize (IH i).
    change (list_alter f i l) with (alter f i l). lia.
Qed.

Lemma active_count_alter_bump (f : Todo.t -> Todo.t) i l :
  (active_count (alter f i l) <= S (active_count l))%nat.
Proof.
  revert i; induction l as [|x l IH]; intros [|i]; simpl; try lia.
  - rewrite !active_count_cons.
    destruct (has_status IN_PROGRESS (f x)), (has_status IN_PROGRESS x); lia.
  - rewrite !active_count_cons. specialize (IH i).
    change (list_alter f i l) with (alter f i l). lia.
Qed.

Lemma active_count_take_drop i l :
  (active_count (take i l ++ drop (S i) l) <= active_count l)%nat.
Proof.
  revert i; induction l as [|x l IH]; intros [|i]; simpl; try lia.
  - rewrite drop_0, active_count_cons. lia.
  - rewrite !active_count_cons. specialize (IH i). lia.
Qed.

(** A computation is quiet when it never adds an active task. *)
Definition quiet {A} (m : M A) : Prop :=
  forall s, (active_count (todos (m s).2) <= active_count (todos s))%nat.

Lemma quiet_bind {A B} (m : M A) (f : A -> M B) :
  quiet m -> (forall a, quiet (f a)) -> quiet (m ≫= f).
Proof.
  intros Hm Hf s. unfold mbind, M_bind. specialize (Hm s).
  destruct (m s) as [[a|e] s'] eqn:E; simpl in *; [|exact Hm].
  specialize (Hf a s'). lia.
Qed.

Lemma quiet_ret {A} (a : A) : quiet (mret a).
Proof. intros s. simpl. lia. Qed.

Lemma quiet_raise {A} e : quiet (raise e : M A).
Proof. intros s. simpl. lia. Qed.

Lemma quiet_lift {A} (r : outcome A) : quiet (lift r).
Proof. intros s. simpl. lia. Qed.

Lemma quiet_get_todos : quiet get_todos.
Proof. intros s. simpl. lia. Qed.

Lemma quiet_todo_at i : quiet (todo_at i).
Proof. intros s. simpl. lia. Qed.

Lemma quiet_mutate i f :
  (forall d, has_status IN_PROGRESS (f d) = true -> has_status IN_PROGRESS d = true) ->
  quiet (mutate i f).
Proof. intros Hf s. simpl. apply active_count_alter_le, Hf. Qed.

Variable clk : nat -> str.

Lemma quiet_datetime_now : quiet (datetime_now clk).
Proof. intros s. simpl. lia. Qed.

Lemma quiet_if {A} (b : bool) (m1 m2 : M A) : quiet m1 -> quiet m2 -> quiet (if b then m1 else m2).
Proof. destruct b; auto. Qed.

Create HintDb quiet.
#[local] Hint Resolve quiet_ret quiet_raise quiet_lift quiet_get_todos quiet_todo_at
     quiet_datetime_now : quiet.

Ltac quiet_step :=
  match goal with
  | |- quiet (_ ≫= _) => apply quiet_bind; [|intros]
  | |- quiet (if _ then _ else _) => apply quiet_if
  | |- quiet (match ?x with _ => _ end) => destruct x
  | |- quiet (mutate _ _) => apply quiet_mutate; intros ? Hq; exact Hq
  | |- _ => solve [auto with quiet]
  end.

Lemma quiet_log_execution id a de : quiet (log_execution clk id a de).
Proof.
  unfold log_execution. repeat quiet_step.
  apply quiet_mutate. intros d0. unfold append_log.
  destruct (Todo.execution_log d0); auto.
Qed.
#[local] Hint Resolve quiet_log_execution : quiet.

Lemma quiet_complete_todo id : quiet (complete_todo clk id).
Proof.
  unfold complete_todo. repeat quiet_step.
  apply quiet_mutate. intros d0. unfold has_status. simpl. intros H; vm_compute in H. discriminate.
Qed.
#[local] Hint Resolve quiet_complete_todo : quiet.

Lemma quiet_modify id c p : quiet (modify id c p).
Proof. unfold modify. repeat quiet_step. Qed.

Lemma quiet_break_down_task id l : quiet (break_down_task clk id l).
Proof. unfold break_down_task. repeat quiet_step. Qed.

Lemma quiet_update_progress id p : quiet (update_progress clk id p).
Proof. unfold update_progress. repeat quiet_step. Qed.

Lemma quiet_complete_subtask id sid : quiet (complete_subtask clk id sid).
Proof.
  unfold complete_subtask. repeat quiet_step.
  apply quiet_mutate. intros d0. unfold set_completed. destruct (Todo.subtasks d0); auto.
Qed.


Lemma quiet_add c p : quiet (add clk c p).
Proof.
  intros s. unfold add. simpl. rewrite active_count_app.
  unfold active_count at 2. simpl. unfold has_status. simpl.
  change (str_eqb PENDING IN_PROGRESS) with false. simpl. lia.
Qed.

Lemma quiet_delete id : quiet (delete id).
Proof.
  intros s. unfold delete, mbind, M_bind. simpl.
  destruct (find_todo id (todos s)) as [[i d]|]; simpl.
  - apply active_count_take_drop.
  - lia.
Qed.

Lemma quiet_update_status id status :
  status <> IN_PROGRESS -> quiet (update_status id status).
Proof.
  intros Hs. unfold update_status. repeat quiet_step.
  apply quiet_mutate. intros d0. unfold has_status, str_eqb. simpl.
  intros H. apply bool_decide_eq_true in H. contradiction.
Qed.

Lemma batch_active_count_cons d data :
  batch_active_count (d :: data) =
  ((if str_eqb (default PENDING (TodoData.status d)) IN_PROGRESS then 1 else 0)
   + batch_active_count data)%nat.
Proof.
  unfold batch_active_count. simpl.
  destruct (str_eqb (default PENDING (TodoData.status d)) IN_PROGRESS); reflexivity.
Qed.

Lemma update_all_loop_count data : forall i s,
  (active_count (todos (update_all_loop i data s).2)
   <= active_count (todos s) + batch_active_count data)%nat.
Proof.
  induction data as [|d data IH]; intros i s; simpl update_all_loop.
  - simpl. lia.
  - rewrite batch_active_count_cons.
    destruct (TodoData.content d) as [c|]; [|simpl; lia].
    unfold mbind, M_bind, get_todos, put_todos. simpl.
    etransitivity; [apply IH|]. simpl. rewrite active_count_app.
    rewrite (active_count_cons _ []). unfold has_status. simpl.
    change (active_count []) with 0%nat. lia.
Qed.

Lemma update_all_count data s :
  (active_count (todos (update_all data s).2) <= batch_active_count data)%nat.
Proof.
  unfold update_all, mbind, M_bind, put_todos, get_todos. simpl.
  pose proof (update_all_loop_count data 1 (mkTodoList [] (clock s))) as H.
  simpl in H.
  destruct (update_all_loop 1 data (mkTodoList [] (clock s))) as [[[]|e] s'] eqn:E;
    simpl in *; exact H.
Qed.

Lemma active_count_0 l : active_count l = 0%nat -> List.filter (has_status IN_PROGRESS) l = [].
Proof. unfold active_count. destruct (List.filter _ l); simpl; [reflexivity | discriminate]. Qed.

Lemma start_todo_rejected id s :
  active_count (todos s) <> 0%nat -> start_todo clk id s = (Return None, s).
Proof.
  intros H. unfold start_todo, mbind, M_bind, get_todos. simpl.
  destruct (List.filter (has_status IN_PROGRESS) (todos s)) eqn:E.
  - exfalso. apply H. unfold active_count. rewrite E. reflexivity.
  - reflexivity.
Qed.

Lemma start_todo_single id s :
  single_active (todos s) -> single_active (todos (start_todo clk id s).2).
Proof.
  intros Hs. destruct (Nat.eq_dec (active_count (todos s)) 0%nat) as [H0|H0].
  - unfold start_todo. unfold mbind at 1. unfold M_bind at 1. unfold get_todos at 1.
    cbv iota beta.
    rewrite (active_count_0 _ H0), bool_decide_eq_true_2 by reflexivity.
    cbv [negb]. cbv iota.
    destruct (find_todo id (todos s)) as [[i d]|]; [|simpl; exact Hs].
    unfold single_active.
    assert (Hq : quiet (now ← datetime_now clk;
                        mutate i (Todo.set_started_at now);;
                        log_execution clk id (u "started")
                          (u "开始执行任务: " ++ Todo.content d);;
                        todo_at i)) by (repeat quiet_step).
    unfold mbind at 1. unfold M_bind at 1.
    change (mutate i (Todo.set_status IN_PROGRESS) s)
      with (Return tt, mkTodoList (alter (Todo.set_status IN_PROGRESS) i (todos s)) (clock s)).
    cbv iota beta.
    etransitivity; [apply Hq|]. simpl.
    etransitivity; [apply active_count_alter_bump|]. lia.
  - rewrite start_todo_rejected by exact H0. exact Hs.
Qed.

(** Every operation that does not store a caller-chosen [in_progress]. *)
Lemma exec_single_active o s :
  ~ stores_unchecked_status o ->
  single_active (todos s) -> single_active (todos (exec clk o s)).
Proof.
  intros Ho Hs. unfold single_active in *.
  destruct o; simpl exec; try exact Hs.
  - etransitivity; [apply quiet_add|exact Hs].
  - etransitivity; [apply quiet_modify|exact Hs].
  - etransitivity; [apply quiet_delete|exact Hs].
  - etransitivity; [apply update_all_count|]. simpl in Ho. lia.
  - etransitivity; [apply quiet_update_status|exact Hs]. exact Ho.
  - apply start_todo_single, Hs.
  - etransitivity; [apply quiet_break_down_task|exact Hs].
  - etransitivity; [apply quiet_update_progress|exact Hs].
  - etransitivity; [apply quiet_complete_subtask|exact Hs].
  - etransitivity; [apply quiet_complete_todo|exact Hs].
  - etransitivity; [apply quiet_log_execution|exact Hs].
  - unfold get_todo_progress_summary, get_active_todos, mbind, M_bind, get_todos.
    simpl.
    destruct (bool_decide _); simpl; [exact Hs|].
    destruct (summary_loop _ _); simpl; exact Hs.
Qed.


(** *** Step-by-step evaluation on the todo found by the search *)

Lemma find_todo_lt id l i d : find_todo id l = Some (i, d) -> (i < length l)%nat.
Proof. intros H. apply find_todo_Some in H as [H _]. eapply lookup_lt_Some, H. Qed.

Lemma find_todo_insert id l i d d' :
  find_todo id l = Some (i, d) -> Todo.id d' = id ->
  find_todo id (<[i := d']> l) = Some (i, d').
Proof.
  intros H Hid. revert i H; induction l as [|x l IH]; intros i H; simpl in H;
    [discriminate|].
  destruct (Todo.id x =? id) eqn:E.
  - inversion H; subst i d. simpl. rewrite Hid, Z.eqb_refl. reflexivity.
  - destruct (find_todo id l) as [[j d0]|] eqn:F; simpl in H; [|discriminate].
    inversion H; subst i d0. simpl. rewrite E.
    change (list_insert j d' l) with (<[j := d']> l).
    rewrite (IH j eq_refl). reflexivity.
Qed.

Section Found.

Context (id : Z) (l0 : list Todo.t) (i : nat) (d0 : Todo.t).
Hypothesis Hfind : find_todo id l0 = Some (i, d0).

Lemma run_find {B} (x : Todo.t) (k : option (nat * Todo.t) -> B) :
  Todo.id x = id ->
  k (find_todo id (<[i := x]> l0)) = k (Some (i, x)).
Proof. intros Hx. rewrite (find_todo_insert _ _ _ _ _ Hfind Hx). reflexivity. Qed.

Lemma run_mutate {B} (g : Todo.t -> Todo.t) (f : unit -> M B) x c :
  (mutate i g ≫= f) (mkTodoList (<[i := x]> l0) c)
  = f tt (mkTodoList (<[i := g x]> l0) c).
Proof.
  unfold mutate, mbind, M_bind, get_todos, put_todos. simpl.
  rewrite (alter_insert_at _ i x).
  - rewrite list_insert_insert_eq. reflexivity.
  - apply list_lookup_insert_eq, (find_todo_lt _ _ _ _ Hfind).
Qed.

Lemma run_mutate0 {B} (g : Todo.t -> Todo.t) (f : unit -> M B) c :
  (mutate i g ≫= f) (mkTodoList l0 c) = f tt (mkTodoList (<[i := g d0]> l0) c).
Proof.
  unfold mutate, mbind, M_bind, get_todos, put_todos. simpl.
  rewrite (alter_insert_at _ i d0); [reflexivity|].
  apply (find_todo_Some _ _ _ _ Hfind).
Qed.

Lemma run_todo_at x c :
  todo_at i (mkTodoList (<[i := x]> l0) c)
  = (Return (Some x), mkTodoList (<[i := x]> l0) c).
Proof.
  unfold todo_at, mbind, M_bind, get_todos. simpl.
  rewrite list_lookup_insert_eq by apply (find_todo_lt _ _ _ _ Hfind). reflexivity.
Qed.

Lemma run_now {B} (f : str -> M B) l c :
  (datetime_now clk ≫= f) (mkTodoList l c) = f (clk c) (mkTodoList l (S c)).
Proof. reflexivity. Qed.

Lemma run_log_execution {B} (f : bool -> M B) a de x log c :
  Todo.id x = id -> Todo.execution_log x = Some log ->
  (log_execution clk id a de ≫= f) (mkTodoList (<[i := x]> l0) c)
  = f true (mkTodoList
              (<[i := Todo.set_execution_log (log ++ [LogEntry.mk (clk c) a de]) x]> l0)
              (S c)).
Proof.
  intros Hx Hlog. unfold log_execution.
  unfold mbind at 1. unfold M_bind at 1. unfold mbind at 1. unfold M_bind at 1.
  unfold get_todos at 1. cbv iota beta. cbn [todos].
  rewrite (find_todo_insert _ _ _ _ _ Hfind Hx).
  rewrite run_now, Hlog. rewrite run_mutate.
  unfold append_log. rewrite Hlog. reflexivity.
Qed.

Lemma run_log_execution_raise {B} (f : bool -> M B) a de x c :
  Todo.id x = id -> Todo.execution_log x = None ->
  (log_execution clk id a de ≫= f) (mkTodoList (<[i := x]> l0) c)
  = (Raise (KeyError (u "execution_log")), mkTodoList (<[i := x]> l0) (S c)).
Proof.
  intros Hx Hlog. unfold log_execution.
  unfold mbind at 1. unfold M_bind at 1. unfold mbind at 1. unfold M_bind at 1.
  unfold get_todos at 1. cbv iota beta. cbn [todos].
  rewrite (find_todo_insert _ _ _ _ _ Hfind Hx).
  rewrite run_now, Hlog. reflexivity.
Qed.

Lemma insert_found : <[i := d0]> l0 = l0.
Proof. apply list_insert_id. apply (find_todo_Some _ _ _ _ Hfind). Qed.

Lemma id_found : Todo.id d0 = id.
Proof. apply (find_todo_Some _ _ _ _ Hfind). Qed.

End Found.

Lemma complete_todo_found id l0 i d0 x log c :
  find_todo id l0 = Some (i, d0) ->
  Todo.id x = id -> Todo.execution_log x = Some log ->
  let x' :=
    Todo.set_execution_log
      (log ++ [LogEntry.mk (clk (S c)) (u "completed") (u "任务完成: " ++ Todo.content x)])
      (Todo.set_completed_at (clk c)
         (Todo.set_progress 100 (Todo.set_status COMPLETED x))) in
  complete_todo clk id (mkTodoList (<[i := x]> l0) c)
  = (Return (Some x'), mkTodoList (<[i := x']> l0) (S (S c))).
Proof.
  intros Hfind Hx Hlog x'. unfold complete_todo.
  unfold mbind at 1. unfold M_bind at 1. unfold get_todos at 1. cbv iota beta. cbn [todos].
  rewrite (find_todo_insert _ _ _ _ _ Hfind Hx). cbv iota beta.
  rewrite !(run_mutate _ _ _ _ Hfind), run_now, (run_mutate _ _ _ _ Hfind).
  rewrite (run_log_execution _ _ _ _ Hfind) with (log := log); [|exact Hx|exact Hlog].
  rewrite (run_todo_at _ _ _ _ Hfind). reflexivity.
Qed.

Lemma start_todo_found id s i d log :
  active_count (todos s) = 0%nat ->
  find_todo id (todos s) = Some (i, d) ->
  Todo.execution_log d = Some log ->
  let d' :=
    Todo.set_execution_log
      (log ++ [LogEntry.mk (clk (S (clock s))) (u "started")
                           (u "开始执行任务: " ++ Todo.content d)])
      (Todo.set_started_at (clk (clock s)) (Todo.set_status IN_PROGRESS d)) in
  start_todo clk id s
  = (Return (Some d'), mkTodoList (<[i := d']> (todos s)) (S (S (clock s)))).
Proof.
  intros H0 Hfind Hlog d'. destruct s as [l0 c]. simpl in *.
  unfold start_todo.
  unfold mbind at 1. unfold M_bind at 1. unfold get_todos at 1. cbv iota beta. cbn [todos].
  rewrite (active_count_0 _ H0), bool_decide_eq_true_2 by reflexivity.
  cbv [negb]. cbv iota. rewrite Hfind. cbv iota beta.
  rewrite (run_mutate0 _ _ _ _ Hfind), run_now, (run_mutate _ _ _ _ Hfind).
  rewrite (run_log_execution _ _ _ _ Hfind) with (log := log);
    [|apply (id_found _ _ _ _ Hfind)|exact Hlog].
  rewrite (run_todo_at _ _ _ _ Hfind). reflexivity.
Qed.

Lemma update_progress_found id s i d old log value :
  find_todo id (todos s) = Some (i, d) ->
  Todo.progress d = Some old ->
  Todo.execution_log d = Some log ->
  let entry :=
    LogEntry.mk (clk (clock s)) (u "progress")
      (u "进度更新: " ++ str_of_int old ++ u "% -> " ++ str_of_int value ++ u "%") in
  let d1 :=
    Todo.set_execution_log (log ++ [entry])
      (Todo.set_progress (Z.max 0 (Z.min 100 value)) d) in
  let d2 :=
    Todo.set_execution_log
      (log ++ [entry;
               LogEntry.mk (clk (S (S (clock s)))) (u "completed")
                           (u "任务完成: " ++ Todo.content d)])
      (Todo.set_completed_at (clk (S (clock s)))
         (Todo.set_progress 100 (Todo.set_status COMPLETED d))) in
  update_progress clk id value s
  = if 100 <=? value
    then (Return (Some d2), mkTodoList (<[i := d2]> (todos s)) (S (S (S (clock s)))))
    else (Return (Some d1), mkTodoList (<[i := d1]> (todos s)) (S (clock s))).
Proof.
  intros Hfind Hold Hlog entry d1 d2. destruct s as [l0 c]. simpl in *.
  pose proof (id_found _ _ _ _ Hfind) as Hid.
  unfold update_progress.
  unfold mbind at 1. unfold M_bind at 1. unfold get_todos at 1. cbv iota beta. cbn [todos].
  rewrite Hfind, Hold. cbv iota beta.
  rewrite (run_mutate0 _ _ _ _ Hfind).
  rewrite (run_log_execution _ _ _ _ Hfind) with (log := log); [|exact Hid|exact Hlog].
  destruct (100 <=? value).
  - unfold mbind at 1. unfold M_bind at 1. unfold mbind at 1. unfold M_bind at 1.
    rewrite (complete_todo_found _ _ _ _ _ (log ++ [entry]) _ Hfind); [|exact Hid|reflexivity].
    cbv iota beta. unfold mret at 1, M_ret at 1. cbv iota beta.
    rewrite (run_todo_at _ _ _ _ Hfind).
    unfold d2. simpl. rewrite <- app_assoc. reflexivity.
  - unfold mbind at 1. unfold M_bind at 1. unfold mret at 1, M_ret at 1. cbv iota beta.
    rewrite (run_todo_at _ _ _ _ Hfind). reflexivity.
Qed.

(** *** Records made by [update_all] *)

Lemma update_all_loop_ok data : forall i s,
  Forall (fun d => is_Some (TodoData.content d)) data ->
  update_all_loop i data s
  = (Return tt, mkTodoList (todos s ++ batch_list i data) (clock s)).
Proof.
  induction data as [|d data IH]; intros i s Hall; simpl.
  - rewrite app_nil_r. destruct s; reflexivity.
  - inversion Hall as [|? ? [c Hc] Hrest]; subst. rewrite Hc.
    unfold mbind, M_bind, get_todos, put_todos. simpl.
    rewrite IH by exact Hrest. simpl. rewrite <- app_assoc. reflexivity.
Qed.

Lemma update_all_ok data s :
  Forall (fun d => is_Some (TodoData.content d)) data ->
  update_all data s
  = (Return (batch_list 1 data), mkTodoList (batch_list 1 data) (clock s)).
Proof.
  intros Hall. unfold update_all, mbind, M_bind, put_todos, get_todos. simpl.
  rewrite update_all_loop_ok by exact Hall. reflexivity.
Qed.

Lemma batch_list_is_basic data : forall i, Forall is_basic (batch_list i data).
Proof.
  induction data as [|d data IH]; intros i; simpl; constructor; [|apply IH].
  unfold is_basic. simpl. repeat split.
Qed.

Lemma find_todo_batch_list data : forall i id,
  i <= id < i + Z.of_nat (length data) ->
  exists k d, find_todo id (batch_list i data) = Some (k, d) /\ is_basic d.
Proof.
  induction data as [|x data IH]; intros i id Hid; simpl in *; [lia|].
  destruct (i =? id) eqn:E.
  - do 2 eexists. split; [reflexivity|]. unfold is_basic. simpl. repeat split.
  - destruct (IH (i + 1) id) as (k & d & Hk & Hd); [lia|].
    rewrite Hk. simpl. eauto.
Qed.

Lemma update_progress_no_key id value s i d :
  find_todo id (todos s) = Some (i, d) -> Todo.progress d = None ->
  update_progress clk id value s = (Raise (KeyError (u "progress")), s).
Proof.
  intros Hfind Hp. unfold update_progress, mbind, M_bind, get_todos. simpl.
  rewrite Hfind, Hp. reflexivity.
Qed.

Lemma start_todo_no_log id s i d :
  active_count (todos s) = 0%nat ->
  find_todo id (todos s) = Some (i, d) -> Todo.execution_log d = None ->
  start_todo clk id s
  = (Raise (KeyError (u "execution_log")),
     mkTodoList
       (<[i := Todo.set_started_at (clk (clock s)) (Todo.set_status IN_PROGRESS d)]>
          (todos s))
       (S (S (clock s)))).
Proof.
  intros H0 Hfind Hlog. destruct s as [l0 c]. simpl in *.
  unfold start_todo.
  unfold mbind at 1. unfold M_bind at 1. unfold get_todos at 1. cbv iota beta. cbn [todos].
  rewrite (active_count_0 _ H0), bool_decide_eq_true_2 by reflexivity.
  cbv [negb]. cbv iota. rewrite Hfind. cbv iota beta.
  rewrite (run_mutate0 _ _ _ _ Hfind), run_now, (run_mutate _ _ _ _ Hfind).
  rewrite (run_log_execution_raise _ _ _ _ Hfind);
    [reflexivity | apply (id_found _ _ _ _ Hfind) | exact Hlog].
Qed.

End TodoFacts.

(** ** Claims about the task list engine *)

Section TodoClaims.
Import todo_system scenarios.

(** Claim C1, as the code has it.  At most one task is [in_progress]: this
    holds of the empty list and is kept by every method call except the
    two that store a status chosen by the caller without looking at the
    other tasks, [update_status(id, "in_progress")] and [update_all] with
    two or more [in_progress] records; hence it holds after any sequence
    of the other calls.  [start_todo(id)] returns [None] and changes
    nothing, not even the clock, whenever some task is [in_progress],
    whichever id is asked for; otherwise, when a task with the id exists
    and carries an execution log, it sets the status to [in_progress],
    stamps [started_at] and appends a log entry tagged [started]. *)
Theorem C1_single_active_task (strftime_now : nat -> str) :
  single_active (todos init)
  /\ (forall o s,
        ~ stores_unchecked_status o ->
        single_active (todos s) -> single_active (todos (exec strftime_now o s)))
  /\ (forall ops,
        Forall (fun o => ~ stores_unchecked_status o) ops ->
        single_active (todos (run strftime_now ops init)))
  /\ (forall s todo_id,
        active_count (todos s) <> 0%nat ->
        start_todo strftime_now todo_id s = (Return None, s))
  /\ (forall s todo_id i d log,
        active_count (todos s) = 0%nat ->
        find_todo todo_id (todos s) = Some (i, d) ->
        Todo.execution_log d = Some log ->
        let d' :=
          Todo.set_execution_log
            (log ++ [LogEntry.mk (strftime_now (S (clock s))) (u "started")
                                 (u "开始执行任务: " ++ Todo.content d)])
            (Todo.set_started_at (strftime_now (clock s))
               (Todo.set_status IN_PROGRESS d)) in
        start_todo strftime_now todo_id s
        = (Return (Some d'), mkTodoList (<[i := d']> (todos s)) (S (S (clock s))))).
Proof.
  split; [unfold single_active; vm_compute; lia|].
  split; [intros o s; apply exec_single_active|].
  split.
  - intros ops. unfold run.
    assert (G : forall s, single_active (todos s) ->
                Forall (fun o => ~ stores_unchecked_status o) ops ->
                single_active (todos (fold_left (fun s o => exec strftime_now o s) ops s))).
    { induction ops as [|o ops IH]; intros s Hs Hall; simpl; [exact Hs|].
      inversion Hall; subst. apply IH; [|assumption].
      apply exec_single_active; assumption. }
    intros Hall. apply G; [|exact Hall]. unfold single_active; vm_compute; lia.
  - split; [intros s id; apply start_todo_rejected|].
    intros s id i d log. apply start_todo_found.
Qed.

Lemma C1_witness :
  active_count (todos two_todos) = 0%nat
  /\ active_count (todos first_started) = 1%nat
  /\ start_todo sample_clock 2 first_started = (Return None, first_started)
  /\ single_active (todos (exec sample_clock (UpdateProgress 1 40) first_started)).
Proof.
  destruct (C1_single_active_task sample_clock) as (_ & Hexec & _ & Hrej & _).
  split; [reflexivity|]. split; [reflexivity|]. split.
  - apply Hrej. vm_compute. discriminate.
  - apply Hexec; [intros []|]. vm_compute. lia.
Defined.

(** Claim C1 as stated fails: with the first task active, a direct
    [update_status] makes the second active too, and [update_all] stores
    two active records as given. *)
Lemma C1_counterexample :
  single_active (todos first_started)
  /\ ~ single_active (todos (exec sample_clock (UpdateStatus 2 IN_PROGRESS) first_started))
  /\ single_active (todos init)
  /\ ~ single_active (todos (exec sample_clock (UpdateAll batch_two_active) init)).
Proof.
  unfold single_active.
  split; [vm_compute; lia|]. split; [vm_compute; lia|].
  split; [vm_compute; lia|]. vm_compute; lia.
Qed.

(** Claim C2 fails on the code: [add] numbers a task with the current
    length plus one, so after [add; add; delete(1)] the next [add] gives
    the new task the id 2 of the task that is still in the list. *)
Theorem C2_id_reused_after_delete :
  let s := run sample_clock add_add_delete_add init in
  map Todo.id (todos s) = [2; 2]
  /\ map Todo.content (todos s) = [u "b"; u "c"]
  /\ ~ NoDup (map Todo.id (todos s)).
Proof.
  split; [reflexivity|]. split; [reflexivity|].
  intros H. vm_compute in H. inversion H as [|x l Hin Hnd]; subst.
  apply Hin. left.
Qed.

(** Claim C3, as the code has it.  On a task that carries the [progress]
    and [execution_log] keys, as every task made by [add] does,
    [update_progress(id, value)] stores [max(0, min(100, value))], which
    lies in [0, 100], and appends a log entry tagged [progress] whose text
    shows the old stored progress and the requested value.  When the
    stored value is 100 it goes on to complete the task: status
    [completed], progress 100, [completed_at] stamped and a [completed]
    log entry.  When it is below 100 nothing else changes. *)
Theorem C3_update_progress_clamps (strftime_now : nat -> str)
    (s : TodoList) (todo_id value : Z) (i : nat) (d : Todo.t) (old : Z)
    (log : list LogEntry.t) :
  find_todo todo_id (todos s) = Some (i, d) ->
  Todo.progress d = Some old ->
  Todo.execution_log d = Some log ->
  let stored := Z.max 0 (Z.min 100 value) in
  let entry :=
    LogEntry.mk (strftime_now (clock s)) (u "progress")
      (u "进度更新: " ++ str_of_int old ++ u "% -> " ++ str_of_int value ++ u "%") in
  let updated :=
    Todo.set_execution_log (log ++ [entry]) (Todo.set_progress stored d) in
  let completed :=
    Todo.set_execution_log
      (log ++ [entry;
               LogEntry.mk (strftime_now (S (S (clock s)))) (u "completed")
                           (u "任务完成: " ++ Todo.content d)])
      (Todo.set_completed_at (strftime_now (S (clock s)))
         (Todo.set_progress 100 (Todo.set_status COMPLETED d))) in
  0 <= stored <= 100
  /\ update_progress strftime_now todo_id value s
     = if stored =? 100
       then (Return (Some completed),
             mkTodoList (<[i := completed]> (todos s)) (S (S (S (clock s)))))
       else (Return (Some updated),
             mkTodoList (<[i := updated]> (todos s)) (S (clock s))).
Proof.
  intros Hfind Hold Hlog stored entry updated completed.
  split; [unfold stored; lia|].
  rewrite (update_progress_found strftime_now _ _ _ _ _ _ value Hfind Hold Hlog).
  unfold stored.
  destruct (100 <=? value) eqn:E1, (Z.max 0 (Z.min 100 value) =? 100) eqn:E2;
    try reflexivity; exfalso; lia.
Qed.

Lemma C3_witness :
  find_todo 1 (todos two_todos)
  = Some (0%nat, Todo.mk 1 (u "write") PENDING TODO_MEDIUM (Some 0)
                         (Some (u "正在" ++ u "write")) (Some []) (Some (u "t0"))
                         (Some None) (Some None) (Some []))
  /\ (Todo.progress <$> (update_progress sample_clock 1 150 two_todos).2.(todos) !! 0%nat)
     = Some (Some 100)
  /\ (Todo.status <$> (update_progress sample_clock 1 150 two_todos).2.(todos) !! 0%nat)
     = Some COMPLETED
  /\ (Todo.completed_at <$> (update_progress sample_clock 1 150 two_todos).2.(todos) !! 0%nat)
     = Some (Some (Some (u "t3")))
  /\ (Todo.progress <$> (update_progress sample_clock 1 (-20) two_todos).2.(todos) !! 0%nat)
     = Some (Some 0)
  /\ (Todo.status <$> (update_progress sample_clock 1 (-20) two_todos).2.(todos) !! 0%nat)
     = Some PENDING
  /\ (Todo.completed_at <$> (update_progress sample_clock 1 (-20) two_todos).2.(todos) !! 0%nat)
     = Some (Some None).
Proof.
  split; [reflexivity|].
  pose proof (fun v => C3_update_progress_clamps sample_clock two_todos 1 v 0%nat
                         _ 0 [] eq_refl eq_refl eq_refl) as H.
  destruct (H 150) as [_ H150]. destruct (H (-20)) as [_ H20].
  rewrite H150, H20. repeat split; reflexivity.
Defined.

(** Claim C3 as stated fails on a task made by [update_all], which has no
    [progress] key: the call raises [KeyError] and changes nothing. *)
Lemma C3_counterexample :
  let s := (update_all batch_pending init).2 in
  map Todo.id (todos s) = [1; 2]
  /\ update_progress sample_clock 1 150 s = (Raise (KeyError (u "progress")), s).
Proof. split; reflexivity. Qed.

(** Claim C4 fails on the code.  With 4 subtasks the progress is 50 after
    two completions and the task is completed with progress 100 after
    four, as the claim says.  But the percentage is computed in floating
    point, [int((completed_count / total_count) * 100)], and with 29 of 50
    subtasks done the product is just below 58, so that the stored
    progress is 57 and not [floor(100 * 29 / 50) = 58]. *)
Theorem C4_subtask_progress_rounding :
  (Todo.progress <$> todos (broken_down 4 2) !! 0%nat) = Some (Some 50)
  /\ (Todo.status <$> todos (broken_down 4 2) !! 0%nat) = Some PENDING
  /\ (Todo.progress <$> todos (broken_down 4 4) !! 0%nat) = Some (Some 100)
  /\ (Todo.status <$> todos (broken_down 4 4) !! 0%nat) = Some COMPLETED
  /\ (Todo.completed_at <$> todos (broken_down 4 4) !! 0%nat) = Some (Some (Some (u "t6")))
  /\ percent 29 50 = Return 57
  /\ 100 * 29 / 50 = 58
  /\ (length <$> (todos (broken_down 50 29) !! 0%nat ≫= Todo.subtasks)) = Some 50%nat
  /\ (length ∘ List.filter Subtask.completed
         <$> (todos (broken_down 50 29) !! 0%nat ≫= Todo.subtasks)) = Some 29%nat
  /\ (Todo.progress <$> todos (broken_down 50 29) !! 0%nat) = Some (Some 57).
Proof. repeat split; vm_compute; reflexivity. Qed.

(** [update_all] leaves the tasks built from the records it read, which
    are all of them when it returns and those before the first record
    without [content] when it raises. *)
Lemma update_all_loop_state (todos_data : list TodoData.t) : forall i s,
  exists n, (n <= length todos_data)%nat
    /\ (update_all_loop i todos_data s).2
       = mkTodoList (todos s ++ batch_list i (take n todos_data)) (clock s).
Proof.
  induction todos_data as [|d rest IH]; intros i s.
  - exists 0%nat. split; [reflexivity|]. simpl. rewrite app_nil_r. destruct s; reflexivity.
  - cbn [update_all_loop]. destruct (TodoData.content d) as [c|] eqn:Ec.
    + unfold mbind at 1. unfold M_bind at 1. unfold get_todos at 1. cbv iota beta.
      unfold mbind at 1. unfold M_bind at 1. unfold put_todos at 1. cbv iota beta.
      match goal with
      | |- context [update_all_loop (i + 1) rest ?s1] =>
          destruct (IH (i + 1) s1) as (n & Hn & Hs)
      end.
      exists (S n). split; [simpl; lia|]. rewrite Hs. cbn [todos clock take batch_list].
      unfold batch_todo. rewrite Ec. cbn [default]. rewrite <- app_assoc. reflexivity.
    + exists 0%nat. split; [simpl; lia|]. simpl. rewrite app_nil_r. destruct s; reflexivity.
Qed.

Lemma update_all_state (todos_data : list TodoData.t) (s : TodoList) :
  exists n, (n <= length todos_data)%nat
    /\ (update_all todos_data s).2
       = mkTodoList (batch_list 1 (take n todos_data)) (clock s).
Proof.
  destruct (update_all_loop_state todos_data 1 (mkTodoList [] (clock s)))
    as (n & Hn & Hs).
  exists n. split; [exact Hn|].
  unfold update_all, mbind, M_bind, put_todos, get_todos. cbn [fst snd].
  destruct (update_all_loop 1 todos_data (mkTodoList [] (clock s))) as [[[]|e] s'];
    cbn [snd] in *; exact Hs.
Qed.

(** Claim C10, as the code has it.  Whatever records [update_all] is
    given, the list it leaves holds the tasks built from the records it
    read, with ids from 1 on and, in every task, only the keys [id],
    [content], [status] and [priority]: all records when it returns, the
    ones before the first record without [content] when it raises.  On
    each task found in that list [update_progress] raises [KeyError] for
    [progress] and changes nothing.  [start_todo] never returns the
    task: when no task is [in_progress] it raises [KeyError] for
    [execution_log], after it has set the status and the start
    timestamp; when one is, the guard rejects the call with [None]. *)
Theorem C10_batch_records_are_basic (strftime_now : nat -> str)
    (todos_data : list TodoData.t) (s : TodoList) (todo_id value : Z)
    (i : nat) (d : Todo.t) :
  let s1 := (update_all todos_data s).2 in
  find_todo todo_id (todos s1) = Some (i, d) ->
  (exists n, (n <= length todos_data)%nat
             /\ todos s1 = batch_list 1 (take n todos_data))
  /\ (Forall (fun d => is_Some (TodoData.content d)) todos_data ->
      (update_all todos_data s).1 = Return (todos s1)
      /\ todos s1 = batch_list 1 todos_data)
  /\ Forall is_basic (todos s1)
  /\ is_basic d
  /\ update_progress strftime_now todo_id value s1
     = (Raise (KeyError (u "progress")), s1)
  /\ (active_count (todos s1) = 0%nat ->
      start_todo strftime_now todo_id s1
      = (Raise (KeyError (u "execution_log")),
         mkTodoList
           (<[i := Todo.set_started_at (strftime_now (clock s1))
                     (Todo.set_status IN_PROGRESS d)]> (todos s1))
           (S (S (clock s1)))))
  /\ (active_count (todos s1) <> 0%nat ->
      start_todo strftime_now todo_id s1 = (Return None, s1)).
Proof.
  intros s1 Hfind.
  destruct (update_all_state todos_data s) as (n & Hn & Hs). fold s1 in Hs.
  assert (Hall : Forall is_basic (todos s1)).
  { rewrite Hs. cbn [todos]. apply batch_list_is_basic. }
  assert (Hd : is_basic d).
  { apply (proj1 (Forall_forall _ _) Hall).
    apply (list_elem_of_lookup_2 _ i), (find_todo_Some _ _ _ _ Hfind). }
  split; [exists n; split; [exact Hn | rewrite Hs; reflexivity]|].
  split.
  { intros Hcontent. unfold s1. rewrite (update_all_ok _ _ Hcontent). split; reflexivity. }
  split; [exact Hall|]. split; [exact Hd|].
  split; [apply (update_progress_no_key _ _ _ _ i d Hfind), Hd|].
  split.
  - intros H0. apply (start_todo_no_log strftime_now todo_id s1 i d H0 Hfind), Hd.
  - intros H0. apply (start_todo_rejected strftime_now todo_id s1 H0).
Qed.

(** Two batches: one that is read to the end, and one that is abandoned
    at its second record, which has no [content]. *)
Lemma C10_witness :
  (let s1 := (update_all batch_pending init).2 in
   map Todo.progress (todos s1) = [None; None]
   /\ update_progress sample_clock 2 50 s1 = (Raise (KeyError (u "progress")), s1)
   /\ (start_todo sample_clock 2 s1).1 = Raise (KeyError (u "execution_log")))
  /\ (let data := [TodoData.mk (Some (u "plan")) None None [];
                   TodoData.mk None None None [];
                   TodoData.mk (Some (u "ship")) None None []] in
      let s1 := (update_all data two_todos).2 in
      (update_all data two_todos).1 = Raise (KeyError (u "content"))
      /\ map Todo.content (todos s1) = [u "plan"]
      /\ update_progress sample_clock 1 50 s1 = (Raise (KeyError (u "progress")), s1)
      /\ (start_todo sample_clock 1 s1).1 = Raise (KeyError (u "execution_log"))).
Proof.
  split.
  - intros s1.
    destruct (C10_batch_records_are_basic sample_clock batch_pending init 2 50 1%nat
                (Todo.mk 2 (u "ship") PENDING TODO_HIGH None None None None None None None)
                eq_refl)
      as (_ & _ & _ & _ & Hp & Hs & _).
    split; [reflexivity|]. split; [exact Hp|].
    unfold s1. rewrite Hs; reflexivity.
  - intros data s1.
    destruct (C10_batch_records_are_basic sample_clock data two_todos 1 50 0%nat
                (Todo.mk 1 (u "plan") PENDING TODO_MEDIUM None None None None None None None)
                eq_refl)
      as (_ & _ & _ & _ & Hp & Hs & _).
    split; [reflexivity|]. split; [reflexivity|]. split; [exact Hp|].
    unfold s1. rewrite Hs; reflexivity.
Defined.

(** Claim C10 as stated fails where a record of the batch is already
    [in_progress]: [start_todo] is then rejected by its guard and returns
    [None] instead of raising. *)
Lemma C10_counterexample :
  let s1 := (update_all batch_active init).2 in
  map Todo.execution_log (todos s1) = [None]
  /\ start_todo sample_clock 1 s1 = (Return None, s1).
Proof. split; reflexivity. Qed.

End TodoClaims.

(** ** Claims about the stream detector *)

Section DetectorClaims.
Import chat_handler scenarios.

(** Claim C5.  Fed the three chunks of the example, whose opening marker
    is split over the first two, the detector reports plain text, then the
    one-time hint, then a stop with the whole
    [<function_calls>...</function_calls>] span.  And on every sequence of
    chunks whose text does not contain the opening marker, no step
    reports a stop and the buffer holds at most 20 characters after each
    chunk. *)
Theorem C5_stream_detector :
  map fst (feed_all three_chunks reset)
  = [(false, None, u "hello <func"); (false, None, HINT); (true, Some full_block, [])]
  /\ forall chunks,
       contains OPEN_TAG (concat chunks) = false ->
       Forall plain_step (feed_all chunks reset).
Proof.
  split; [vm_compute; reflexivity|].
  intros chunks H. apply (feed_all_seeking chunks reset []); [reflexivity|exact H].
Qed.

Lemma C5_witness :
  contains OPEN_TAG (concat plain_chunks) = false
  /\ Forall plain_step (feed_all plain_chunks reset).
Proof.
  split; [reflexivity|].
  apply (proj2 C5_stream_detector). reflexivity.
Defined.

End DetectorClaims.

(** ** Claims about the parameter parser and the registry *)

Section RegistryFacts.
Import function_registry.

(** The digits are the ASCII ones and code points from 178 on. *)
Lemma decimal_value_Some (c : char) (d : Z) :
  decimal_value c = Some d ->
  exists zero, In zero decimal_zeros /\ (zero <= c < zero + 10)%N
               /\ d = Z.of_N (c - zero).
Proof.
  unfold decimal_value. intros H.
  destruct (List.find _ decimal_zeros) as [zero|] eqn:E; [|discriminate H].
  apply find_some in E as [Hin Hc]. inversion H; subst.
  apply andb_true_iff in Hc as [H1 H2]. apply N.leb_le in H1. apply N.ltb_lt in H2.
  exists zero. auto.
Qed.

Lemma decimal_value_ascii (c : char) :
  is_ascii_digit c = true -> decimal_value c = Some (digit_value c).
Proof.
  unfold is_ascii_digit, decimal_value, digit_value. intros H.
  apply andb_true_iff in H as [H1 H2]. apply N.leb_le in H1, H2.
  cbn [decimal_zeros List.find].
  assert ((48 <=? c)%N = true) as -> by (apply N.leb_le; lia).
  assert ((c <? 48 + 10)%N = true) as -> by (apply N.ltb_lt; lia).
  reflexivity.
Qed.

Lemma isdigit_char_range (c : char) :
  isdigit_char c = true -> is_ascii_digit c = true \/ (178 <= c)%N.
Proof.
  unfold isdigit_char, isdecimal_char. intros H. apply orb_true_iff in H as [H|H].
  - apply bool_decide_eq_true in H as [d Hd].
    destruct (decimal_value_Some c d Hd) as (zero & Hin & Hc & _).
    assert (Hz : forallb (fun zero => (zero =? 48) || (178 <=? zero))%N decimal_zeros
                 = true) by reflexivity.
    pose proof (proj1 (forallb_forall _ _) Hz zero Hin) as Hzero. cbv beta in Hzero.
    apply orb_true_iff in Hzero as [H0|H0].
    + apply N.eqb_eq in H0. subst zero. left. unfold is_ascii_digit.
      apply andb_true_iff. split; apply N.leb_le; lia.
    + apply N.leb_le in H0. right. lia.
  - apply existsb_exists in H as (range & Hin & Hc).
    apply andb_true_iff in Hc as [H1 _]. apply N.leb_le in H1.
    assert (Hr : forallb (fun range : N * N => (178 <=? range.1)%N) other_digits = true)
      by reflexivity.
    pose proof (proj1 (forallb_forall _ _) Hr range Hin) as Hrange. cbv beta in Hrange.
    apply N.leb_le in Hrange. right. lia.
Qed.

Lemma isdigit_char_ascii (c : char) : is_ascii_digit c = true -> isdigit_char c = true.
Proof.
  intros H. unfold isdigit_char, isdecimal_char.
  rewrite (decimal_value_ascii c H). rewrite bool_decide_eq_true_2 by eauto. reflexivity.
Qed.

(** Text made of digits, minus signs and points. *)
Definition numeric_char (c : char) : Prop :=
  isdigit_char c = true \/ c = 45%N \/ c = 46%N.

Lemma isdigit_remove_chars (s : str) :
  isdigit (remove_char 46%N (remove_char 45%N s)) = true ->
  s <> [] /\ Forall numeric_char s.
Proof.
  unfold isdigit, remove_char. intros H. apply andb_true_iff in H as [Hne Hall].
  split.
  - intros ->. discriminate Hne.
  - clear Hne. unfold str in *. induction s as [|c s IH]; [constructor|].
    rewrite filter_cons in Hall.
    destruct (decide (c <> 45%N)) as [H45|H45].
    + rewrite filter_cons in Hall.
      destruct (decide (c <> 46%N)) as [H46|H46].
      * simpl in Hall. apply andb_true_iff in Hall as [Hc Hrest].
        constructor; [left; exact Hc | apply IH, Hrest].
      * constructor; [|apply IH, Hall].
        right; right. destruct (N.eq_dec c 46%N); [assumption | contradiction].
    + constructor; [|apply IH, Hall].
      right; left. destruct (N.eq_dec c 45%N); [assumption | contradiction].
Qed.

Lemma numeric_char_head (c : char) :
  numeric_char c ->
  (c =? 123)%N = false /\ (c =? 91)%N = false
  /\ lower_char c <> 116%N /\ lower_char c <> 102%N.
Proof.
  unfold numeric_char, lower_char.
  intros [H|[->| ->]]; [|repeat split; discriminate ..].
  apply isdigit_char_range in H as [H|H].
  - unfold is_ascii_digit in H.
    apply andb_true_iff in H as [H1 H2]. apply N.leb_le in H1, H2.
    assert ((65 <=? c)%N = false) as -> by (apply N.leb_gt; lia).
    simpl. repeat split; try (apply N.eqb_neq; lia); lia.
  - assert ((c <=? 90)%N = false) as -> by (apply N.leb_gt; lia).
    rewrite andb_false_r.
    repeat split; try (apply N.eqb_neq; lia); lia.
Qed.

(** Text that starts with neither brace nor bracket is not given to
    [json.loads]. *)
Lemma parse_value_not_json (room : nat) (s : str) (c : char) (v' : str) :
  strip s = c :: v' -> (c =? 123)%N = false -> (c =? 91)%N = false ->
  parse_value room (VStr s) = Return (parse_scalar (c :: v')).
Proof.
  intros Ev H123 H91. unfold parse_value. rewrite Ev.
  rewrite bool_decide_eq_false_2 by discriminate.
  change (u "{") with [123%N]. change (u "[") with [91%N].
  assert (Hsw : forall k, (c =? k)%N = false -> startswith (c :: v') [k] = false).
  { intros k Hk. destruct (startswith (c :: v') [k]) eqn:E; [|reflexivity].
    apply startswith_inv in E as [r E]. inversion E; subst.
    rewrite N.eqb_refl in Hk. discriminate. }
  rewrite (Hsw _ H123), (Hsw _ H91). reflexivity.
Qed.

(** The last branch of [parse_value]: text that passes the digit test and
    is then refused by [int] or [float] comes back stripped. *)
Lemma parse_value_falls_through (room : nat) (s : str) :
  let v := strip s in
  isdigit (remove_char 46%N (remove_char 45%N v)) = true ->
  (if contains (u ".") v then float_of_str v = None else int_of_str v = None) ->
  parse_value room (VStr s) = Return (VStr v).
Proof.
  intros v Hd Hfail.
  destruct (isdigit_remove_chars v Hd) as [Hne Hall].
  destruct v as [|c v'] eqn:Ev; [contradiction|].
  inversion Hall as [|? ? Hc Hrest]; subst.
  destruct (numeric_char_head c Hc) as (H123 & H91 & H116 & H102).
  rewrite (parse_value_not_json room s c v' Ev H123 H91). f_equal.
  unfold parse_scalar. rewrite bool_decide_eq_false_2.
  - rewrite Hd. destruct (contains (u ".") (c :: v')); simpl; rewrite Hfail; reflexivity.
  - change (u "true") with [116%N; 114%N; 117%N; 101%N].
    change (u "false") with [102%N; 97%N; 108%N; 115%N; 101%N].
    rewrite !elem_of_cons, elem_of_nil. simpl.
    intros [H|[H|[]]]; inversion H; contradiction.
Qed.

Lemma parse_value_bool (room : nat) (s : str) (b : bool) :
  lower (strip s) = (if b then u "true" else u "false") ->
  parse_value room (VStr s) = Return (VBool b).
Proof.
  intros H. remember (strip s) as v eqn:Hv.
  assert (Hc : exists c v', v = c :: v' /\ (lower_char c = 116%N \/ lower_char c = 102%N)).
  { destruct v as [|c v']; [destruct b; discriminate H|].
    exists c, v'. split; [reflexivity|].
    destruct b; inversion H; auto. }
  destruct Hc as (c & v' & -> & Hc).
  assert (Hk : forall k : N, lower_char k = k -> k <> 116%N -> k <> 102%N ->
                             (c =? k)%N = false).
  { intros k Hk H1 H2. apply N.eqb_neq. intros ->. rewrite Hk in Hc.
    destruct Hc; contradiction. }
  rewrite (parse_value_not_json room s c v' (eq_sym Hv)); [|apply Hk ..];
    try reflexivity; try discriminate.
  f_equal. unfold parse_scalar. rewrite bool_decide_eq_true_2.
  - rewrite H. destruct b; reflexivity.
  - rewrite H. destruct b; [left | right; left].
Qed.

(** Claim C6.  The values [parse_value] gives for the listed texts,
    whenever the recursion limit leaves [json.loads] room for one array
    or object.  The float for [3.14] is the double
    [0x1.91eb851eb851fp+1], that is [7070651414971679 * 2^-51], the one
    nearest to 314/100.  [true] and [false] are read whatever the case of
    their letters.  Text that is only digits once ['-'] and ['.'] are
    removed but that [int] (no ['.'] in it) or [float] (a ['.'] in it)
    refuses comes back as the stripped text. *)
Theorem C6_parse_value (room : nat) :
  (1 <= room)%nat ->
  parse_value room (VStr (u "123")) = Return (VInt 123)
  /\ parse_value room (VStr (u "3.14")) = Return (VFloat 0x1.91eb851eb851fp+1)
  /\ Prim2SF 0x1.91eb851eb851fp+1 = S754_finite false 7070651414971679 (-51)
  /\ 2 * Z.abs (100 * 7070651414971679 - 314 * 2 ^ 51) <= 100
  /\ parse_value room (VStr (u "TRUE")) = Return (VBool true)
  /\ parse_value room (VStr (u "false")) = Return (VBool false)
  /\ (forall (s : str) (b : bool),
        lower (strip s) = (if b then u "true" else u "false") ->
        parse_value room (VStr s) = Return (VBool b))
  /\ parse_value room (VStr (u "{" ++ quote ++ u "a" ++ quote ++ u ": 1}"))
     = Return (VDict [(u "a", VInt 1)])
  /\ parse_value room (VStr (u "[1,2]")) = Return (VList [VInt 1; VInt 2])
  /\ parse_value room (VStr (u "{not json}")) = Return (VStr (u "{not json}"))
  /\ parse_value room (VStr []) = Return (VStr [])
  /\ (forall s,
        isdigit (remove_char 46%N (remove_char 45%N (strip s))) = true ->
        (if contains (u ".") (strip s)
         then float_of_str (strip s) = None
         else int_of_str (strip s) = None) ->
        parse_value room (VStr s) = Return (VStr (strip s))).
Proof.
  intros Hroom. destruct room as [|room]; [lia|]. clear Hroom.
  split; [vm_compute; reflexivity|].
  split; [vm_compute; reflexivity|].
  split; [vm_compute; reflexivity|].
  split; [vm_compute; discriminate|].
  split; [vm_compute; reflexivity|].
  split; [vm_compute; reflexivity|].
  split; [apply parse_value_bool|].
  split; [vm_compute; reflexivity|].
  split; [vm_compute; reflexivity|].
  split; [vm_compute; reflexivity|].
  split; [vm_compute; reflexivity|].
  apply parse_value_falls_through.
Qed.

Lemma C6_witness :
  (1 <= 900)%nat
  /\ (isdigit (remove_char 46%N (remove_char 45%N (strip (u " 1-2 ")))) = true
      /\ int_of_str (strip (u " 1-2 ")) = None
      /\ parse_value 900 (VStr (u " 1-2 ")) = Return (VStr (u "1-2")))
  /\ (isdigit (remove_char 46%N (remove_char 45%N (strip (u "1.2.3")))) = true
      /\ float_of_str (strip (u "1.2.3")) = None
      /\ parse_value 900 (VStr (u "1.2.3")) = Return (VStr (u "1.2.3")))
  /\ (isdigit (remove_char 46%N (remove_char 45%N (strip (u "²")))) = true
      /\ int_of_str (strip (u "²")) = None
      /\ parse_value 900 (VStr (u "²")) = Return (VStr (u "²")))
  /\ parse_value 900 (VStr (u " True ")) = Return (VBool true).
Proof.
  assert (Hroom : (1 <= 900)%nat) by lia.
  destruct (C6_parse_value 900 Hroom)
    as (_ & _ & _ & _ & _ & _ & Hbool & _ & _ & _ & _ & Hfall).
  split; [exact Hroom|]. split; [|split; [|split]].
  - split; [reflexivity|]. split; [reflexivity|].
    apply (Hfall (u " 1-2 ")); reflexivity.
  - split; [reflexivity|]. split; [reflexivity|].
    apply (Hfall (u "1.2.3")); reflexivity.
  - split; [reflexivity|]. split; [reflexivity|].
    apply (Hfall (u "²")); reflexivity.
  - apply (Hbool (u " True ") true). reflexivity.
Defined.

(** Claim C7.  [call(name, **kwargs)] on any table of functions: an
    unknown name gives a failure whose error text contains [not found],
    and the handler is not run; a handler that raises gives a failure
    carrying the text of the exception; a handler that returns a [str]
    containing the confirmation phrase gives [success = False],
    [needs_confirmation = True] and that text as content; any other
    return value gives a success whose content is [str(result)]. *)
Theorem C7_registry_call {W : Type} (r : UnifiedFunctionRegistry W)
    (name : str) (kw : kwargs) (w : W) :
  (_functions r !! name = None ->
   call r name kw w
   = (mkFunctionResult false [] name None
        (u "Function '" ++ name ++ u "' not found") false, w)
   /\ contains (u "not found") (u "Function '" ++ name ++ u "' not found") = true)
  /\ (forall func str_e w',
        _functions r !! name = Some func -> func kw w = (HRaise str_e, w') ->
        call r name kw w = (mkFunctionResult false [] name (Some kw) str_e false, w'))
  /\ (forall func text w',
        _functions r !! name = Some func -> func kw w = (HReturn (RStr text), w') ->
        contains NEEDS_CONFIRMATION text = true ->
        call r name kw w = (mkFunctionResult false text name (Some kw) [] true, w'))
  /\ (forall func result w',
        _functions r !! name = Some func -> func kw w = (HReturn result, w') ->
        asks_confirmation result = false ->
        call r name kw w
        = (mkFunctionResult true (py_str result) name (Some kw) [] false, w')).
Proof.
  unfold call, handler. split; [|split; [|split]].
  - intros Hnone. rewrite Hnone. split; [reflexivity|].
    apply contains_true. exists (u "Function '" ++ name ++ u "' "), [].
    rewrite app_nil_r, <- !app_assoc. reflexivity.
  - intros func str_e w' Hf Hr. rewrite Hf, Hr. reflexivity.
  - intros func text w' Hf Hr Hc. rewrite Hf, Hr. simpl. rewrite Hc. reflexivity.
  - intros func result w' Hf Hr Hc. rewrite Hf, Hr, Hc. reflexivity.
Qed.

End RegistryFacts.

Section RegistryWitness.
Import function_registry scenarios.

Lemma C7_witness :
  call sample_registry (u "missing") [] 0%nat
  = (mkFunctionResult false [] (u "missing") None
       (u "Function '" ++ u "missing" ++ u "' not found") false, 0%nat)
  /\ call sample_registry (u "fail") [] 0%nat
     = (mkFunctionResult false [] (u "fail") (Some []) (u "boom") false, 0%nat)
  /\ call sample_registry (u "send_message") [] 0%nat
     = (mkFunctionResult false (u "发送前" ++ NEEDS_CONFIRMATION) (u "send_message")
                         (Some []) [] true, 0%nat)
  /\ call sample_registry (u "greet") [] 0%nat
     = (mkFunctionResult true (u "hello") (u "greet") (Some []) [] false, 1%nat)
  /\ call sample_registry (u "count") [] 0%nat
     = (mkFunctionResult true (u "3") (u "count") (Some []) [] false, 0%nat).
Proof.
  pose proof (fun n => C7_registry_call sample_registry n [] 0%nat) as H.
  split; [|split; [|split; [|split]]].
  - apply (proj1 (H (u "missing"))). vm_compute. reflexivity.
  - apply (proj1 (proj2 (H (u "fail"))) (fun _ n => (HRaise (u "boom"), n)));
      vm_compute; reflexivity.
  - apply (proj1 (proj2 (proj2 (H (u "send_message"))))
             (fun _ n => (HReturn (RStr (u "发送前" ++ NEEDS_CONFIRMATION)), n)));
      vm_compute; reflexivity.
  - apply (proj2 (proj2 (proj2 (H (u "greet"))))
             (fun _ n => (HReturn (RStr (u "hello")), S n)) (RStr (u "hello")));
      vm_compute; reflexivity.
  - apply (proj2 (proj2 (proj2 (H (u "count"))))
             (fun _ n => (HReturn (RObject (u "3")), n)) (RObject (u "3")));
      vm_compute; reflexivity.
Defined.

End RegistryWitness.

(** ** The session manager, step by step *)

(** Replace the computation that the next bind runs by its result. *)
Ltac run_step H :=
  unfold mbind at 1; unfold M_bind at 1;
  match type of H with
  | _ = ?v =>
      match goal with
      | |- context [match ?x with pair _ _ => _ end] =>
          let Hx := fresh in assert (Hx : x = v) by exact H; rewrite Hx; clear Hx
      end
  end; cbv iota beta.

Section SessionSteps.
Import session_manager.

Variable system_clock : nat -> instant.


(** A directory that was made is there. *)
Lemma has_dir_made (w w' : World) (date_dir : str) :
  files w' = files w -> dirs w' = made date_dir w -> has_dir w' date_dir = true.
Proof.
  intros Hf Hd. unfold has_dir. rewrite Hf, Hd. unfold made.
  destruct (has_dir w date_dir) eqn:E; [exact E|].
  apply orb_true_iff. left. apply bool_decide_eq_true_2.
  apply elem_of_union_l, elem_of_singleton. reflexivity.
Qed.

Lemma made_there (w : World) (date_dir : str) :
  has_dir w date_dir = true -> made date_dir w = dirs w.
Proof. unfold made. intros ->. reflexivity. Qed.

(** Making the directory again changes nothing. *)
Lemma made_again (w w' : World) (date_dir : str) :
  files w' = files w -> dirs w' = made date_dir w -> made date_dir w' = made date_dir w.
Proof.
  intros Hf Hd. unfold made at 1. rewrite (has_dir_made w w' date_dir Hf Hd). exact Hd.
Qed.

Lemma run_get_today_dir (w : World) :
  let day := today (system_clock (clock_reads w)) in
  _get_today_dir system_clock w
  = if negb (has_dir w day) && mkdir_denied w day
    then (Raise (OSError (strerror w (at_mkdir day))),
          mkWorld (self w) (files w) (dirs w) (mkdir_denied w) (open_denied w)
                  (dump_denied w) (strerror w) (S (clock_reads w)) (stdout w))
    else (Return day,
          mkWorld (self w) (files w) (made day w) (mkdir_denied w) (open_denied w)
                  (dump_denied w) (strerror w) (S (clock_reads w)) (stdout w)).
Proof.
  intros day. unfold _get_today_dir, mbind, M_bind, now, mkdir, mret, M_ret.
  cbn [self files dirs mkdir_denied open_denied
       dump_denied strerror clock_reads stdout today].
  fold day.
  change (has_dir (mkWorld (self w) (files w) (dirs w) (mkdir_denied w) (open_denied w)
                           (dump_denied w)
                           (strerror w) (S (clock_reads w)) (stdout w)) day)
    with (has_dir w day).
  destruct (negb (has_dir w day) && mkdir_denied w day); reflexivity.
Qed.

Lemma run_get_session_file_path (w : World) (id : str) :
  let day := today (system_clock (clock_reads w)) in
  _get_session_file_path system_clock id w
  = if negb (has_dir w day) && mkdir_denied w day
    then (Raise (OSError (strerror w (at_mkdir day))),
          mkWorld (self w) (files w) (dirs w) (mkdir_denied w) (open_denied w)
                  (dump_denied w) (strerror w) (S (clock_reads w)) (stdout w))
    else (Return (day, id ++ u ".json"),
          mkWorld (self w) (files w) (made day w) (mkdir_denied w) (open_denied w)
                  (dump_denied w) (strerror w) (S (clock_reads w)) (stdout w)).
Proof.
  intros day. unfold _get_session_file_path. unfold mbind at 1. unfold M_bind at 1.
  rewrite run_get_today_dir. fold day.
  destruct (negb (has_dir w day) && mkdir_denied w day); reflexivity.
Qed.

Lemma run_write_json (w : World) (file : path) (data : SessionData) :
  has_dir w file.1 = true -> open_denied w file = false ->
  write_json file data w
  = if dump_denied w file
    then (Raise (OSError (strerror w (at_write file))),
          mkWorld (self w) (<[file := Partial data]> (files w)) (dirs w)
                  (mkdir_denied w) (open_denied w)
                  (dump_denied w) (strerror w) (clock_reads w)
                  (stdout w))
    else if encodable_document data
    then (Return tt,
          mkWorld (self w) (<[file := Document data]> (files w)) (dirs w)
                  (mkdir_denied w) (open_denied w)
                  (dump_denied w) (strerror w) (clock_reads w)
                  (stdout w))
    else (Raise (UnicodeEncodeError (strerror w (at_encode data))),
          mkWorld (self w) (<[file := Partial data]> (files w)) (dirs w)
                  (mkdir_denied w) (open_denied w)
                  (dump_denied w) (strerror w) (clock_reads w)
                  (stdout w)).
Proof. intros Hd Ho. unfold write_json. rewrite Hd, Ho. reflexivity. Qed.

Lemma run_write_json_denied (w : World) (file : path) (data : SessionData) :
  open_denied w file = true ->
  write_json file data w = (Raise (OSError (strerror w (at_open file))), w).
Proof. intros Ho. unfold write_json. rewrite Ho, orb_true_r. reflexivity. Qed.

Definition SAVE_FAILED : str := Eval vm_compute in u "⚠️  会话保存失败: ".

(** [save_current_session] with a current session, in full: the day's
    directory cannot be made and the call raises; or the file cannot be
    opened, and nothing but a warning comes of it; or the device does not
    take the text, or the write stops at text that cannot be encoded,
    and the file is left with the beginning of the document; or the
    document is written. *)
Lemma run_save_current_session (w : World) (id : str) :
  current_session_id (self w) = Some id -> id <> [] ->
  let r := clock_reads w in
  let day := today (system_clock (2 + r)%nat) in
  let file := (day, id ++ u ".json") in
  let document :=
    mkSessionData id (isoformat (system_clock r)) (isoformat (system_clock (1 + r)%nat))
                  (current_context (self w)) in
  let after files' stdout' :=
    mkWorld (self w) files' (made day w) (mkdir_denied w) (open_denied w)
            (dump_denied w) (strerror w)
            (3 + r)%nat stdout' in
  save_current_session system_clock w
  = if negb (has_dir w day) && mkdir_denied w day
    then (Raise (OSError (strerror w (at_mkdir day))),
          mkWorld (self w) (files w) (dirs w) (mkdir_denied w) (open_denied w)
                  (dump_denied w) (strerror w) (3 + r)%nat (stdout w))
    else if open_denied w file
    then (Return tt,
          after (files w) (stdout w ++ [SAVE_FAILED ++ strerror w (at_open file)]))
    else if dump_denied w file
    then (Return tt,
          after (<[file := Partial document]> (files w))
                (stdout w ++ [SAVE_FAILED ++ strerror w (at_write file)]))
    else if encodable_document document
    then (Return tt, after (<[file := Document document]> (files w)) (stdout w))
    else (Return tt,
          after (<[file := Partial document]> (files w))
                (stdout w ++ [SAVE_FAILED ++ strerror w (at_encode document)])).
Proof.
  intros Hid Hne r day file document after.
  unfold save_current_session.
  unfold mbind at 1. unfold M_bind at 1. unfold get_self at 1. cbv iota beta.
  rewrite Hid. rewrite bool_decide_eq_false_2 by exact Hne.
  set (w1 := mkWorld (self w) (files w) (dirs w) (mkdir_denied w) (open_denied w)
                     (dump_denied w) (strerror w) (1 + r)%nat (stdout w)).
  set (w2 := mkWorld (self w) (files w) (dirs w) (mkdir_denied w) (open_denied w)
                     (dump_denied w) (strerror w) (2 + r)%nat (stdout w)).
  assert (E1 : now system_clock w = (Return (system_clock r), w1)) by reflexivity.
  run_step E1.
  assert (E2 : now system_clock w1 = (Return (system_clock (1 + r)%nat), w2))
    by reflexivity.
  run_step E2.
  pose proof (run_get_session_file_path w2 id) as E3. cbv zeta in E3.
  change (today (system_clock (clock_reads w2))) with day in E3.
  change (has_dir w2 day) with (has_dir w day) in E3.
  change (made day w2) with (made day w) in E3.
  cbn [w2 self files dirs mkdir_denied open_denied
       dump_denied strerror clock_reads stdout] in E3.
  fold file in E3.
  unfold mbind at 1. unfold M_bind at 1. rewrite E3. clear E3.
  destruct (negb (has_dir w day) && mkdir_denied w day) eqn:Ed; [reflexivity|].
  cbv iota beta.
  set (w3 := mkWorld (self w) (files w) (made day w) (mkdir_denied w) (open_denied w)
                     (dump_denied w) (strerror w) (S (2 + r)) (stdout w)).
  assert (Hdir : has_dir w3 file.1 = true) by (apply (has_dir_made w); reflexivity).
  unfold try_except.
  destruct (open_denied w file) eqn:Eo.
  - rewrite (run_write_json_denied w3 file _ Eo). reflexivity.
  - rewrite (run_write_json w3 file _ Hdir Eo).
    fold document.
    change (dump_denied w3 file) with (dump_denied w file).
    destruct (dump_denied w file); [reflexivity|].
    destruct (encodable_document document); reflexivity.
Qed.

(** [add_message] with a current session, in full. *)
Lemma run_add_message (w : World) (id role content : str) :
  current_session_id (self w) = Some id -> id <> [] ->
  let r := clock_reads w in
  let day := today (system_clock (4 + r)%nat) in
  let file := (day, id ++ u ".json") in
  let context' :=
    current_context (self w) ++ [mkMessage role content (isoformat (system_clock r))] in
  let me' :=
    mkSessionManager (Some id) context' (time (system_clock (1 + r)%nat))
                     (session_timeout (self w)) in
  let document :=
    mkSessionData id (isoformat (system_clock (2 + r)%nat))
                  (isoformat (system_clock (3 + r)%nat)) context' in
  let after files' stdout' :=
    mkWorld me' files' (made day w) (mkdir_denied w) (open_denied w)
            (dump_denied w) (strerror w)
            (5 + r)%nat stdout' in
  add_message system_clock role content w
  = if negb (has_dir w day) && mkdir_denied w day
    then (Raise (OSError (strerror w (at_mkdir day))),
          mkWorld me' (files w) (dirs w) (mkdir_denied w) (open_denied w) (dump_denied w)
                  (strerror w) (5 + r)%nat (stdout w))
    else if open_denied w file
    then (Return tt,
          after (files w) (stdout w ++ [SAVE_FAILED ++ strerror w (at_open file)]))
    else if dump_denied w file
    then (Return tt,
          after (<[file := Partial document]> (files w))
                (stdout w ++ [SAVE_FAILED ++ strerror w (at_write file)]))
    else if encodable_document document
    then (Return tt, after (<[file := Document document]> (files w)) (stdout w))
    else (Return tt,
          after (<[file := Partial document]> (files w))
                (stdout w ++ [SAVE_FAILED ++ strerror w (at_encode document)])).
Proof.
  intros Hid Hne r day file context' me' document after.
  set (w4 := mkWorld me' (files w) (dirs w) (mkdir_denied w) (open_denied w) (dump_denied w)
                     (strerror w) (2 + r)%nat (stdout w)).
  assert (E : add_message system_clock role content w
              = save_current_session system_clock w4).
  { unfold add_message, update_activity.
    unfold mbind, M_bind, now, get_self, set_self, mret, M_ret.
    cbn [self files dirs mkdir_denied open_denied dump_denied strerror clock_reads stdout].
    unfold set_last_activity_time, set_current_context.
    cbn [current_session_id current_context last_activity_time session_timeout].
    rewrite Hid. reflexivity. }
  rewrite E.
  rewrite (run_save_current_session w4 id eq_refl Hne). reflexivity.
Qed.

(** Without a current session [add_message] only changes the manager. *)
Lemma run_add_message_no_session (w : World) (role content : str) :
  current_session_id (self w) = None \/ current_session_id (self w) = Some [] ->
  let r := clock_reads w in
  add_message system_clock role content w
  = (Return tt,
     mkWorld
       (mkSessionManager (current_session_id (self w))
          (current_context (self w) ++ [mkMessage role content (isoformat (system_clock r))])
          (time (system_clock (1 + r)%nat)) (session_timeout (self w)))
       (files w) (dirs w) (mkdir_denied w) (open_denied w)
       (dump_denied w) (strerror w) (2 + r)%nat
       (stdout w)).
Proof.
  intros Hid r.
  unfold add_message, update_activity, save_current_session.
  unfold mbind, M_bind, now, get_self, set_self, mret, M_ret.
  cbn [self files dirs mkdir_denied open_denied dump_denied strerror clock_reads stdout].
  unfold set_last_activity_time, set_current_context.
  cbn [current_session_id current_context last_activity_time session_timeout].
  destruct Hid as [-> | ->]; reflexivity.
Qed.

(** [clear_current_session] with a current session, in full. *)
Lemma run_clear_current_session (w : World) (id : str) :
  current_session_id (self w) = Some id -> id <> [] ->
  let r := clock_reads w in
  let day := today (system_clock (2 + r)%nat) in
  let file := (day, id ++ u ".json") in
  let me' :=
    mkSessionManager (Some id) [] (last_activity_time (self w))
                     (session_timeout (self w)) in
  let document :=
    mkSessionData id (isoformat (system_clock r)) (isoformat (system_clock (1 + r)%nat))
                  [] in
  let after files' stdout' :=
    mkWorld me' files' (made day w) (mkdir_denied w) (open_denied w)
            (dump_denied w) (strerror w)
            (3 + r)%nat stdout' in
  clear_current_session system_clock w
  = if negb (has_dir w day) && mkdir_denied w day
    then (Raise (OSError (strerror w (at_mkdir day))),
          mkWorld me' (files w) (dirs w) (mkdir_denied w) (open_denied w) (dump_denied w)
                  (strerror w) (3 + r)%nat (stdout w))
    else if open_denied w file
    then (Return tt,
          after (files w) (stdout w ++ [SAVE_FAILED ++ strerror w (at_open file)]))
    else if dump_denied w file
    then (Return tt,
          after (<[file := Partial document]> (files w))
                (stdout w ++ [SAVE_FAILED ++ strerror w (at_write file)]))
    else if encodable_document document
    then (Return tt, after (<[file := Document document]> (files w)) (stdout w))
    else (Return tt,
          after (<[file := Partial document]> (files w))
                (stdout w ++ [SAVE_FAILED ++ strerror w (at_encode document)])).
Proof.
  intros Hid Hne r day file me' document after.
  set (w1 := mkWorld me' (files w) (dirs w) (mkdir_denied w) (open_denied w) (dump_denied w)
                     (strerror w) r (stdout w)).
  assert (E : clear_current_session system_clock w
              = save_current_session system_clock w1).
  { unfold clear_current_session.
    unfold mbind, M_bind, get_self, set_self, mret, M_ret.
    cbn [self files dirs mkdir_denied open_denied dump_denied strerror clock_reads stdout].
    unfold set_current_context.
    cbn [current_session_id current_context last_activity_time session_timeout].
    rewrite Hid. rewrite bool_decide_eq_false_2 by exact Hne. reflexivity. }
  rewrite E.
  rewrite (run_save_current_session w1 id eq_refl Hne). reflexivity.
Qed.

(** The number of session files in a date directory. *)
Definition session_count (day : str) (w : World) : Z :=
  Z.of_nat (length (List.filter
                      (fun f : path * Content =>
                         str_eqb f.1.1 day && is_session_file f.1.2)
                      (map_to_list (files w)))).

Variable iterdir : World -> list str.
Variable is_decimal : char -> bool.







End SessionSteps.

(** ** Claims about the session manager and the turn driver *)

Section SessionClaims.
Import session_manager scenarios.

(** Claim C9 fails on the code.  The file of a session created at the
    clock reading [T2] holds [created_at = T2]; the next
    [save_current_session] writes the same file with the same session id
    and the messages in memory, but stamps [created_at] afresh, here with
    [T5], as it does [last_activity]. *)
Theorem C9_created_at_restamped :
  let w1 := (create_new_session sample_instants empty_logs).2 in
  let w2 := (save_current_session sample_instants w1).2 in
  current_session_id (self w1) = Some (u "session_001")
  /\ files w1 !! session_file
     = Some (Document (mkSessionData (u "session_001") (u "T2") (u "T3") []))
  /\ current_session_id (self w2) = Some (u "session_001")
  /\ files w2 !! session_file
     = Some (Document (mkSessionData (u "session_001") (u "T5") (u "T6") []))
  /\ u "T5" <> u "T2".
Proof. repeat split; try (vm_compute; reflexivity). discriminate. Qed.

End SessionClaims.

Section HandlerClaims.
Import function_registry chat_handler scenarios.

(** Claim C8.  At a depth of 5 or more, the configured maximum,
    [process_conversation_turn] returns the fixed depth-limit text and
    leaves the whole world as it was: the list of requests sent to the
    model, the session and its files, the log.  Being a function of its
    arguments, it gives the same answer however often it is called
    again. *)
Theorem C8_depth_limit {E : Type}
    (system_clock : nat -> session_manager.instant)
    (anthropic : nat -> Request -> Response)
    (registry : UnifiedFunctionRegistry E)
    (generate_xml : UnifiedFunctionRegistry E -> str)
    (update_system_prompt : str -> E -> str * E)
    (handle_api_error : str -> str)
    (recursion_room : Z -> nat)
    (depth : Z)
    (on_text_chunk : option (str -> E -> E))
    (on_function_call : option (list FunctionResult -> E -> E))
    (w : World) :
  5 <= depth ->
  let result :=
    process_conversation_turn system_clock anthropic registry generate_xml
      update_system_prompt handle_api_error recursion_room depth on_text_chunk
      on_function_call w in
  result = (Return DEPTH_LIMIT_ERROR, w)
  /\ requests result.2 = requests w
  /\ sessions result.2 = sessions w.
Proof.
  intros Hdepth result. assert (Hr : result = (Return DEPTH_LIMIT_ERROR, w)).
  { unfold result. simp process_conversation_turn.
    destruct (decide (max_depth <= depth)) as [Hy|Hn].
    - reflexivity.
    - exfalso. apply Hn. unfold max_depth, settings.MAX_CONVERSATION_DEPTH. exact Hdepth. }
  rewrite Hr. auto.
Qed.

Lemma C8_witness :
  5 <= 5
  /\ sample_turn 5 = (Return DEPTH_LIMIT_ERROR, sample_world)
  /\ sample_turn 7 = (Return DEPTH_LIMIT_ERROR, sample_world).
Proof.
  split; [lia|]. split.
  - apply (C8_depth_limit sample_instants sample_model sample_registry). lia.
  - apply (C8_depth_limit sample_instants sample_model sample_registry). lia.
Defined.

(** Below the limit the same call does reach the model. *)
Example turn_below_limit_calls_model :
  (sample_turn 4).1 = Return (u "All done.")
  /\ length (requests (sample_turn 4).2) = 1%nat
  /\ map session_manager.content
         (session_manager.current_context
            (session_manager.self (sessions (sample_turn 4).2)))
     = [u "All done."].
Proof. repeat split; vm_compute; reflexivity. Qed.

End HandlerClaims.
(** ** Decimal text *)

Section DecimalText.

Definition uint_chars (d : Decimal.uint) : str :=
  map N_of_ascii (list_ascii_of_string (DecimalString.NilEmpty.string_of_uint d)).

Lemma uint_chars_digits d : forallb is_ascii_digit (uint_chars d) = true.
Proof. induction d; simpl; [reflexivity|exact IHd ..]. Qed.

Lemma uint_chars_nonnil d : d <> Decimal.Nil -> uint_chars d <> [].
Proof. destruct d; [contradiction|discriminate ..]. Qed.

Lemma digits_value_acc d : forall acc,
  fold_left (fun a c => 10 * a + digit_value c) (uint_chars d) (Z.pos acc)
  = Z.pos (Pos.of_uint_acc d acc).
Proof.
  induction d; intros acc; simpl; [reflexivity|..];
    rewrite <- IHd; f_equal; unfold digit_value; simpl; lia.
Qed.

Lemma digits_value_uint d : digits_value (uint_chars d) = Z.of_N (Pos.of_uint d).
Proof.
  unfold digits_value. induction d; simpl; [reflexivity|exact IHd|..];
    apply (digits_value_acc d).
Qed.

(** The text of an integer: an optional minus sign, then at least one
    digit, reading back as the integer. *)
Lemma str_of_int_shape z :
  exists (neg : bool) (digits : str),
    str_of_int z = (if neg then [45%N] else []) ++ digits
    /\ digits <> []
    /\ forallb is_ascii_digit digits = true
    /\ (if neg then - digits_value digits else digits_value digits) = z.
Proof.
  assert (Hnz : forall d, d <> Decimal.Nil ->
            map N_of_ascii
              (list_ascii_of_string (DecimalString.NilZero.string_of_uint d))
            = uint_chars d)
    by (intros d Hd; destruct d; [contradiction|reflexivity ..]).
  destruct z as [|p|p]; unfold str_of_int; simpl Z.to_int.
  - exists false, [48%N]. repeat split. discriminate.
  - exists false, (uint_chars (Pos.to_uint p)).
    pose proof (DecimalPos.Unsigned.to_uint_nonnil p) as Hp.
    split; [apply (Hnz _ Hp)|]. split; [apply uint_chars_nonnil, Hp|].
    split; [apply uint_chars_digits|].
    rewrite digits_value_uint, DecimalPos.Unsigned.of_to. reflexivity.
  - exists true, (uint_chars (Pos.to_uint p)).
    pose proof (DecimalPos.Unsigned.to_uint_nonnil p) as Hp.
    split; [simpl; f_equal; apply (Hnz _ Hp)|]. split; [apply uint_chars_nonnil, Hp|].
    split; [apply uint_chars_digits|].
    rewrite digits_value_uint, DecimalPos.Unsigned.of_to. reflexivity.
Qed.

Lemma digit_not_minus c : is_ascii_digit c = true -> c <> 45%N.
Proof.
  unfold is_ascii_digit. intros H ->. discriminate H.
Qed.

Lemma str_of_int_inj z z' : str_of_int z = str_of_int z' -> z = z'.
Proof.
  intros H.
  destruct (str_of_int_shape z) as (n & ds & E & Hne & Hd & Hv).
  destruct (str_of_int_shape z') as (n' & ds' & E' & Hne' & Hd' & Hv').
  rewrite E, E' in H. clear E E'.
  assert (Hhead : forall x, x <> [] -> forallb is_ascii_digit x = true ->
                            forall y, x <> 45%N :: y).
  { intros x Hx Hdx y ->. simpl in Hdx. discriminate Hdx. }
  destruct n, n'; simpl in H.
  - inversion H; subst. reflexivity.
  - exfalso. symmetry in H. exact (Hhead _ Hne' Hd' _ H).
  - exfalso. exact (Hhead _ Hne Hd _ H).
  - subst. reflexivity.
Qed.

Lemma digit_not_space c : is_ascii_digit c = true -> isspace c = false.
Proof.
  unfold is_ascii_digit, isspace. intros H.
  apply andb_true_iff in H as [H1 H2]. apply N.leb_le in H1, H2.
  assert (E1 : (c <=? 13)%N = false) by (apply N.leb_gt; lia).
  assert (E2 : (c <=? 32)%N = false) by (apply N.leb_gt; lia).
  assert (E3 : (8192 <=? c)%N = false) by (apply N.leb_gt; lia).
  assert (E4 : forall k, (57 < k)%N -> (c =? k)%N = false)
    by (intros k Hk; apply N.eqb_neq; lia).
  rewrite E1, E2, E3, !andb_false_r.
  rewrite !E4 by lia. reflexivity.
Qed.

Lemma lstrip_id (s : str) : Forall (fun c => isspace c = false) s -> lstrip s = s.
Proof. intros H. destruct H as [|c s Hc _]; simpl; [reflexivity|]. rewrite Hc. reflexivity. Qed.

Lemma strip_id (s : str) : Forall (fun c => isspace c = false) s -> strip s = s.
Proof.
  intros H. unfold strip. rewrite (lstrip_id s H).
  rewrite lstrip_id by (apply Forall_rev, H). apply rev_involutive.
Qed.

(** ASCII digits read as decimal digits. *)
Lemma decimals_value_ascii (s : str) : forall acc,
  forallb is_ascii_digit s = true ->
  decimals_value acc s = Some (fold_left (fun a c => 10 * a + digit_value c) s acc).
Proof.
  induction s as [|c s IH]; intros acc H; [reflexivity|].
  simpl in H. apply andb_true_iff in H as [Hc Hs].
  cbn [decimals_value fold_left]. rewrite (decimal_value_ascii c Hc).
  cbn [mbind option_bind]. apply IH, Hs.
Qed.

(** The text of a positive number does not start with a zero, so that
    its value is at least the power of ten of its other digits. *)
Lemma to_uint_head (p : positive) :
  exists c rest, uint_chars (Pos.to_uint p) = c :: rest /\ 1 <= digit_value c.
Proof.
  pose proof (DecimalPos.Unsigned.to_of (Pos.to_uint p)) as Hn.
  rewrite DecimalPos.Unsigned.of_to in Hn. cbn [N.to_uint] in Hn.
  pose proof (DecimalPos.Unsigned.to_uint_nonzero p) as Hz.
  pose proof (DecimalPos.Unsigned.to_uint_nonnil p) as Hnil.
  destruct (Pos.to_uint p) as [|d|d|d|d|d|d|d|d|d|d] eqn:E;
    [contradiction | | eexists; eexists; split; [reflexivity|vm_compute; discriminate] ..].
  exfalso. rewrite DecimalFacts.unorm_D0 in Hn.
  unfold Decimal.unorm in Hn.
  destruct (Decimal.nzhead d) eqn:Ed; try (symmetry in Hn; rewrite <- Ed in Hn;
    exact (DecimalFacts.nzhead_nonzero _ _ Hn)).
  inversion Hn; subst. apply Hz. reflexivity.
Qed.

Lemma digits_value_acc_ge (s : str) : forall acc,
  0 <= acc ->
  acc * 10 ^ Z.of_nat (length s) <= fold_left (fun a c => 10 * a + digit_value c) s acc.
Proof.
  induction s as [|c s IH]; intros acc Hacc.
  - simpl. lia.
  - cbn [fold_left length]. rewrite Nat2Z.inj_succ, Z.pow_succ_r by lia.
    assert (Hc : 0 <= digit_value c) by (unfold digit_value; lia).
    specialize (IH (10 * acc + digit_value c) ltac:(lia)).
    assert (Hp : 0 < 10 ^ Z.of_nat (length s)) by (apply Z.pow_pos_nonneg; lia).
    nia.
Qed.

(** A number below [10^n] is written with at most [n] digits. *)
Lemma str_of_int_length (z : Z) (n : nat) :
  Z.abs z < 10 ^ Z.of_nat n -> (1 <= n)%nat ->
  exists (neg : bool) (digits : str),
    str_of_int z = (if neg then [45%N] else []) ++ digits
    /\ digits <> []
    /\ forallb is_ascii_digit digits = true
    /\ (if neg then - digits_value digits else digits_value digits) = z
    /\ (length digits <= n)%nat.
Proof.
  intros Hz Hn.
  assert (Hnz : forall d, d <> Decimal.Nil ->
            map N_of_ascii
              (list_ascii_of_string (DecimalString.NilZero.string_of_uint d))
            = uint_chars d)
    by (intros d Hd; destruct d; [contradiction|reflexivity ..]).
  assert (Hlen : forall p, Z.pos p < 10 ^ Z.of_nat n ->
                           (length (uint_chars (Pos.to_uint p)) <= n)%nat).
  { intros p Hp. destruct (to_uint_head p) as (c & rest & E & Hc).
    pose proof (digits_value_uint (Pos.to_uint p)) as Hv.
    rewrite DecimalPos.Unsigned.of_to in Hv. rewrite E in Hv |- *.
    unfold digits_value in Hv. cbn [fold_left] in Hv.
    replace (10 * 0 + digit_value c) with (digit_value c) in Hv by lia.
    pose proof (digits_value_acc_ge rest (digit_value c) ltac:(lia)) as Hge.
    rewrite Hv in Hge. cbn [length].
    assert (Hpow : 10 ^ Z.of_nat (length rest) < 10 ^ Z.of_nat n).
    { assert (0 < 10 ^ Z.of_nat (length rest)) by (apply Z.pow_pos_nonneg; lia).
      change (Z.of_N (N.pos p)) with (Z.pos p) in Hge. nia. }
    apply Z.pow_lt_mono_r_iff in Hpow; lia. }
  destruct z as [|p|p]; unfold str_of_int; simpl Z.to_int.
  - exists false, [48%N]. repeat split; [discriminate | simpl; lia].
  - exists false, (uint_chars (Pos.to_uint p)).
    pose proof (DecimalPos.Unsigned.to_uint_nonnil p) as Hp.
    split; [apply (Hnz _ Hp)|]. split; [apply uint_chars_nonnil, Hp|].
    split; [apply uint_chars_digits|].
    split; [rewrite digits_value_uint, DecimalPos.Unsigned.of_to; reflexivity|].
    apply Hlen. exact Hz.
  - exists true, (uint_chars (Pos.to_uint p)).
    pose proof (DecimalPos.Unsigned.to_uint_nonnil p) as Hp.
    split; [simpl; f_equal; apply (Hnz _ Hp)|]. split; [apply uint_chars_nonnil, Hp|].
    split; [apply uint_chars_digits|].
    split; [rewrite digits_value_uint, DecimalPos.Unsigned.of_to; reflexivity|].
    apply Hlen. exact Hz.
Qed.

End DecimalText.

Section TodoMore.
Import todo_system.
Variable clk : nat -> str.

(** *** Sequences of [add] *)

Definition add_ops (items : list (str * str)) : list op :=
  map (fun item => Add item.1 item.2) items.

Definition is_fresh (d : Todo.t) : Prop :=
  Todo.status d = PENDING /\ Todo.progress d = Some 0
  /\ Todo.subtasks d = Some [] /\ Todo.execution_log d = Some []
  /\ Todo.started_at d = Some None /\ Todo.completed_at d = Some None.

Lemma exec_add c p s :
  exists d,
    exec clk (Add c p) s = mkTodoList (todos s ++ [d]) (S (clock s))
    /\ Todo.id d = Z.of_nat (length (todos s)) + 1
    /\ Todo.content d = c /\ Todo.priority d = p /\ is_fresh d.
Proof. eexists. split; [reflexivity|]. unfold is_fresh. repeat split. Qed.

Lemma find_todo_None id l : find_todo id l = None <-> id ∉ map Todo.id l.
Proof.
  induction l as [|x l IH]; simpl.
  - split; [intros _; apply not_elem_of_nil | reflexivity].
  - rewrite not_elem_of_cons. destruct (Todo.id x =? id) eqn:E.
    + split; [discriminate|]. intros [H _]. exfalso. apply H. symmetry. lia.
    + destruct (find_todo id l) as [[j d]|]; simpl.
      * split; [discriminate|]. intros [_ H]. apply IH in H. discriminate.
      * split; [|reflexivity]. intros _. split; [lia|]. apply IH. reflexivity.
Qed.

Lemma find_todo_subtask_None id sid l : forall k,
  find_todo id l = None -> find_todo_subtask id sid k l = Return None.
Proof.
  induction l as [|x l IH]; intros k H; simpl in *; [reflexivity|].
  destruct (Todo.id x =? id); [discriminate|].
  destruct (find_todo id l) as [[j d]|]; [discriminate|]. apply IH. reflexivity.
Qed.

(** *** [delete] *)

Lemma find_todo_is_Some id l : id ∈ map Todo.id l -> is_Some (find_todo id l).
Proof.
  intros H. destruct (find_todo id l) eqn:E; [eauto|].
  apply find_todo_None in E. contradiction.
Qed.

Lemma find_todo_first id l i d :
  find_todo id l = Some (i, d) -> Forall (fun x => Todo.id x <> id) (take i l).
Proof.
  revert i; induction l as [|x l IH]; intros i H; simpl in H; [discriminate|].
  destruct (Todo.id x =? id) eqn:E.
  - inversion H; subst. constructor.
  - destruct (find_todo id l) as [[j d']|] eqn:F; simpl in H; [|discriminate].
    inversion H; subst. simpl. constructor; [lia|]. apply IH. reflexivity.
Qed.

Definition other_ids (id : Z) (l : list Todo.t) : list Todo.t :=
  List.filter (fun x => negb (Todo.id x =? id)) l.

(** *** [update_all] on a record without [content] *)

(** *** What no method but [delete] and [update_all] undoes *)

(** [d'] is a later state of the task [d]: same id, same creation stamp,
    and the execution log of [d], if it has one, extended at its end. *)
Definition same_task (d d' : Todo.t) : Prop :=
  Todo.id d' = Todo.id d
  /\ Todo.created_at d' = Todo.created_at d
  /\ forall log, Todo.execution_log d = Some log ->
       exists more, Todo.execution_log d' = Some (log ++ more).

(** [l'] holds later states of the tasks of [l], in the same order,
    followed by tasks added since. *)
Definition steady (l l' : list Todo.t) : Prop :=
  exists l1 added, l' = l1 ++ added /\ Forall2 same_task l l1.

Lemma same_task_refl d : same_task d d.
Proof.
  split; [reflexivity|]. split; [reflexivity|].
  intros log H. exists []. rewrite app_nil_r. exact H.
Qed.

Lemma same_task_trans d1 d2 d3 : same_task d1 d2 -> same_task d2 d3 -> same_task d1 d3.
Proof.
  intros (Hi1 & Hc1 & Hl1) (Hi2 & Hc2 & Hl2).
  split; [congruence|]. split; [congruence|].
  intros log H. destruct (Hl1 _ H) as [m1 H1]. destruct (Hl2 _ H1) as [m2 H2].
  exists (m1 ++ m2). rewrite app_assoc. exact H2.
Qed.

Lemma steady_refl l : steady l l.
Proof.
  exists l, []. rewrite app_nil_r. split; [reflexivity|].
  induction l; constructor; [apply same_task_refl | assumption].
Qed.

Lemma Forall2_same_task_trans l1 : forall l2 l3,
  Forall2 same_task l1 l2 -> Forall2 same_task l2 l3 -> Forall2 same_task l1 l3.
Proof.
  induction l1 as [|x l1 IH]; intros l2 l3 H12 H23.
  - inversion H12; subst. inversion H23; subst. constructor.
  - inversion H12; subst. inversion H23; subst.
    constructor; [eapply same_task_trans; eassumption | eapply IH; eassumption].
Qed.

Lemma steady_trans l1 l2 l3 : steady l1 l2 -> steady l2 l3 -> steady l1 l3.
Proof.
  intros (a & ea & -> & Ha) (b & eb & -> & Hb).
  apply Forall2_app_inv_l in Hb as (b1 & b2 & Hb1 & Hb2 & ->).
  exists b1, (b2 ++ eb). rewrite app_assoc. split; [reflexivity|].
  eapply Forall2_same_task_trans; eassumption.
Qed.

Lemma steady_alter (f : Todo.t -> Todo.t) i l :
  (forall d, same_task d (f d)) -> steady l (alter f i l).
Proof.
  intros Hf. exists (alter f i l), []. rewrite app_nil_r. split; [reflexivity|].
  revert i; induction l as [|x l IH]; intros [|i]; simpl; constructor;
    try apply Hf; try apply same_task_refl; try apply IH.
  clear. induction l; constructor; [apply same_task_refl | assumption].
Qed.

Definition keeps {A} (m : M A) : Prop :=
  forall s, steady (todos s) (todos (m s).2).

Lemma keeps_bind {A B} (m : M A) (f : A -> M B) :
  keeps m -> (forall a, keeps (f a)) -> keeps (m ≫= f).
Proof.
  intros Hm Hf s. unfold mbind, M_bind. specialize (Hm s).
  destruct (m s) as [[a|e] s'] eqn:E; simpl in *; [|exact Hm].
  eapply steady_trans; [exact Hm | apply Hf].
Qed.

Lemma keeps_same {A} (m : M A) : (forall s, todos (m s).2 = todos s) -> keeps m.
Proof. intros H s. rewrite H. apply steady_refl. Qed.

Lemma keeps_mutate i f : (forall d, same_task d (f d)) -> keeps (mutate i f).
Proof. intros Hf s. simpl. apply steady_alter, Hf. Qed.

Lemma keeps_if {A} (b : bool) (m1 m2 : M A) :
  keeps m1 -> keeps m2 -> keeps (if b then m1 else m2).
Proof. destruct b; auto. Qed.

Lemma same_task_setters d :
  (forall v, same_task d (Todo.set_content v d))
  /\ (forall v, same_task d (Todo.set_status v d))
  /\ (forall v, same_task d (Todo.set_priority v d))
  /\ (forall v, same_task d (Todo.set_progress v d))
  /\ (forall v, same_task d (Todo.set_subtasks v d))
  /\ (forall v, same_task d (Todo.set_started_at v d))
  /\ (forall v, same_task d (Todo.set_completed_at v d))
  /\ (forall e, same_task d (append_log e d))
  /\ (forall j, same_task d (set_completed j d)).
Proof.
  repeat split; intros; simpl; eauto using app_nil_r;
    try (eexists []; rewrite app_nil_r; assumption).
  - unfold append_log. destruct (Todo.execution_log d); reflexivity.
  - unfold append_log. destruct (Todo.execution_log d); reflexivity.
  - unfold append_log. rewrite H. simpl. eauto.
  - unfold set_completed. destruct (Todo.subtasks d); reflexivity.
  - unfold set_completed. destruct (Todo.subtasks d); reflexivity.
  - unfold set_completed. destruct (Todo.subtasks d); simpl;
      exists []; rewrite app_nil_r; assumption.
Qed.

Ltac keeps_step :=
  match goal with
  | |- keeps (_ ≫= _) => apply keeps_bind; [|intros]
  | |- keeps (if _ then _ else _) => apply keeps_if
  | |- keeps (match ?x with _ => _ end) => destruct x
  | |- keeps (mutate _ _) => apply keeps_mutate; intros; apply same_task_setters
  | |- keeps (log_execution _ _ _ _) => solve [auto]
  | |- keeps (complete_todo _ _) => solve [auto]
  | |- keeps _ => apply keeps_same; intros; reflexivity
  end.

Lemma keeps_log_execution id a de : keeps (log_execution clk id a de).
Proof. unfold log_execution. repeat keeps_step. Qed.

Lemma keeps_complete_todo id : keeps (complete_todo clk id).
Proof.
  pose proof keeps_log_execution as Hlog.
  unfold complete_todo. repeat keeps_step.
Qed.

Definition rebuilds_list (o : op) : Prop :=
  match o with
  | Delete _ | UpdateAll _ => True
  | _ => False
  end.

Lemma exec_steady o s :
  ~ rebuilds_list o -> steady (todos s) (todos (exec clk o s)).
Proof.
  pose proof keeps_log_execution as Hlog.
  pose proof keeps_complete_todo as Hcomp.
  intros Ho.
  assert (K : forall A (m : M A), keeps m -> steady (todos s) (todos (m s).2))
    by (intros A m Hm; apply Hm).
  destruct o; try (exfalso; apply Ho; exact I).
  - destruct (exec_add content priority s) as (d & -> & _).
    exists (todos s), [d]. split; [reflexivity|].
    clear. induction (todos s); constructor; [apply same_task_refl | assumption].
  - apply (K _ (modify id content priority)). unfold modify. repeat keeps_step.
  - apply steady_refl.
  - apply (K _ (update_status id status)). unfold update_status. repeat keeps_step.
  - apply steady_refl.
  - apply (K _ (start_todo clk todo_id)). unfold start_todo. repeat keeps_step.
  - apply (K _ (break_down_task clk todo_id subtasks_list)).
    unfold break_down_task. repeat keeps_step.
  - apply (K _ (update_progress clk todo_id progress)).
    unfold update_progress. repeat keeps_step.
  - apply (K _ (complete_subtask clk todo_id subtask_id)).
    unfold complete_subtask. repeat keeps_step.
  - apply (K _ (complete_todo clk todo_id)). apply Hcomp.
  - apply steady_refl.
  - apply steady_refl.
  - apply (K _ (log_execution clk todo_id action description)). apply Hlog.
  - apply (K _ get_todo_progress_summary).
    unfold get_todo_progress_summary, get_active_todos. repeat keeps_step.
Qed.

Lemma steady_ids l l' : steady l l' -> map Todo.id l `prefix_of` map Todo.id l'.
Proof.
  intros (l1 & added & -> & H). exists (map Todo.id added). rewrite map_app. f_equal.
  induction H as [|x y l l1 (Hi & _) _ IH]; simpl; congruence.
Qed.

Lemma steady_lookup l l' i d :
  steady l l' -> l !! i = Some d -> exists d', l' !! i = Some d' /\ same_task d d'.
Proof.
  intros (l1 & added & -> & H) Hi.
  destruct (Forall2_lookup_l _ _ _ _ _ H Hi) as (d' & Hd' & Hs).
  exists d'. split; [|exact Hs]. apply lookup_app_l_Some. exact Hd'.
Qed.

(** *** The percentage stored by [complete_subtask] *)

Definition percent_in_bounds (c t : Z) : bool :=
  match percent c t with
  | Return p =>
      (100 * c / t - 1 <=? p) && (p <=? 100 * c / t) && (0 <=? p)
      && bool_decide (p = 100 <-> c = t)
  | Raise _ => false
  end.

Lemma percent_checked :
  forallb (fun t => forallb (fun c => percent_in_bounds (Z.of_nat c) (Z.of_nat t))
                            (seq 0 (S t)))
          (seq 1 100) = true.
Proof. vm_compute. reflexivity. Qed.

(** *** [complete_subtask] on a subtask that exists *)

Lemma find_subtask_Some sid sts j st :
  find_subtask sid sts = Some (j, st) -> sts !! j = Some st /\ Subtask.id st = sid.
Proof.
  revert j; induction sts as [|x sts IH]; intros j H; simpl in H; [discriminate|].
  destruct (str_eqb (Subtask.id x) sid) eqn:E.
  - inversion H; subst. split; [reflexivity|].
    unfold str_eqb in E. apply bool_decide_eq_true in E. exact E.
  - destruct (find_subtask sid sts) as [[k st']|]; simpl in H; [|discriminate].
    inversion H; subst. simpl. apply IH. reflexivity.
Qed.

Lemma find_todo_subtask_found id sid l i d sts j st :
  find_todo id l = Some (i, d) ->
  Todo.subtasks d = Some sts ->
  find_subtask sid sts = Some (j, st) ->
  forall k, find_todo_subtask id sid k l = Return (Some ((k + i)%nat, j, st)).
Proof.
  intros Hf Hs Hj. revert i Hf; induction l as [|x l IH]; intros i Hf k; simpl in Hf;
    [discriminate|].
  simpl. destruct (Todo.id x =? id) eqn:E.
  - inversion Hf; subst. rewrite Hs, Hj. rewrite Nat.add_0_r. reflexivity.
  - destruct (find_todo id l) as [[i' d']|] eqn:F; simpl in Hf; [|discriminate].
    inversion Hf; subst. rewrite (IH i' eq_refl (S k)).
    replace (S k + i')%nat with (k + S i')%nat by lia. reflexivity.
Qed.

Definition mark_completed (j : nat) (sts : list Subtask.t) : list Subtask.t :=
  alter (fun st => Subtask.mk (Subtask.id st) (Subtask.content st) true) j sts.

Lemma mark_completed_count j sts st :
  sts !! j = Some st ->
  (1 <= length (List.filter Subtask.completed (mark_completed j sts)) <= length sts)%nat.
Proof.
  unfold mark_completed.
  revert j; induction sts as [|x sts IH]; intros [|j] H; simpl in *; try discriminate.
  - pose proof (List.filter_length_le Subtask.completed sts). lia.
  - specialize (IH j H).
    change (list_alter ?f j sts) with (alter f j sts).
    destruct (Subtask.completed x); simpl; lia.
Qed.

(** *** [break_down_task] *)

Definition subtask_id (todo_id : Z) (k : nat) : str :=
  str_of_int todo_id ++ u "-" ++ str_of_int (Z.of_nat k + 1).

Lemma enumerate_subtasks_spec id subs : forall i,
  map Subtask.content (enumerate_subtasks id i subs) = subs
  /\ Forall (fun st => Subtask.completed st = false) (enumerate_subtasks id i subs)
  /\ length (enumerate_subtasks id i subs) = length subs.
Proof.
  induction subs as [|c subs IH]; intros i; simpl.
  - repeat split. constructor.
  - destruct (IH (i + 1)) as (H1 & H2 & H3). rewrite H1, H3.
    repeat split. constructor; [reflexivity|exact H2].
Qed.

Lemma find_subtask_enumerate id subs : forall i k c,
  subs !! k = Some c ->
  find_subtask (str_of_int id ++ u "-" ++ str_of_int (i + Z.of_nat k))
               (enumerate_subtasks id i subs)
  = Some (k, Subtask.mk (str_of_int id ++ u "-" ++ str_of_int (i + Z.of_nat k)) c false).
Proof.
  induction subs as [|x subs IH]; intros i k c H; [destruct k; discriminate H|].
  cbn [find_subtask enumerate_subtasks Subtask.id]. unfold str_eqb.
  destruct k as [|k]; cbn [lookup list_lookup] in H.
  - inversion H; subst. change (Z.of_nat 0) with 0. rewrite Z.add_0_r.
    rewrite bool_decide_eq_true_2 by reflexivity. reflexivity.
  - rewrite bool_decide_eq_false_2.
    + replace (i + Z.of_nat (S k)) with (i + 1 + Z.of_nat k) by lia.
      rewrite (IH (i + 1) k c H). reflexivity.
    + intros E. apply app_inv_head in E. apply app_inv_head in E.
      apply str_of_int_inj in E. lia.
Qed.

(** *** [get_todo_progress_summary] *)

Lemma summary_without_active s :
  active_count (todos s) = 0%nat ->
  get_todo_progress_summary s = (Return (u "当前没有正在进行的任务"), s).
Proof.
  intros H.
  unfold get_todo_progress_summary, get_active_todos, mbind, M_bind, get_todos,
    mret, M_ret.
  cbv beta iota. rewrite (active_count_0 _ H).
  rewrite bool_decide_eq_true_2 by reflexivity. reflexivity.
Qed.

Lemma summary_of_basic l c :
  Forall is_basic l -> active_count l <> 0%nat ->
  get_todo_progress_summary (mkTodoList l c)
  = (Raise (KeyError (u "progress")), mkTodoList l c).
Proof.
  intros Hb Ha.
  unfold get_todo_progress_summary, get_active_todos, mbind, M_bind, get_todos, mret, M_ret.
  cbv beta iota. cbn [todos].
  assert (Hf : Forall is_basic (List.filter (has_status IN_PROGRESS) l)).
  { clear Ha. induction Hb as [|x l Hx _ IH]; simpl; [constructor|].
    destruct (has_status IN_PROGRESS x); [constructor; assumption|assumption]. }
  unfold active_count in Ha.
  destruct (List.filter (has_status IN_PROGRESS) l) as [|x rest] eqn:E;
    [contradiction Ha; reflexivity|].
  rewrite bool_decide_eq_false_2 by discriminate.
  inversion Hf as [|? ? Hx _]; subst. destruct Hx as (Hp & _).
  unfold lift. cbn [summary_loop]. rewrite Hp. reflexivity.
Qed.

Lemma batch_list_active data : forall i,
  active_count (batch_list i data) = batch_active_count data.
Proof.
  unfold batch_active_count.
  induction data as [|d data IH]; intros i; [reflexivity|].
  cbn [batch_list]. rewrite active_count_cons, (IH (i + 1)).
  unfold has_status, batch_todo. cbn [Todo.status List.filter].
  destruct (str_eqb (default PENDING (TodoData.status d)) IN_PROGRESS); reflexivity.
Qed.

(** *** Completing the active task *)

Lemma active_count_insert l i d d' :
  l !! i = Some d ->
  (active_count (<[i := d']> l) + (if has_status IN_PROGRESS d then 1 else 0)
   = active_count l + (if has_status IN_PROGRESS d' then 1 else 0))%nat.
Proof.
  revert i; induction l as [|x l IH]; intros [|i] H; simpl in H; try discriminate.
  - inversion H; subst. simpl. rewrite !active_count_cons. lia.
  - simpl. rewrite !active_count_cons. specialize (IH i H).
    change (list_insert i d' l) with (<[i := d']> l). lia.
Qed.

End TodoMore.

(** ** Properties of the task list engine *)

Section TodoProperties.
Import todo_system scenarios.

(** Property X1.  [add] numbers a task with the length of the list plus
    one and appends it: after any sequence of [add] calls the list is the
    old one followed by one fresh task per call, in call order, with ids
    [len+1 .. len+n], the given contents and priorities, status
    [pending], progress 0, no subtasks, an empty log and no start or
    completion stamp. *)
Theorem X1_add_numbers_from_length (clk : nat -> str) (items : list (str * str)) :
  forall s, exists new,
    todos (run clk (add_ops items) s) = todos s ++ new
    /\ map Todo.id new
       = map (fun k => Z.of_nat (length (todos s)) + Z.of_nat k) (seq 1 (length items))
    /\ map Todo.content new = map fst items
    /\ map Todo.priority new = map snd items
    /\ Forall is_fresh new.
Proof.
  induction items as [|[c p] items IH]; intros s.
  - exists []. simpl. rewrite app_nil_r.
    split; [reflexivity|]. split; [reflexivity|]. split; [reflexivity|].
    split; [reflexivity|constructor].
  - unfold run in *. cbn [add_ops map fold_left fst snd].
    destruct (exec_add clk c p s) as (d & -> & Hi & Hc' & Hp' & Hd).
    destruct (IH (mkTodoList (todos s ++ [d]) (S (clock s))))
      as (new & Ht & Hid & Hc & Hp & Hf).
    cbn [todos] in *. exists (d :: new).
    unfold add_ops in Ht. rewrite Ht, <- app_assoc. split; [reflexivity|].
    cbn [map length]. rewrite Hid, Hc, Hp, Hi, Hc', Hp', length_app. cbn [length seq map].
    split; [|split; [reflexivity|split; [reflexivity|]]].
    + apply (f_equal2 cons); [lia|]. rewrite <- (seq_shift (length items) 1), map_map.
      apply map_ext. intros k. lia.
    + constructor; assumption.
Qed.

(** Property X2.  Every method that looks a task up by id returns [None]
    ([False] for [log_execution]) and leaves the list and the clock as
    they were when no task has the id. *)
Theorem X2_unknown_id_changes_nothing (clk : nat -> str) (id : Z) (s : TodoList) :
  id ∉ map Todo.id (todos s) ->
  (forall c p, modify id c p s = (Return None, s))
  /\ delete id s = (Return None, s)
  /\ (forall st, update_status id st s = (Return None, s))
  /\ start_todo clk id s = (Return None, s)
  /\ (forall l, break_down_task clk id l s = (Return None, s))
  /\ (forall v, update_progress clk id v s = (Return None, s))
  /\ (forall sid, complete_subtask clk id sid s = (Return None, s))
  /\ complete_todo clk id s = (Return None, s)
  /\ (forall a de, log_execution clk id a de s = (Return false, s)).
Proof.
  intros H. apply find_todo_None in H.
  repeat split; intros;
    unfold modify, delete, update_status, start_todo, break_down_task,
      update_progress, complete_subtask, complete_todo, log_execution,
      mbind, M_bind, get_todos, lift;
    cbn [fst snd todos]; try (rewrite H); try reflexivity.
  - destruct (negb _); reflexivity.
  - rewrite (find_todo_subtask_None id sid (todos s) 0%nat H). reflexivity.
Qed.

Lemma X2_witness :
  (7 ∉ map Todo.id (todos two_todos))
  /\ delete 7 two_todos = (Return None, two_todos)
  /\ update_progress sample_clock 7 50 two_todos = (Return None, two_todos).
Proof.
  assert (H : 7 ∉ map Todo.id (todos two_todos)).
  { apply (bool_decide_unpack _). vm_compute. exact I. }
  split; [exact H|].
  destruct (X2_unknown_id_changes_nothing sample_clock 7 two_todos H)
    as (_ & Hd & _ & _ & _ & Hu & _).
  split; [exact Hd | apply Hu].
Defined.

(** Property X3.  [delete(id)] on an id that is in the list removes the
    first task with that id and returns it: the tasks before it do not
    have the id, the list is one shorter, and the tasks with other ids are
    kept in their order.  Later tasks keep their ids (nothing is
    renumbered); when the ids were distinct the id is gone. *)
Theorem X3_delete_removes_first_match (id : Z) (s : TodoList) :
  id ∈ map Todo.id (todos s) ->
  exists i d,
    delete id s
    = (Return (Some d), mkTodoList (take i (todos s) ++ drop (S i) (todos s)) (clock s))
    /\ todos s !! i = Some d /\ Todo.id d = id
    /\ Forall (fun x => Todo.id x <> id) (take i (todos s))
    /\ S (length (take i (todos s) ++ drop (S i) (todos s))) = length (todos s)
    /\ other_ids id (take i (todos s) ++ drop (S i) (todos s)) = other_ids id (todos s)
    /\ (NoDup (map Todo.id (todos s)) ->
        id ∉ map Todo.id (take i (todos s) ++ drop (S i) (todos s))).
Proof.
  intros Hin. destruct (find_todo_is_Some _ _ Hin) as [[i d] Hf].
  pose proof (find_todo_Some _ _ _ _ Hf) as [Hl Hid].
  exists i, d. unfold delete, mbind, M_bind, get_todos. cbn [fst snd todos].
  rewrite Hf. split; [reflexivity|]. split; [exact Hl|]. split; [exact Hid|].
  split; [apply (find_todo_first _ _ _ _ Hf)|].
  assert (Hsplit : todos s = take i (todos s) ++ d :: drop (S i) (todos s)).
  { rewrite <- (take_drop_middle _ _ _ Hl) at 1. reflexivity. }
  split; [|split].
  - rewrite Hsplit at 3. rewrite !length_app. simpl. lia.
  - rewrite Hsplit at 3. unfold other_ids. rewrite !List.filter_app. simpl.
    rewrite Hid, Z.eqb_refl. reflexivity.
  - intros Hnd. rewrite Hsplit in Hnd. rewrite map_app in Hnd. simpl in Hnd.
    apply NoDup_app in Hnd as (_ & Hdisj & Hnd2). apply NoDup_cons in Hnd2 as [Hn _].
    rewrite map_app, elem_of_app. intros [Hx|Hx].
    + apply (Hdisj _ Hx). rewrite Hid. left.
    + rewrite Hid in Hn. contradiction.
Qed.

Lemma X3_witness :
  (1 ∈ map Todo.id (todos two_todos))
  /\ exists i d,
       delete 1 two_todos
       = (Return (Some d),
          mkTodoList (take i (todos two_todos) ++ drop (S i) (todos two_todos))
                     (clock two_todos))
       /\ Todo.id d = 1.
Proof.
  assert (H : 1 ∈ map Todo.id (todos two_todos)).
  { apply (bool_decide_unpack _). vm_compute. exact I. }
  split; [exact H|].
  destruct (X3_delete_removes_first_match 1 two_todos H) as (i & d & Hd & _ & Hid & _).
  exists i, d. split; [exact Hd | exact Hid].
Defined.

(** Property X4.  [update_all] clears the list before it reads the
    records.  When a record has no [content] key the call raises
    [KeyError('content')] and the list is left holding only the tasks
    built from the records before it: the tasks that were there are
    lost. *)
Theorem X4_update_all_missing_content (data1 : list TodoData.t) (d : TodoData.t)
    (data2 : list TodoData.t) (s : TodoList) :
  Forall (fun x => is_Some (TodoData.content x)) data1 ->
  TodoData.content d = None ->
  update_all (data1 ++ d :: data2) s
  = (Raise (KeyError (u "content")), mkTodoList (batch_list 1 data1) (clock s)).
Proof.
  intros Hall Hd. unfold update_all, mbind, M_bind, put_todos. cbn [fst snd].
  assert (G : forall i s0,
             update_all_loop i (data1 ++ d :: data2) s0
             = (Raise (KeyError (u "content")),
                mkTodoList (todos s0 ++ batch_list i data1) (clock s0))).
  { clear s. induction Hall as [|x data1 [c Hc] Hrest IH]; intros i s0; simpl.
    - rewrite Hd, app_nil_r. destruct s0; reflexivity.
    - rewrite Hc. unfold mbind, M_bind, get_todos, put_todos. cbn [fst snd todos clock].
      rewrite IH. cbn [todos clock default]. rewrite <- app_assoc. reflexivity. }
  rewrite G. reflexivity.
Qed.

Lemma X4_witness :
  update_all (batch_active ++ TodoData.mk None (Some PENDING) None [] :: batch_pending)
             two_todos
  = (Raise (KeyError (u "content")),
     mkTodoList (batch_list 1 batch_active) (clock two_todos)).
Proof.
  apply (X4_update_all_missing_content batch_active
           (TodoData.mk None (Some PENDING) None []) batch_pending two_todos).
  - repeat constructor; simpl; eauto.
  - reflexivity.
Defined.

(** Property X5.  No method other than [delete] and [update_all] removes,
    reorders or renumbers a task, changes its [created_at], or drops or
    rewrites an entry of its execution log: after any sequence of the
    other calls the list holds later states of the old tasks, in the old
    order and at the old positions, followed by the tasks added since. *)
Theorem X5_history_is_append_only (clk : nat -> str) (ops : list op) (s : TodoList) :
  Forall (fun o => ~ rebuilds_list o) ops ->
  let s' := run clk ops s in
  steady (todos s) (todos s')
  /\ map Todo.id (todos s) `prefix_of` map Todo.id (todos s')
  /\ forall i d, todos s !! i = Some d ->
       exists d', todos s' !! i = Some d' /\ same_task d d'.
Proof.
  intros H s'.
  assert (Hs : steady (todos s) (todos s')).
  { unfold s'. clear s'. revert s H. induction ops as [|o ops IH]; intros s H; simpl.
    - apply steady_refl.
    - apply Forall_cons in H as [Ho H].
      eapply steady_trans; [apply (exec_steady clk); exact Ho|].
      apply IH. exact H. }
  split; [exact Hs|]. split; [apply steady_ids, Hs|].
  intros i d Hi. apply (steady_lookup _ _ _ _ Hs Hi).
Qed.

Lemma X5_witness :
  map Todo.id (todos two_todos)
  `prefix_of`
  map Todo.id
      (todos (run sample_clock
                  [StartTodo 2; UpdateProgress 2 100; Add (u "c") TODO_LOW;
                   UpdateStatus 1 COMPLETED]
                  two_todos)).
Proof.
  apply (X5_history_is_append_only sample_clock
           [StartTodo 2; UpdateProgress 2 100; Add (u "c") TODO_LOW;
            UpdateStatus 1 COMPLETED] two_todos).
  repeat constructor; simpl; intros [].
Defined.

(** Property X6.  The percentage [int((completed / total) * 100)] that
    [complete_subtask] stores, for every task of up to 100 subtasks: it
    is defined, lies in [0, 100], is the exact [floor(100 * completed /
    total)] or one below it, and is 100 exactly when all subtasks are
    completed. *)
Theorem X6_percent_bounds (completed_count total_count : Z) :
  0 <= completed_count <= total_count -> 1 <= total_count <= 100 ->
  exists p, percent completed_count total_count = Return p
            /\ 100 * completed_count / total_count - 1 <= p
               <= 100 * completed_count / total_count
            /\ 0 <= p <= 100
            /\ (p = 100 <-> completed_count = total_count).
Proof.
  intros Hc Ht.
  assert (Hin1 : In (Z.to_nat total_count) (seq 1 100)) by (apply in_seq; lia).
  assert (Hin2 : In (Z.to_nat completed_count) (seq 0 (S (Z.to_nat total_count))))
    by (apply in_seq; lia).
  pose proof (proj1 (forallb_forall _ _) percent_checked _ Hin1) as H1. cbv beta in H1.
  pose proof (proj1 (forallb_forall _ _) H1 _ Hin2) as H. cbv beta in H.
  clear H1. rewrite !Z2Nat.id in H by lia.
  unfold percent_in_bounds in H.
  destruct (percent completed_count total_count) as [p|e]; [|discriminate H].
  exists p. split; [reflexivity|].
  apply andb_true_iff in H as [H H4]. apply andb_true_iff in H as [H H3].
  apply andb_true_iff in H as [H1 H2]. apply bool_decide_eq_true in H4.
  assert (100 * completed_count / total_count <= 100)
    by (apply Z.div_le_upper_bound; lia).
  split; [lia|]. split; [lia|exact H4].
Qed.

Lemma X6_witness :
  exists p, percent 29 50 = Return p /\ 57 <= p <= 58 /\ 0 <= p <= 100.
Proof.
  destruct (X6_percent_bounds 29 50) as (p & Hp & Hb & Hr & _); [lia|lia|].
  exists p. split; [exact Hp|]. split; [|exact Hr].
  change (100 * 29 / 50) with 58 in Hb. lia.
Defined.

(** Property X7.  [complete_subtask(id, subtask_id)] when the first task
    with the id carries the subtask and an execution log.  The subtask is
    flagged, whether or not it was already, a [subtask_completed] entry
    is logged, and the progress becomes the percentage of flagged
    subtasks, of which there is at least one.  When all are flagged the
    call goes on to complete the task: status [completed], progress 100,
    [completed_at] stamped, a [completed] entry logged.  Otherwise the
    status is left alone. *)
Theorem X7_complete_subtask_found (clk : nat -> str) (id : Z) (sid : str)
    (s : TodoList) (i : nat) (d : Todo.t) (sts : list Subtask.t) (j : nat)
    (st : Subtask.t) (log : list LogEntry.t) (p : Z) :
  find_todo id (todos s) = Some (i, d) ->
  Todo.subtasks d = Some sts ->
  find_subtask sid sts = Some (j, st) ->
  Todo.execution_log d = Some log ->
  let done := Z.of_nat (length (List.filter Subtask.completed (mark_completed j sts))) in
  let total := Z.of_nat (length sts) in
  percent done total = Return p ->
  let entry :=
    LogEntry.mk (clk (clock s)) (u "subtask_completed")
                (u "完成子任务: " ++ Subtask.content st) in
  let d1 :=
    Todo.set_progress p
      (Todo.set_execution_log (log ++ [entry])
         (Todo.set_subtasks (mark_completed j sts) d)) in
  let d2 :=
    Todo.set_execution_log
      (log ++ [entry;
               LogEntry.mk (clk (S (S (clock s)))) (u "completed")
                           (u "任务完成: " ++ Todo.content d)])
      (Todo.set_completed_at (clk (S (clock s)))
         (Todo.set_progress 100
            (Todo.set_status COMPLETED (Todo.set_subtasks (mark_completed j sts) d)))) in
  1 <= done <= total
  /\ complete_subtask clk id sid s
     = if done =? total
       then (Return (Some d2), mkTodoList (<[i := d2]> (todos s)) (S (S (S (clock s)))))
       else (Return (Some d1), mkTodoList (<[i := d1]> (todos s)) (S (clock s))).
Proof.
  intros Hfind Hsts Hj Hlog done total Hp entry d1 d2.
  pose proof (find_subtask_Some _ _ _ _ Hj) as [Hjl _].
  pose proof (mark_completed_count _ _ _ Hjl) as Hcount.
  split; [unfold done, total; lia|].
  destruct s as [l0 c]. cbn [todos clock] in *.
  pose proof (id_found _ _ _ _ Hfind) as Hid.
  unfold complete_subtask.
  unfold mbind at 1. unfold M_bind at 1. unfold get_todos at 1. cbv iota beta. cbn [todos].
  unfold mbind at 1. unfold M_bind at 1. unfold lift at 1.
  rewrite (find_todo_subtask_found _ _ _ _ _ _ _ _ Hfind Hsts Hj 0%nat).
  cbv iota beta. cbn [Nat.add].
  rewrite (run_mutate0 _ _ _ _ Hfind).
  assert (Hset : set_completed j d = Todo.set_subtasks (mark_completed j sts) d).
  { unfold set_completed. rewrite Hsts. reflexivity. }
  rewrite Hset.
  rewrite (run_log_execution clk _ _ _ _ Hfind) with (log := log);
    [|exact Hid|exact Hlog].
  unfold mbind at 1. unfold M_bind at 1.
  rewrite (run_todo_at _ _ _ _ Hfind). cbv iota beta.
  cbn [mbind option_bind Todo.subtasks Todo.set_execution_log Todo.set_subtasks default].
  unfold Datatypes.id.
  assert (Hlen : length (mark_completed j sts) = length sts)
    by (unfold mark_completed; apply length_alter).
  rewrite Hlen. fold done. fold total.
  assert (H0 : (0 <? total) = true) by (apply Z.ltb_lt; unfold total; lia).
  rewrite H0.
  unfold mbind at 1. unfold M_bind at 1.
  unfold mbind at 1. unfold M_bind at 1. unfold lift at 1. rewrite Hp. cbv iota beta.
  rewrite (run_mutate _ _ _ _ Hfind).
  destruct (done =? total).
  - unfold mbind at 1. unfold M_bind at 1.
    rewrite (complete_todo_found clk _ _ _ _ _ (log ++ [entry]) _ Hfind);
      [|exact Hid|reflexivity].
    cbv iota beta. unfold mret at 1, M_ret at 1. cbv iota beta.
    rewrite (run_todo_at _ _ _ _ Hfind).
    unfold d2. simpl. rewrite <- app_assoc. reflexivity.
  - unfold mret at 1, M_ret at 1. cbv iota beta.
    rewrite (run_todo_at _ _ _ _ Hfind). reflexivity.
Qed.

Lemma X7_witness :
  exists r,
    complete_subtask sample_clock 1 (u "1-2") (broken_down 3 0) = r
    /\ (Todo.progress <$> todos r.2 !! 0%nat) = Some (Some 33).
Proof.
  eexists. split.
  - eapply (X7_complete_subtask_found sample_clock 1 (u "1-2") (broken_down 3 0));
      reflexivity.
  - reflexivity.
Defined.

(** Property X8.  [break_down_task(id, names)] on a task that carries an
    execution log replaces its subtasks by one per name, in order, none
    completed, logs a [breakdown] entry with their number, and leaves
    the status and the progress as they were.  The generated subtask ids
    [<id>-1 .. <id>-n] are pairwise different: looking one up finds the
    subtask at its own position. *)
Theorem X8_break_down_task_found (clk : nat -> str) (id : Z) (s : TodoList)
    (i : nat) (d : Todo.t) (log : list LogEntry.t) (subs : list str) :
  find_todo id (todos s) = Some (i, d) ->
  Todo.execution_log d = Some log ->
  let subtasks := enumerate_subtasks id 1 subs in
  let entry :=
    LogEntry.mk (clk (clock s)) (u "breakdown")
      (u "任务分解为" ++ str_of_int (Z.of_nat (length subs)) ++ u "个子任务") in
  let d' := Todo.set_execution_log (log ++ [entry]) (Todo.set_subtasks subtasks d) in
  break_down_task clk id subs s
  = (Return (Some d'), mkTodoList (<[i := d']> (todos s)) (S (clock s)))
  /\ map Subtask.content subtasks = subs
  /\ Forall (fun st => Subtask.completed st = false) subtasks
  /\ (forall k c, subs !! k = Some c ->
        find_subtask (subtask_id id k) subtasks
        = Some (k, Subtask.mk (subtask_id id k) c false)).
Proof.
  intros Hfind Hlog subtasks entry d'.
  destruct (enumerate_subtasks_spec id subs 1) as (Hc & Hf & Hlen).
  split; [|split; [exact Hc|split; [exact Hf|]]].
  - destruct s as [l0 c]. cbn [todos clock] in *.
    pose proof (id_found _ _ _ _ Hfind) as Hid.
    unfold break_down_task.
    unfold mbind at 1. unfold M_bind at 1. unfold get_todos at 1. cbv iota beta.
    cbn [todos]. rewrite Hfind. cbv iota beta.
    rewrite (run_mutate0 _ _ _ _ Hfind).
    rewrite (run_log_execution clk _ _ _ _ Hfind) with (log := log);
      [|exact Hid|exact Hlog].
    rewrite (run_todo_at _ _ _ _ Hfind). rewrite Hlen. reflexivity.
  - intros k c Hk. unfold subtask_id, subtasks.
    replace (Z.of_nat k + 1) with (1 + Z.of_nat k) by lia.
    apply find_subtask_enumerate, Hk.
Qed.

Lemma X8_witness :
  exists r,
    break_down_task sample_clock 2 [u "draft"; u "review"] two_todos = r
    /\ (Todo.subtasks <$> todos r.2 !! 1%nat)
       = Some (Some [Subtask.mk (u "2-1") (u "draft") false;
                     Subtask.mk (u "2-2") (u "review") false]).
Proof.
  eexists. split.
  - eapply (X8_break_down_task_found sample_clock 2 two_todos); reflexivity.
  - reflexivity.
Defined.

(** Property X9.  [get_todo_progress_summary] right after [update_all]:
    the tasks that [update_all] builds have no [progress] key, so the
    summary is the fixed text when no record asked for [in_progress] and
    the call raises [KeyError('progress')] as soon as one did.  The list
    is not changed either way. *)
Theorem X9_summary_after_update_all (data : list TodoData.t) (s : TodoList) :
  Forall (fun x => is_Some (TodoData.content x)) data ->
  let s1 := (update_all data s).2 in
  get_todo_progress_summary s1
  = if (batch_active_count data =? 0)%nat
    then (Return (u "当前没有正在进行的任务"), s1)
    else (Raise (KeyError (u "progress")), s1).
Proof.
  intros Hall s1. unfold s1. rewrite (update_all_ok _ _ Hall). cbn [snd].
  destruct (Nat.eqb_spec (batch_active_count data) 0) as [E|E].
  - apply summary_without_active. cbn [todos]. rewrite batch_list_active. exact E.
  - apply summary_of_basic; [apply batch_list_is_basic|].
    rewrite batch_list_active. exact E.
Qed.

Lemma X9_witness :
  get_todo_progress_summary (update_all batch_active two_todos).2
  = (Raise (KeyError (u "progress")), (update_all batch_active two_todos).2).
Proof.
  apply (X9_summary_after_update_all batch_active two_todos).
  repeat constructor; simpl; eauto.
Defined.

(** Property X10.  [complete_todo] on a task that carries an execution
    log sets status [completed], progress 100 and [completed_at],
    whatever the status was, and lowers the number of active tasks by one
    exactly when the task was active.  So once the only active task is
    completed, [start_todo] is no longer refused: on any task with a log
    it returns the task, now [in_progress]. *)
Theorem X10_completing_frees_the_slot (clk : nat -> str) (id : Z) (s : TodoList)
    (i : nat) (d : Todo.t) (log : list LogEntry.t) :
  find_todo id (todos s) = Some (i, d) ->
  Todo.execution_log d = Some log ->
  let s' := (complete_todo clk id s).2 in
  (active_count (todos s') + (if has_status IN_PROGRESS d then 1 else 0)
   = active_count (todos s))%nat
  /\ (Todo.status <$> todos s' !! i) = Some COMPLETED
  /\ (Todo.progress <$> todos s' !! i) = Some (Some 100)
  /\ (Todo.completed_at <$> todos s' !! i) = Some (Some (Some (clk (clock s))))
  /\ (has_status IN_PROGRESS d = true -> single_active (todos s) ->
      forall id2 i2 d2 log2,
        find_todo id2 (todos s') = Some (i2, d2) ->
        Todo.execution_log d2 = Some log2 ->
        exists d2',
          (start_todo clk id2 s').1 = Return (Some d2')
          /\ Todo.status d2' = IN_PROGRESS /\ Todo.id d2' = id2).
Proof.
  intros Hfind Hlog s'.
  pose proof (find_todo_Some _ _ _ _ Hfind) as [Hl Hid].
  pose proof (complete_todo_found clk id (todos s) i d d log (clock s) Hfind Hid Hlog) as H.
  cbv zeta in H. rewrite (insert_found _ _ _ _ Hfind) in H.
  assert (Hcount : (active_count (todos s') + (if has_status IN_PROGRESS d then 1 else 0)
                    = active_count (todos s))%nat).
  { unfold s'. destruct s as [l0 c]. cbn [todos clock] in *. rewrite H. cbn [snd todos].
    pose proof (active_count_insert l0 i d
                  (Todo.set_execution_log
                     (log ++ [LogEntry.mk (clk (S c)) (u "completed")
                                          (u "任务完成: " ++ Todo.content d)])
                     (Todo.set_completed_at (clk c)
                        (Todo.set_progress 100 (Todo.set_status COMPLETED d)))) Hl) as Hc.
    unfold has_status at 2 in Hc.
    cbn [Todo.status Todo.set_execution_log Todo.set_completed_at
         Todo.set_progress Todo.set_status] in Hc.
    change (str_eqb COMPLETED IN_PROGRESS) with false in Hc.
    rewrite Hc. apply Nat.add_0_r. }
  split; [exact Hcount|].
  assert (Hat : todos s' !! i
                = Some (Todo.set_execution_log
                          (log ++ [LogEntry.mk (clk (S (clock s))) (u "completed")
                                               (u "任务完成: " ++ Todo.content d)])
                          (Todo.set_completed_at (clk (clock s))
                             (Todo.set_progress 100 (Todo.set_status COMPLETED d))))).
  { unfold s'. destruct s as [l0 c]. cbn [todos clock] in *. rewrite H. cbn [snd todos].
    apply list_lookup_insert_eq. eapply lookup_lt_Some, Hl. }
  rewrite Hat. split; [reflexivity|]. split; [reflexivity|]. split; [reflexivity|].
  intros Hactive Hsingle id2 i2 d2 log2 Hf2 Hlog2.
  rewrite Hactive in Hcount. unfold single_active in Hsingle.
  assert (H0 : active_count (todos s') = 0%nat) by lia.
  pose proof (start_todo_found clk id2 s' i2 d2 log2 H0 Hf2 Hlog2) as Hstart.
  cbv zeta in Hstart. rewrite Hstart. eexists. split; [reflexivity|].
  split; [reflexivity|]. apply (find_todo_Some _ _ _ _ Hf2).
Qed.

Lemma X10_witness :
  active_count (todos first_started) = 1%nat
  /\ active_count (todos (complete_todo sample_clock 1 first_started).2) = 0%nat
  /\ exists d2',
       (start_todo sample_clock 2 (complete_todo sample_clock 1 first_started).2).1
       = Return (Some d2')
       /\ Todo.status d2' = IN_PROGRESS.
Proof.
  assert (Hf : exists i d log,
             find_todo 1 (todos first_started) = Some (i, d)
             /\ Todo.execution_log d = Some log
             /\ has_status IN_PROGRESS d = true).
  { do 3 eexists. split; [reflexivity|]. split; reflexivity. }
  destruct Hf as (i & d & log & Hf & Hl & Ha).
  destruct (X10_completing_frees_the_slot sample_clock 1 first_started i d log Hf Hl)
    as (_ & _ & _ & _ & Hs).
  split; [reflexivity|]. split; [reflexivity|].
  assert (Hf2 : exists i2 d2 log2,
             find_todo 2 (todos (complete_todo sample_clock 1 first_started).2)
             = Some (i2, d2)
             /\ Todo.execution_log d2 = Some log2).
  { do 3 eexists. split; reflexivity. }
  destruct Hf2 as (i2 & d2 & log2 & Hf2 & Hl2).
  destruct (Hs Ha) with (id2 := 2) (i2 := i2) (d2 := d2) (log2 := log2)
    as (d2' & Hd & Hst & _); [vm_compute; lia | exact Hf2 | exact Hl2 |].
  exists d2'. split; [exact Hd | exact Hst].
Defined.

End TodoProperties.

(** ** More on the parameter parser and the registry *)

Section RegistryMore.
Import function_registry.

Lemma filter_id_Forall {A} (P : A -> Prop) `{forall x, Decision (P x)} (l : list A) :
  Forall P l -> filter P l = l.
Proof.
  induction 1 as [|x l Hx _ IH]; [reflexivity|].
  rewrite filter_cons. destruct (decide (P x)); [|contradiction]. rewrite IH. reflexivity.
Qed.

Lemma find_char_None (c : N) (s : str) : Forall (fun d => d <> c) s -> find s [c] = None.
Proof.
  induction 1 as [|d s Hd _ IH]; [reflexivity|].
  simpl. destruct (N.eqb_spec c d) as [E|E]; [symmetry in E; contradiction|].
  simpl. rewrite IH. reflexivity.
Qed.

Lemma digits_Forall (s : str) (P : char -> Prop) :
  (forall c, is_ascii_digit c = true -> P c) ->
  forallb is_ascii_digit s = true -> Forall P s.
Proof.
  intros HP H. induction s as [|c s IH]; [constructor|].
  simpl in H. apply andb_true_iff in H as [Hc Hs]. constructor; auto.
Qed.

Lemma ascii_digits_isdigit (s : str) :
  forallb is_ascii_digit s = true -> forallb isdigit_char s = true.
Proof.
  induction s as [|c s IH]; [reflexivity|]. simpl. intros H.
  apply andb_true_iff in H as [Hc Hs]. rewrite (isdigit_char_ascii c Hc). exact (IH Hs).
Qed.

(** [parse_value] reads the text of an integer back as that integer. *)
Lemma parse_value_str_of_int (room : nat) (z : Z) :
  Z.abs z < 10 ^ 4300 -> parse_value room (VStr (str_of_int z)) = Return (VInt z).
Proof.
  intros Hz.
  destruct (str_of_int_length z 4300 Hz ltac:(lia)) as (neg & ds & E & Hne & Hd & Hv & Hlen).
  assert (Hd45 : Forall (fun c => c <> 45%N) ds)
    by (apply (digits_Forall ds); [|exact Hd]; intros c Hc ->; discriminate Hc).
  assert (Hd46 : Forall (fun c => c <> 46%N) ds)
    by (apply (digits_Forall ds); [|exact Hd]; intros c Hc ->; discriminate Hc).
  assert (Hsp : Forall (fun c => isspace c = false) (str_of_int z)).
  { rewrite E. apply Forall_app_2.
    - destruct neg; repeat constructor.
    - apply (digits_Forall ds); [apply digit_not_space|exact Hd]. }
  assert (Hnum : Forall numeric_char (str_of_int z)).
  { rewrite E. apply Forall_app_2.
    - destruct neg; [constructor; [right; left; reflexivity|constructor] | constructor].
    - apply (digits_Forall ds); [|exact Hd]. intros c Hc. left.
      apply isdigit_char_ascii, Hc. }
  assert (Hdec : decimals_value 0 ds = Some (digits_value ds))
    by (apply decimals_value_ascii, Hd).
  assert (Hlim : (length ds <=? int_max_str_digits)%nat = true)
    by (apply Nat.leb_le; exact Hlen).
  assert (Hint : int_of_str (str_of_int z) = Some z).
  { unfold int_of_str. rewrite (strip_id _ Hsp), E.
    destruct neg; simpl app.
    - cbn [split_sign N.eqb Pos.eqb]. rewrite Hlim, Hdec, <- Hv.
      rewrite bool_decide_eq_false_2 by exact Hne. reflexivity.
    - destruct ds as [|c ds']; [contradiction|].
      assert (Hc : (c =? 45)%N = false)
        by (apply N.eqb_neq; inversion Hd45; assumption).
      unfold split_sign. rewrite Hc, Hlim, Hdec, <- Hv.
      rewrite bool_decide_eq_false_2 by discriminate.
      reflexivity. }
  assert (Hdig : isdigit (remove_char 46%N (remove_char 45%N (str_of_int z))) = true).
  { pose proof (ascii_digits_isdigit ds Hd) as Hdd.
    rewrite E. unfold isdigit, remove_char, str. rewrite filter_app.
    rewrite (filter_id_Forall (fun d => d <> 45%N) ds Hd45).
    assert (Hs : filter (fun d : N => d <> 45%N) (if neg then [45%N] else []) = [])
      by (destruct neg; reflexivity).
    unfold char in *. rewrite Hs. simpl app.
    rewrite (filter_id_Forall (fun d => d <> 46%N) ds Hd46).
    rewrite Hdd.
    rewrite bool_decide_eq_false_2 by exact Hne. reflexivity. }
  assert (Hdot : contains (u ".") (str_of_int z) = false).
  { unfold contains. change (u ".") with [46%N]. rewrite find_char_None.
    - apply bool_decide_eq_false_2. intros [x Hx]. discriminate Hx.
    - rewrite E. apply Forall_app_2; [destruct neg; repeat constructor; discriminate|].
      exact Hd46. }
  destruct (str_of_int z) as [|c v'] eqn:Ev.
  { exfalso. destruct neg; [discriminate E|]. simpl in E. subst ds. contradiction. }
  inversion Hnum as [|? ? Hc Hrest]; subst.
  destruct (numeric_char_head c Hc) as (H123 & H91 & H116 & H102).
  rewrite (parse_value_not_json room (c :: v') c v' (strip_id _ Hsp) H123 H91).
  f_equal. unfold parse_scalar. rewrite bool_decide_eq_false_2.
  - rewrite Hdig, Hdot, Hint. reflexivity.
  - change (u "true") with [116%N; 114%N; 117%N; 101%N].
    change (u "false") with [102%N; 97%N; 108%N; 115%N; 101%N].
    rewrite !elem_of_cons, elem_of_nil. simpl.
    intros [H|[H|[]]]; inversion H; contradiction.
Qed.

End RegistryMore.

(** ** Text between delimiters *)

Section Delimited.

(** [x] is followed by [sub] and holds no earlier start of [sub]: the
    first occurrence of [sub] in [x ++ sub] is the one after [x]. *)
Definition ends_at (sub x : str) : Prop := find (x ++ sub) sub = Some (length x).

Lemma startswith_app_le (sub : str) : forall a rest : str,
  (length sub <= length a)%nat -> startswith (a ++ rest) sub = startswith a sub.
Proof.
  induction sub as [|c sub IH]; intros a rest Hlen; [reflexivity|].
  destruct a as [|d a]; simpl in Hlen; [lia|].
  simpl. rewrite IH by lia. reflexivity.
Qed.

Lemma find_ends_at (sub x rest : str) :
  ends_at sub x -> find (x ++ sub ++ rest) sub = Some (length x).
Proof.
  unfold ends_at. induction x as [|c x IH]; intros H.
  - simpl. apply find_startswith, startswith_app.
  - change ((c :: x) ++ sub ++ rest) with (c :: (x ++ sub ++ rest)).
    change ((c :: x) ++ sub) with (c :: (x ++ sub)) in H.
    cbn [find] in *.
    assert (Hs : startswith (c :: x ++ sub ++ rest) sub = startswith (c :: x ++ sub) sub).
    { change (c :: x ++ sub ++ rest) with ((c :: x) ++ sub ++ rest).
      rewrite app_assoc. apply startswith_app_le. simpl. rewrite length_app. lia. }
    rewrite Hs. destruct (startswith (c :: x ++ sub) sub); [discriminate H|].
    destruct (find (x ++ sub) sub) as [k|] eqn:F; [|discriminate H].
    simpl in H. inversion H; subst. rewrite IH by reflexivity. reflexivity.
Qed.

Lemma find_None_contains (s sub : str) : contains sub s = false -> find s sub = None.
Proof.
  unfold contains. intros H. apply bool_decide_eq_false in H.
  destruct (find s sub); [exfalso; apply H; eauto | reflexivity].
Qed.

Lemma drop_app_both {A} (l1 l2 l3 : list A) :
  drop (length l1 + length l2) (l1 ++ l2 ++ l3) = l3.
Proof. rewrite app_assoc, <- length_app. apply drop_app_length. Qed.

Lemma findall1_cons fuel (A B x rest : str) :
  ends_at B x ->
  re.findall1 (S fuel) A B (A ++ x ++ B ++ rest) = x :: re.findall1 fuel A B rest.
Proof.
  intros Hx. cbn [re.findall1].
  rewrite (find_startswith _ _ (startswith_app A _)). cbn [Nat.add].
  rewrite drop_app_length, (find_ends_at _ _ _ Hx).
  rewrite take_app_length, drop_app_both. reflexivity.
Qed.

Lemma findall2_cons fuel (A B C x y rest : str) :
  ends_at B x -> ends_at C y ->
  re.findall2 (S fuel) A B C (A ++ x ++ B ++ y ++ C ++ rest)
  = (x, y) :: re.findall2 fuel A B C rest.
Proof.
  intros Hx Hy. cbn [re.findall2].
  rewrite (find_startswith _ _ (startswith_app A _)). cbn [Nat.add].
  rewrite drop_app_length, (find_ends_at _ _ _ Hx).
  rewrite take_app_length, drop_app_both.
  rewrite (find_ends_at _ _ _ Hy), take_app_length, drop_app_both. reflexivity.
Qed.

Lemma findall1_no_match fuel (A B s : str) :
  find s A = None -> re.findall1 fuel A B s = [].
Proof. intros H. destruct fuel; [reflexivity|]. simpl. rewrite H. reflexivity. Qed.

Lemma findall2_no_match fuel (A B C s : str) :
  find s A = None -> re.findall2 fuel A B C s = [].
Proof. intros H. destruct fuel; [reflexivity|]. simpl. rewrite H. reflexivity. Qed.

End Delimited.

Section RegistryText.
Import function_registry.

(** The markup the parser reads, as the prompt asks the model to write it. *)
Definition parameter_xml (kv : str * str) : str :=
  (u "<parameter name=" ++ quote) ++ kv.1 ++ (quote ++ u ">") ++ kv.2
    ++ u "</parameter>".

Definition invoke_xml (name : str) (params : list (str * str)) : str :=
  (u "<invoke name=" ++ quote) ++ name ++ (quote ++ u ">")
    ++ concat (map parameter_xml params) ++ u "</invoke>".

Definition function_calls_xml (body : str) : str :=
  u "<function_calls>" ++ body ++ u "</function_calls>".

(** Names and values that do not run into the delimiter that follows. *)
Definition well_delimited (kv : str * str) : Prop :=
  ends_at (quote ++ u ">") kv.1 /\ ends_at (u "</parameter>") kv.2.

Lemma findall2_parameters (params : list (str * str)) : forall fuel,
  Forall well_delimited params ->
  (length params <= fuel)%nat ->
  re.findall2 fuel (u "<parameter name=" ++ quote) (quote ++ u ">") (u "</parameter>")
              (concat (map parameter_xml params))
  = params.
Proof.
  induction params as [|[k v] params IH]; intros fuel Hall Hfuel.
  - apply findall2_no_match. reflexivity.
  - destruct fuel as [|fuel]; [simpl in Hfuel; lia|].
    apply Forall_cons in Hall as [[Hk Hv] Hall]. cbn [fst snd] in *.
    cbn [map concat]. unfold parameter_xml at 1. cbn [fst snd].
    rewrite <- !app_assoc.
    rewrite !(app_assoc (u "<parameter name=") quote).
    rewrite !(app_assoc quote (u ">")).
    rewrite (findall2_cons fuel _ _ _ k v _ Hk Hv).
    rewrite IH; [reflexivity|exact Hall|simpl in Hfuel; lia].
Qed.

Lemma parameter_xml_length kv : (1 <= length (parameter_xml kv))%nat.
Proof. unfold parameter_xml. rewrite !length_app. simpl. lia. Qed.

Lemma concat_length_ge (params : list (str * str)) :
  (length params <= length (concat (map parameter_xml params)))%nat.
Proof.
  induction params as [|kv params IH]; simpl; [lia|].
  rewrite length_app. pose proof (parameter_xml_length kv). lia.
Qed.

Lemma dict_of_distinct {A} (pairs : list (str * A)) : forall acc,
  NoDup (map fst (acc ++ pairs)) ->
  fold_left (fun d kv => dict_set kv.1 kv.2 d) pairs acc = acc ++ pairs.
Proof.
  induction pairs as [|[k v] pairs IH]; intros acc Hnd; simpl.
  - rewrite app_nil_r. reflexivity.
  - assert (Hset : dict_set k v acc = acc ++ [(k, v)]).
    { assert (Hk : k ∉ map fst acc).
      { rewrite map_app in Hnd. apply NoDup_app in Hnd as (_ & Hd & _).
        intros Hin. apply (Hd _ Hin). simpl. left. }
      clear -Hk. induction acc as [|[k' v'] acc IH]; [reflexivity|].
      simpl in *. apply not_elem_of_cons in Hk as [Hne Hk].
      unfold str_eqb. rewrite bool_decide_eq_false_2 by congruence.
      rewrite (IH Hk). reflexivity. }
    rewrite Hset. rewrite IH; rewrite <- app_assoc; [reflexivity|exact Hnd].
Qed.

(** [parse_parameters] returns when every value is parsed, and then
    holds the names in the order of their first occurrence. *)
Lemma parse_parameters_values (room : nat) (params : list (str * str)) :
  forall (values : list value) (acc : kwargs),
    Forall2 (fun kv v => parse_value room (VStr kv.2) = Return v) params values ->
    parse_parameters room params acc
    = Return (fold_left (fun d (kv : str * value) => dict_set kv.1 kv.2 d)
                        (zip (map fst params) values) acc).
Proof.
  induction params as [|[k x] params IH]; intros values acc H.
  - inversion H; subst. reflexivity.
  - inversion H as [|? v ? values' Hv Hrest]; subst. cbn [fst snd] in *.
    cbn [parse_parameters]. rewrite Hv. cbn [mbind outcome_bind].
    rewrite (IH values' _ Hrest). reflexivity.
Qed.

(** It raises what the first value that is not parsed raises. *)
Lemma parse_parameters_raises (room : nat) (before : list (str * str)) (kv : str * str)
    (after : list (str * str)) (e : exn) :
  forall acc,
    Forall (fun kv => exists v, parse_value room (VStr kv.2) = Return v) before ->
    parse_value room (VStr kv.2) = Raise e ->
    parse_parameters room (before ++ kv :: after) acc = Raise e.
Proof.
  induction before as [|[k x] before IH]; intros acc Hall He.
  - destruct kv as [k x]. cbn [app parse_parameters]. cbn [snd] in He. rewrite He.
    reflexivity.
  - apply Forall_cons in Hall as [[v Hv] Hall]. cbn [snd] in Hv.
    cbn [app parse_parameters]. rewrite Hv. cbn [mbind outcome_bind].
    apply IH; assumption.
Qed.

(** [parse_xml_parameters] on well delimited parameters with distinct
    names, all of whose values are parsed. *)
Lemma parse_xml_parameters_xml (room : nat) (params : list (str * str))
    (values : list value) :
  Forall well_delimited params -> NoDup (map fst params) ->
  Forall2 (fun kv v => parse_value room (VStr kv.2) = Return v) params values ->
  parse_xml_parameters room (concat (map parameter_xml params))
  = Return (zip (map fst params) values).
Proof.
  intros Hall Hnd Hvalues. unfold parse_xml_parameters.
  rewrite (findall2_parameters params _ Hall (concat_length_ge params)).
  rewrite (parse_parameters_values room params values [] Hvalues).
  rewrite (dict_of_distinct _ []); [reflexivity|].
  simpl. rewrite fst_zip; [exact Hnd|].
  rewrite length_map. apply Forall2_length in Hvalues. lia.
Qed.

End RegistryText.

Section RegistryCalls.
Import function_registry.
Context {W : Type}.

Lemma length_S_of_app (a b : str) : a <> [] -> exists n, length (a ++ b) = S n.
Proof. destruct a; [contradiction|]. simpl. eauto. Qed.

(** One block holding one invoke: the block is found, the invoke is found
    in it, and its parameters are parsed and passed to [call]. *)
Lemma parse_and_execute_single (room : nat) (r : UnifiedFunctionRegistry W) (name : str)
    (params : list (str * str)) (w : W) :
  ends_at (quote ++ u ">") name ->
  ends_at (u "</invoke>") (concat (map parameter_xml params)) ->
  ends_at (u "</function_calls>") (invoke_xml name params) ->
  parse_and_execute room r (function_calls_xml (invoke_xml name params)) w
  = match parse_xml_parameters room (concat (map parameter_xml params)) with
    | Return parameters =>
        match call_with r name parameters w with
        | (Return result, w') => (Return [result], w')
        | (Raise e, w') => (Raise e, w')
        end
    | Raise e => (Raise e, w)
    end.
Proof.
  intros Hname Hparams Hbody. unfold parse_and_execute, function_calls_xml.
  destruct (length_S_of_app (u "<function_calls>")
              (invoke_xml name params ++ u "</function_calls>")) as [n ->];
    [discriminate|].
  rewrite <- (app_nil_r (u "</function_calls>")).
  rewrite (findall1_cons n _ _ _ [] Hbody).
  rewrite (findall1_no_match n (u "<function_calls>") (u "</function_calls>") []
             eq_refl).
  cbn [execute_blocks].
  destruct (length_S_of_app (u "<invoke name=" ++ quote)
              (name ++ (quote ++ u ">") ++ concat (map parameter_xml params)
                    ++ u "</invoke>")) as [m Hm]; [discriminate|].
  unfold invoke_xml at 1 2. rewrite Hm.
  rewrite <- (app_nil_r (u "</invoke>")).
  rewrite (findall2_cons m _ _ _ name _ [] Hname Hparams).
  rewrite (findall2_no_match m (u "<invoke name=" ++ quote) (quote ++ u ">")
             (u "</invoke>") [] eq_refl).
  cbn [execute_invokes]. unfold mbind, M_bind, mret, M_ret, lift.
  destruct (parse_xml_parameters room _) as [parameters|e]; [|reflexivity].
  destruct (call_with r name parameters w) as [[result|e] w']; reflexivity.
Qed.

Lemma dict_set_keys {A} (k : str) (v : A) (d : list (str * A)) (x : str) :
  x ∈ map fst (dict_set k v d) <-> x = k \/ x ∈ map fst d.
Proof.
  induction d as [|[k' v'] d IH]; simpl.
  - rewrite elem_of_cons, elem_of_nil. tauto.
  - unfold str_eqb. destruct (bool_decide_reflect (k' = k)) as [->|Hne]; simpl.
    + rewrite !elem_of_cons. tauto.
    + rewrite !elem_of_cons, IH. tauto.
Qed.

(** The parameters that come out hold every name that was written. *)
Lemma parsed_keys (room : nat) (matches : list (str * str)) :
  forall (acc parameters : kwargs) (x : str),
    parse_parameters room matches acc = Return parameters ->
    x ∈ map fst parameters <-> x ∈ map fst acc \/ x ∈ map fst matches.
Proof.
  induction matches as [|[k v] matches IH]; intros acc parameters x H.
  - cbn [parse_parameters] in H. inversion H; subst. simpl. rewrite elem_of_nil. tauto.
  - cbn [parse_parameters] in H.
    destruct (parse_value room (VStr v)) as [parsed|e]; [|discriminate H].
    cbn [mbind outcome_bind] in H.
    rewrite (IH _ _ x H), dict_set_keys. simpl. rewrite elem_of_cons. tauto.
Qed.

(** A call with a parameter called [self] or [name] raises. *)
Lemma call_with_positional (r : UnifiedFunctionRegistry W) (func_name : str)
    (parameters : kwargs) (w : W) :
  u "name" ∈ map fst parameters \/ u "self" ∈ map fst parameters ->
  exists key,
    List.find is_positional (map fst parameters) = Some key
    /\ call_with r func_name parameters w
       = (Raise (TypeError
                   (u "UnifiedFunctionRegistry.call() got multiple values for argument '"
                      ++ key ++ u "'")), w).
Proof.
  intros Hin. unfold call_with.
  destruct (List.find is_positional (map fst parameters)) as [key|] eqn:E.
  - exists key. split; reflexivity.
  - exfalso.
    assert (Hnone : forall x, x ∈ map fst parameters -> is_positional x = false).
    { intros x Hx. apply (find_none _ _ E). apply list_elem_of_In. exact Hx. }
    destruct Hin as [H|H]; apply Hnone in H; vm_compute in H; discriminate H.
Qed.

End RegistryCalls.

(** ** Properties of the parameter parser and the registry *)

Section RegistryProperties.
Import function_registry scenarios.

(** Property X11.  [parse_value] reads the decimal text of an integer
    back as that integer: [parse_value(str(n)) == n], for every [n]
    within the number of digits that [int] and [str] convert. *)
Theorem X11_parse_value_reads_integers (room : nat) (z : Z) :
  Z.abs z < 10 ^ 4300 -> parse_value room (VStr (str_of_int z)) = Return (VInt z).
Proof. apply parse_value_str_of_int. Qed.

Lemma X11_witness :
  parse_value 0 (VStr (str_of_int (-42))) = Return (VInt (-42))
  /\ parse_value 0 (VStr (str_of_int 0)) = Return (VInt 0).
Proof.
  split.
  - apply (X11_parse_value_reads_integers 0 (-42)). vm_compute. reflexivity.
  - apply (X11_parse_value_reads_integers 0 0). vm_compute. reflexivity.
Defined.

Lemma find_positional_None (keys : list str) :
  u "name" ∉ keys -> u "self" ∉ keys -> List.find is_positional keys = None.
Proof.
  intros Hn Hs. induction keys as [|k keys IH]; [reflexivity|].
  apply not_elem_of_cons in Hn as [Hn1 Hn2]. apply not_elem_of_cons in Hs as [Hs1 Hs2].
  cbn [List.find]. unfold is_positional at 1, str_eqb.
  rewrite !bool_decide_eq_false_2 by congruence. cbn [orb]. apply IH; assumption.
Qed.

Lemma Forall_exists_Forall2 {A B} (R : A -> B -> Prop) (l : list A) :
  Forall (fun x => exists y, R x y) l -> exists l', Forall2 R l l'.
Proof.
  induction 1 as [|x l [y Hy] _ [l' IH]].
  - exists []. constructor.
  - exists (y :: l'). constructor; assumption.
Qed.

(** Property X12.  A call written in the markup the parser reads, one
    [<invoke>] in one [<function_calls>] block with any number of
    parameters.  The names and values must end at their closing
    delimiter, that is, not hold an earlier start of it.  When
    [parse_value] returns for every value, and the names are distinct
    and none is [name] or [self], the registered function runs once,
    with the parsed values and the parameters in the written order, and
    the one result of [call] is returned.  When [parse_value] raises for
    a value, as [json.loads] does on an integer of too many digits and
    on nesting beyond the recursion limit, the exception of the first
    such value leaves [parse_and_execute] and no function runs. *)
Theorem X12_written_call_is_executed {W : Type} (room : nat)
    (r : UnifiedFunctionRegistry W) (name : str) (params : list (str * str)) (w : W) :
  ends_at (quote ++ u ">") name ->
  Forall well_delimited params ->
  ends_at (u "</invoke>") (concat (map parameter_xml params)) ->
  ends_at (u "</function_calls>") (invoke_xml name params) ->
  (forall values : list value,
      Forall2 (fun kv v => parse_value room (VStr kv.2) = Return v) params values ->
      NoDup (map fst params) ->
      u "name" ∉ map fst params -> u "self" ∉ map fst params ->
      let kw := zip (map fst params) values in
      parse_and_execute room r (function_calls_xml (invoke_xml name params)) w
      = (Return [(call r name kw w).1], (call r name kw w).2))
  /\ (forall (before : list (str * str)) (kv : str * str) (after : list (str * str))
             (e : exn),
         params = before ++ kv :: after ->
         Forall (fun kv => exists v, parse_value room (VStr kv.2) = Return v) before ->
         parse_value room (VStr kv.2) = Raise e ->
         parse_and_execute room r (function_calls_xml (invoke_xml name params)) w
         = (Raise e, w)).
Proof.
  intros Hname Hall Hparams Hbody.
  rewrite (parse_and_execute_single room r name params w Hname Hparams Hbody).
  split.
  - intros values Hvalues Hnd Hn Hs kw.
    rewrite (parse_xml_parameters_xml room params values Hall Hnd Hvalues). fold kw.
    assert (Hkeys : map fst kw = map fst params).
    { unfold kw. apply fst_zip. rewrite length_map.
      apply Forall2_length in Hvalues. lia. }
    unfold call_with. rewrite Hkeys, (find_positional_None _ Hn Hs).
    destruct (call r name kw w). reflexivity.
  - intros before kv after e -> Hbefore He.
    unfold parse_xml_parameters.
    rewrite (findall2_parameters _ _ Hall (concat_length_ge _)).
    rewrite (parse_parameters_raises room before kv after e [] Hbefore He).
    reflexivity.
Qed.

Lemma X12_witness :
  parse_and_execute 1 sample_registry
    (function_calls_xml
       (invoke_xml (u "greet") [(u "who", u "bob"); (u "times", u " １２３ ")]))
    0%nat
  = (Return [mkFunctionResult true (u "hello") (u "greet")
               (Some [(u "who", VStr (u "bob")); (u "times", VInt 123)]) [] false],
     1%nat)
  /\ parse_and_execute 1 sample_registry
       (function_calls_xml
          (invoke_xml (u "greet") [(u "who", u "bob"); (u "items", u "[[1]]")]))
       0%nat
     = (Raise (json.too_deep "array"), 0%nat).
Proof.
  split.
  - apply (proj1 (X12_written_call_is_executed 1 sample_registry (u "greet")
                    [(u "who", u "bob"); (u "times", u " １２３ ")] 0%nat
                    ltac:(vm_compute; reflexivity)
                    ltac:(repeat constructor; vm_compute; reflexivity)
                    ltac:(vm_compute; reflexivity)
                    ltac:(vm_compute; reflexivity))
             [VStr (u "bob"); VInt 123]).
    + repeat constructor; vm_compute; reflexivity.
    + apply (bool_decide_unpack _). vm_compute. exact I.
    + apply (bool_decide_unpack _). vm_compute. exact I.
    + apply (bool_decide_unpack _). vm_compute. exact I.
  - apply (proj2 (X12_written_call_is_executed 1 sample_registry (u "greet")
                    [(u "who", u "bob"); (u "items", u "[[1]]")] 0%nat
                    ltac:(vm_compute; reflexivity)
                    ltac:(repeat constructor; vm_compute; reflexivity)
                    ltac:(vm_compute; reflexivity)
                    ltac:(vm_compute; reflexivity))
             [(u "who", u "bob")] (u "items", u "[[1]]") []).
    + reflexivity.
    + repeat constructor. eexists. vm_compute. reflexivity.
    + vm_compute. reflexivity.
Defined.

(** Property X13.  A parameter called [name] or [self] never reaches the
    function.  [self.call(func_name, **parameters)] then receives the
    argument twice, and the [TypeError] is raised outside the [try] of
    [call], so that it leaves [parse_and_execute] with no result and no
    function run.  Only an exception of [parse_value] can come before
    it, and then too nothing runs. *)
Theorem X13_parameter_called_name {W : Type} (room : nat)
    (r : UnifiedFunctionRegistry W) (name : str) (params : list (str * str)) (w : W) :
  ends_at (quote ++ u ">") name ->
  Forall well_delimited params ->
  ends_at (u "</invoke>") (concat (map parameter_xml params)) ->
  ends_at (u "</function_calls>") (invoke_xml name params) ->
  u "name" ∈ map fst params \/ u "self" ∈ map fst params ->
  exists e,
    parse_and_execute room r (function_calls_xml (invoke_xml name params)) w
    = (Raise e, w)
    /\ (Forall (fun kv => exists v, parse_value room (VStr kv.2) = Return v) params ->
        exists key,
          (key = u "self" \/ key = u "name")
          /\ e = TypeError
                   (u "UnifiedFunctionRegistry.call() got multiple values for argument '"
                      ++ key ++ u "'")).
Proof.
  intros Hname Hall Hparams Hbody Hin.
  rewrite (parse_and_execute_single room r name params w Hname Hparams Hbody).
  unfold parse_xml_parameters.
  rewrite (findall2_parameters params _ Hall (concat_length_ge params)).
  destruct (parse_parameters room params []) as [parameters|e] eqn:Ep.
  - assert (Hkeys : u "name" ∈ map fst parameters \/ u "self" ∈ map fst parameters).
    { destruct Hin as [H|H]; [left|right];
        apply (parsed_keys room params [] parameters _ Ep); right; exact H. }
    destruct (call_with_positional r name parameters w Hkeys) as (key & Hfind & ->).
    eexists. split; [reflexivity|]. intros _. exists key. split; [|reflexivity].
    apply find_some in Hfind as [_ Hkey].
    unfold is_positional, str_eqb in Hkey. apply orb_true_iff in Hkey as [H|H];
      apply bool_decide_eq_true in H; auto.
  - exists e. split; [reflexivity|]. intros Hparse.
    destruct (Forall_exists_Forall2 _ _ Hparse) as [values Hvalues].
    rewrite (parse_parameters_values room params values [] Hvalues) in Ep.
    discriminate Ep.
Qed.

(** Property X14.  Text without a complete [<function_calls>] block runs
    nothing: when the opening or the closing tag is missing,
    [parse_and_execute] returns the empty list and no function is
    called, whatever [<invoke>] elements the text holds. *)
Theorem X14_no_block_no_call {W : Type} (room : nat) (r : UnifiedFunctionRegistry W)
    (xml_content : str) (w : W) :
  contains (u "<function_calls>") xml_content = false
  \/ contains (u "</function_calls>") xml_content = false ->
  parse_and_execute room r xml_content w = (Return [], w).
Proof.
  intros H. unfold parse_and_execute.
  assert (G : re.findall1 (length xml_content) (u "<function_calls>")
                          (u "</function_calls>") xml_content = []).
  { destruct H as [H|H].
    - apply findall1_no_match, find_None_contains, H.
    - destruct (length xml_content) as [|fuel]; [reflexivity|]. cbn [re.findall1].
      destruct (find xml_content (u "<function_calls>")) as [i|]; [|reflexivity].
      rewrite find_None_contains; [reflexivity|].
      apply (contains_false_inner _ (take (i + length (u "<function_calls>")) xml_content)
                                  _ []).
      rewrite app_nil_r, take_drop. exact H. }
  rewrite G. reflexivity.
Qed.

Lemma X13_witness :
  parse_and_execute 1 sample_registry
    (function_calls_xml
       (invoke_xml (u "greet") [(u "who", u "bob"); (u "self", u "me"); (u "name", u "x")]))
    0%nat
  = (Raise (TypeError
              (u "UnifiedFunctionRegistry.call() got multiple values for argument 'self'")),
     0%nat).
Proof.
  destruct (X13_parameter_called_name 1 sample_registry (u "greet")
              [(u "who", u "bob"); (u "self", u "me"); (u "name", u "x")] 0%nat)
    as (e & He & _).
  - vm_compute. reflexivity.
  - repeat constructor; vm_compute; reflexivity.
  - vm_compute. reflexivity.
  - vm_compute. reflexivity.
  - left. apply (bool_decide_unpack _). vm_compute. exact I.
  - vm_compute. reflexivity.
Defined.

Lemma X14_witness :
  parse_and_execute 1 sample_registry (invoke_xml (u "greet") []) 0%nat
  = (Return [], 0%nat).
Proof.
  apply (X14_no_block_no_call 1 sample_registry (invoke_xml (u "greet") []) 0%nat).
  left. vm_compute. reflexivity.
Defined.

(** Property X15.  What the model is told about a call: [format_results]
    of the result of [call] is one [<success>] element holding
    [str(result)] when the function returned without asking for a
    confirmation, and otherwise one [<failed>] element holding the text
    that asks for the confirmation, or the text of the exception, or the
    fixed text for an exception without text, or the [not found]
    message. *)
Theorem X15_call_result_formatted {W : Type} (r : UnifiedFunctionRegistry W)
    (name : str) (kw : kwargs) (w : W) :
  format_results [(call r name kw w).1]
  = u "<function_response>"
      ++ match _functions r !! name with
         | None =>
             format_result_xml (u "Function '" ++ name ++ u "' not found") false
         | Some func =>
             match (func kw w).1 with
             | HReturn result =>
                 format_result_xml (py_str result) (negb (asks_confirmation result))
             | HRaise str_e =>
                 format_result_xml
                   (if bool_decide (str_e = []) then u "未知错误" else str_e) false
             end
         end
      ++ u "</function_response>".
Proof.
  unfold format_results. rewrite bool_decide_eq_false_2 by discriminate.
  cbn [map concat]. rewrite app_nil_r. do 2 f_equal.
  destruct (_functions r !! name) as [func|] eqn:E; unfold call, handler in *; rewrite E.
  - destruct (func kw w) as [[result|str_e] w']; cbn [fst].
    + destruct (asks_confirmation result); reflexivity.
    + reflexivity.
  - cbn [fst needs_confirmation success error].
    rewrite bool_decide_eq_false_2; [reflexivity|].
    intros H. apply (f_equal length) in H. rewrite length_app in H.
    change (length (u "Function '")) with 10%nat in H. simpl in H. lia.
Qed.

(** Property X16.  [register] binds the name to the function given last:
    a call under that name runs it, whatever was registered there
    before, and calls under other names are not affected. *)
Theorem X16_register_then_call {W : Type} (r : UnifiedFunctionRegistry W)
    (name : str) (func : handler W) (other : str) (kw : kwargs) (w : W) :
  call (register name func r) name kw w = call (mkRegistry {[name := func]}) name kw w
  /\ _functions (register name func r) !! name = Some func
  /\ (other <> name -> call (register name func r) other kw w = call r other kw w).
Proof.
  unfold call, register, handler. cbn [_functions].
  rewrite lookup_insert_eq, lookup_singleton_eq.
  split; [reflexivity|]. split; [reflexivity|].
  intros Hne. rewrite lookup_insert_ne by congruence. reflexivity.
Qed.

Lemma X16_witness :
  call (register (u "greet") (fun _ n => (HRaise (u "busy"), n)) sample_registry)
       (u "count") [] 0%nat
  = call sample_registry (u "count") [] 0%nat.
Proof.
  apply (X16_register_then_call sample_registry (u "greet")
           (fun _ n => (HRaise (u "busy"), n)) (u "count") [] 0%nat).
  discriminate.
Defined.

End RegistryProperties.

(** ** More on searching text *)

Section SearchMore.

Lemma find_Some_length (s sub : str) : forall i,
  find s sub = Some i -> (i + length sub <= length s)%nat.
Proof.
  induction s as [|c s IH]; intros i H; cbn [find] in H.
  - destruct (startswith [] sub) eqn:E; [|discriminate H].
    inversion H; subst. apply startswith_inv in E as [r E].
    rewrite E, length_app. lia.
  - destruct (startswith (c :: s) sub) eqn:E.
    + inversion H; subst. apply startswith_inv in E as [r E].
      rewrite E, length_app. lia.
    + destruct (find s sub) as [j|]; [|discriminate H]. simpl in H.
      inversion H; subst. specialize (IH j eq_refl). simpl. lia.
Qed.

(** Text added at the end does not move the first occurrence. *)
Lemma find_app_Some (s sub t : str) : forall i,
  find s sub = Some i -> find (s ++ t) sub = Some i.
Proof.
  induction s as [|c s IH]; intros i H.
  - cbn [find] in H. destruct (startswith [] sub) eqn:E; [|discriminate H].
    inversion H; subst. apply startswith_inv in E as [r E].
    symmetry in E. apply app_eq_nil in E as [-> _]. destruct t; reflexivity.
  - pose proof (find_Some_length _ _ _ H) as Hlen.
    change ((c :: s) ++ t) with (c :: (s ++ t)). cbn [find] in *.
    change (c :: (s ++ t)) with ((c :: s) ++ t).
    rewrite startswith_app_le by lia.
    destruct (startswith (c :: s) sub); [exact H|].
    destruct (find s sub) as [j|]; [|discriminate H].
    rewrite (IH j eq_refl). exact H.
Qed.

Lemma contains_app_r (sub s t : str) :
  contains sub s = true -> contains sub (s ++ t) = true.
Proof.
  intros H. exact (contains_app sub [] s t H).
Qed.

Lemma search1_app (A B s t call : str) :
  re.search1 A B s = Some call -> re.search1 A B (s ++ t) = Some call.
Proof.
  unfold re.search1. intros H.
  destruct (find s A) as [i|] eqn:Hi; [|discriminate H]. cbn [mbind option_bind] in *.
  rewrite (find_app_Some _ _ t _ Hi). cbn [mbind option_bind].
  pose proof (find_Some_length _ _ _ Hi) as Hlen.
  rewrite drop_app_le by lia.
  destruct (find (drop (i + length A) s) B) as [j|] eqn:Hj; [|discriminate H].
  cbn [mbind option_bind] in *.
  rewrite (find_app_Some _ _ t _ Hj). cbn [mbind option_bind].
  pose proof (find_Some_length _ _ _ Hj) as Hlen2.
  rewrite take_app_le by lia. exact H.
Qed.

(** An occurrence of [sub] that a text [S ++ c] has and [S] has not starts
    in the last [length sub - 1] characters of [S] or later. *)
Lemma contains_suffix (sub S c P B : str) :
  contains sub (S ++ c) = true -> contains sub S = false ->
  S = P ++ B -> (length sub <= Datatypes.S (length B))%nat \/ P = [] ->
  contains sub (B ++ c) = true.
Proof.
  intros Hc Hs -> HB. apply contains_true in Hc as (a & b & Hab).
  rewrite <- app_assoc in Hab.
  apply app_eq_app in Hab as [l [[HP HT]|[Ha HBc]]].
  - destruct l as [|x l].
    + apply contains_true. exists [], b. simpl in HT. rewrite <- HT. reflexivity.
    + exfalso. destruct HB as [HB| ->]; [|destruct a; discriminate HP].
      rewrite app_assoc in HT.
      apply app_eq_app in HT as [l' [[H1 H2]|[H1 H2]]].
      * pose proof (f_equal length H1) as Hlen.
        rewrite !length_app in Hlen. simpl in Hlen.
        assert (l' = []) by (destruct l'; [reflexivity|simpl in Hlen; lia]). subst l'.
        rewrite app_nil_r in H1.
        assert (E : contains sub ((a ++ x :: l) ++ B) = true).
        { apply contains_true. exists a, []. rewrite app_nil_r, <- app_assoc.
          f_equal. symmetry. exact H1. }
        rewrite HP in Hs. rewrite E in Hs. discriminate Hs.
      * assert (E : contains sub ((a ++ x :: l) ++ B) = true).
        { apply contains_true. exists a, l'. rewrite <- app_assoc. f_equal. exact H1. }
        rewrite HP in Hs. rewrite E in Hs. discriminate Hs.
  - apply contains_true. exists l, b. exact HBc.
Qed.

End SearchMore.

(** ** More on the stream detector *)

Section DetectorMore.
Import chat_handler.

Lemma last_n_all n (s : str) : (length s <= n)%nat -> last_n n s = s.
Proof.
  unfold last_n. intros H. replace (length s - n)%nat with 0%nat by lia. reflexivity.
Qed.

Lemma last_n_app n (S c : str) : last_n n (last_n n S ++ c) = last_n n (S ++ c).
Proof.
  destruct (Nat.le_gt_cases (length S) n) as [Hle|Hgt].
  - rewrite (last_n_all n S Hle). reflexivity.
  - unfold last_n. rewrite !length_app, length_drop.
    replace (length S - (length S - n) + length c - n)%nat with (length c) by lia.
    replace (length S + length c - n)%nat with ((length S - n) + length c)%nat by lia.
    rewrite <- drop_drop. rewrite (drop_app_le S c (length S - n)) by lia. reflexivity.
Qed.

(** The detector has not seen the opening tag in the text [S] fed so far. *)
Definition seeking (S : str) (d : StreamFunctionDetector) : Prop :=
  start_tag_found d = false /\ function_hint_shown d = false
  /\ buffer d = last_n 20 S /\ contains OPEN_TAG S = false.

Lemma seeking_reset : seeking [] reset.
Proof. repeat split. Qed.

(** The 20 characters kept are enough: the buffer followed by the chunk
    holds the tag exactly when the whole text does. *)
Lemma seeking_test S d chunk :
  seeking S d ->
  contains OPEN_TAG (buffer d ++ chunk) = contains OPEN_TAG (S ++ chunk).
Proof.
  intros (_ & _ & Hb & Hs). rewrite Hb.
  destruct (last_n_suffix 20 S) as [P HP].
  destruct (contains OPEN_TAG (S ++ chunk)) eqn:E.
  - apply (contains_suffix OPEN_TAG S chunk P (last_n 20 S) E Hs HP).
    destruct (Nat.le_gt_cases (length S) 20) as [Hle|Hgt].
    + right. rewrite (last_n_all 20 S Hle) in HP.
      apply (f_equal length) in HP. rewrite length_app in HP.
      destruct P; [reflexivity|simpl in HP; lia].
    + left. unfold last_n. rewrite length_drop.
      change (length OPEN_TAG) with 16%nat. lia.
  - apply (contains_false_inner OPEN_TAG P _ []).
    rewrite app_nil_r, app_assoc, <- HP. exact E.
Qed.

Lemma seeking_step S d chunk :
  seeking S d -> contains OPEN_TAG (S ++ chunk) = false ->
  exists d', feed_chunk chunk d = ((false, None, chunk), d') /\ seeking (S ++ chunk) d'.
Proof.
  intros Hd Hc. pose proof (seeking_test S d chunk Hd) as Ht. rewrite Hc in Ht.
  destruct Hd as (Hs & Hh & Hb & HS).
  unfold feed_chunk. rewrite Hs, Ht. cbn [negb].
  eexists. split; [reflexivity|]. repeat split; cbn [start_tag_found function_hint_shown
                                                     chat_handler.buffer];
    try assumption.
  rewrite Hb. destruct (20 <? length (last_n 20 S ++ chunk))%nat eqn:E.
  - apply last_n_app.
  - apply Nat.ltb_ge in E. rewrite <- last_n_app. symmetry. apply last_n_all, E.
Qed.

Lemma seeking_feed_all pre : forall S d rest,
  seeking S d -> contains OPEN_TAG (S ++ concat pre) = false ->
  exists steps d',
    feed_all (pre ++ rest) d = steps ++ feed_all rest d'
    /\ map fst steps = map (fun c => (false, None, c)) pre
    /\ seeking (S ++ concat pre) d'.
Proof.
  induction pre as [|c pre IH]; intros S d rest Hd Hc.
  - exists [], d. simpl. rewrite app_nil_r. auto.
  - cbn [concat] in Hc. rewrite app_assoc in Hc.
    assert (Hc1 : contains OPEN_TAG (S ++ c) = false).
    { apply (contains_false_inner OPEN_TAG [] _ (concat pre)). exact Hc. }
    destruct (seeking_step S d c Hd Hc1) as (d1 & Hstep & Hd1).
    destruct (IH (S ++ c) d1 rest Hd1 Hc) as (steps & d' & Hall & Hmap & Hd').
    exists (((false, None, c), d1) :: steps), d'.
    cbn [app feed_all]. rewrite Hstep. cbn [snd]. rewrite Hall.
    split; [reflexivity|]. split; [cbn [map fst]; rewrite Hmap; reflexivity|].
    cbn [concat]. rewrite app_assoc. exact Hd'.
Qed.

Lemma check_end_spec d clean :
  let st := check_end d clean in
  st.2 = d
  /\ (st.1 = (false, None, clean)
      \/ exists call, st.1 = (true, Some call, [])
                      /\ in_function_block d = true
                      /\ contains CLOSE_TAG (buffer d) = true
                      /\ re.search1 OPEN_TAG CLOSE_TAG (buffer d) = Some call).
Proof.
  unfold check_end.
  destruct (in_function_block d) eqn:E1; cbn [andb]; [|split; [reflexivity|left; reflexivity]].
  destruct (contains CLOSE_TAG (buffer d)) eqn:E2; [|split; [reflexivity|left; reflexivity]].
  destruct (re.search1 OPEN_TAG CLOSE_TAG (buffer d)) as [call|] eqn:E3;
    (split; [reflexivity|]); [right; exists call; auto | left; reflexivity].
Qed.

(** The chunk that completes the opening tag. *)
Lemma detect_step S d chunk :
  seeking S d -> contains OPEN_TAG (S ++ chunk) = true ->
  let shown := match find chunk OPEN_TAG with Some k => take k chunk | None => [] end in
  let st := feed_chunk chunk d in
  start_tag_found st.2 = true /\ in_function_block st.2 = true
  /\ (st.1 = (false, None, shown ++ HINT) \/ exists call, st.1 = (true, Some call, [])).
Proof.
  intros Hd Hc shown st. pose proof (seeking_test S d chunk Hd) as Ht. rewrite Hc in Ht.
  destruct Hd as (Hs & Hh & Hb & HS).
  unfold st, feed_chunk. rewrite Hs, Ht, Hh. cbn [negb].
  assert (Hf : is_Some (find (buffer d ++ chunk) OPEN_TAG)).
  { unfold contains in Ht. apply bool_decide_eq_true in Ht. exact Ht. }
  destruct Hf as [k ->]. fold shown.
  match goal with
  | |- context [check_end ?d0 ?c0] =>
      destruct (check_end_spec d0 c0) as [H2 H1]; cbv zeta in H1, H2
  end.
  rewrite H2. cbn [start_tag_found in_function_block].
  split; [reflexivity|]. split; [reflexivity|].
  destruct H1 as [H1|(call & H1 & _)]; [left; exact H1 | right; exists call; exact H1].
Qed.

(** After the opening tag, nothing is shown any more. *)
Lemma found_step d chunk :
  start_tag_found d = true ->
  let st := feed_chunk chunk d in
  st.1.2 = [] /\ start_tag_found st.2 = true
  /\ in_function_block st.2 = in_function_block d.
Proof.
  intros Hs st. unfold st, feed_chunk. rewrite Hs. cbn [negb].
  match goal with
  | |- context [check_end ?d0 ?c0] =>
      destruct (check_end_spec d0 c0) as [H2 H1]; cbv zeta in H1, H2
  end.
  rewrite H2. cbn [start_tag_found in_function_block].
  split; [|split; reflexivity].
  destruct H1 as [->|(call & -> & _)]; reflexivity.
Qed.

Lemma found_feed_all chunks : forall d,
  start_tag_found d = true ->
  Forall (fun st => st.1.2 = [] /\ start_tag_found st.2 = true) (feed_all chunks d).
Proof.
  induction chunks as [|c chunks IH]; intros d Hs; cbn [feed_all]; constructor.
  - destruct (found_step d c Hs) as (H1 & H2 & _). auto.
  - apply IH. apply (found_step d c Hs).
Qed.

(** Once a step has reported a complete block, so does every later one. *)
Lemma stop_is_kept chunk d call d' :
  feed_chunk chunk d = ((true, Some call, []), d') ->
  forall chunk', exists d'', feed_chunk chunk' d' = ((true, Some call, []), d'').
Proof.
  intros H.
  assert (G : start_tag_found d' = true /\ in_function_block d' = true
              /\ contains CLOSE_TAG (buffer d') = true
              /\ re.search1 OPEN_TAG CLOSE_TAG (buffer d') = Some call).
  { assert (K : forall d0 c1,
               check_end d0 c1 = ((true, Some call, []), d') ->
               start_tag_found d0 = true ->
               start_tag_found d' = true /\ in_function_block d' = true
               /\ contains CLOSE_TAG (buffer d') = true
               /\ re.search1 OPEN_TAG CLOSE_TAG (buffer d') = Some call).
    { intros d0 c1 Hce Hs0.
      destruct (check_end_spec d0 c1) as [H2 H1]. cbv zeta in H1, H2.
      rewrite Hce in H1, H2. cbn [fst snd] in H1, H2. subst d0.
      destruct H1 as [H1|(call' & H1 & Hb & Hc & Hsearch)]; [discriminate H1|].
      inversion H1; subst call'. auto. }
    unfold feed_chunk in H.
    destruct (negb (start_tag_found d)) eqn:Es.
    - destruct (contains OPEN_TAG (buffer d ++ chunk)); [|discriminate H].
      destruct (find (buffer d ++ chunk) OPEN_TAG);
        [destruct (negb (function_hint_shown d))|];
        cbv beta iota zeta in H; apply K in H; auto.
    - apply negb_false_iff in Es. apply K in H; auto. }
  destruct G as (Hs & Hb & Hc & Hsearch). intros chunk'.
  unfold feed_chunk. rewrite Hs. cbn [negb]. unfold check_end.
  cbn [in_function_block chat_handler.buffer]. rewrite Hb.
  rewrite (contains_app_r _ _ chunk' Hc). cbn [andb].
  rewrite (search1_app _ _ _ chunk' _ Hsearch). eexists. reflexivity.
Qed.

End DetectorMore.

(** ** Properties of the stream detector *)

Section DetectorProperties.
Import chat_handler scenarios.

(** Property X17.  A stream whose text holds the opening tag, however the
    tag is cut over chunks.  Let [chunk] be the first chunk with which the
    text so far holds the tag.  The chunks before it are shown unchanged
    and stop nothing.  At [chunk] the detector enters the block: it shows
    the one-time hint, preceded by the part of [chunk] before the tag when
    the whole tag lies in [chunk], or it reports a complete block at once.
    From then on every chunk is hidden. *)
Theorem X17_tag_found_across_chunks (pre : list str) (chunk : str) (post : list str) :
  contains OPEN_TAG (concat pre) = false ->
  contains OPEN_TAG (concat pre ++ chunk) = true ->
  let steps := feed_all (pre ++ chunk :: post) reset in
  let shown := match find chunk OPEN_TAG with Some k => take k chunk | None => [] end in
  map fst (take (length pre) steps) = map (fun c => (false, None, c)) pre
  /\ (exists st, steps !! length pre = Some st
                 /\ (st.1 = (false, None, shown ++ HINT)
                     \/ exists call, st.1 = (true, Some call, [])))
  /\ Forall (fun st => start_tag_found st.2 = true) (drop (length pre) steps)
  /\ Forall (fun st => st.1.2 = []) (drop (S (length pre)) steps).
Proof.
  intros Hpre Hchunk steps shown.
  destruct (seeking_feed_all pre [] reset (chunk :: post) seeking_reset Hpre)
    as (steps0 & d' & Hall & Hmap & Hd').
  cbn [app] in Hd'.
  assert (Hlen : length steps0 = length pre).
  { rewrite <- (length_map fst steps0), Hmap, length_map. reflexivity. }
  destruct (detect_step (concat pre) d' chunk Hd' Hchunk) as (Hs & Hb & Hst).
  assert (Hsteps : steps = steps0 ++ feed_chunk chunk d'
                                  :: feed_all post (feed_chunk chunk d').2)
    by exact Hall.
  clearbody steps. subst steps. rewrite <- Hlen.
  split; [|split; [|split]].
  - rewrite take_app_length. exact Hmap.
  - exists (feed_chunk chunk d'). split; [|exact Hst].
    apply list_lookup_middle. reflexivity.
  - rewrite drop_app_length. constructor; [exact Hs|].
    eapply Forall_impl; [apply found_feed_all, Hs|]. intros st [_ H]. exact H.
  - change (steps0 ++ ?x :: ?r) with (steps0 ++ [x] ++ r).
    rewrite app_assoc.
    replace (S (length steps0)) with (length (steps0 ++ [feed_chunk chunk d']))
      by (rewrite length_app; simpl; lia).
    rewrite drop_app_length.
    eapply Forall_impl; [apply found_feed_all, Hs|]. intros st [H _]. exact H.
Qed.

Lemma X17_witness :
  map fst (take 1 (feed_all three_chunks reset)) = [(false, None, u "hello <func")]
  /\ Forall (fun st => st.1.2 = []) (drop 2 (feed_all three_chunks reset)).
Proof.
  destruct (X17_tag_found_across_chunks [u "hello <func"] (u "tion_calls><invoke")
              [u " name=" ++ function_registry.quote ++ u "x" ++ function_registry.quote
                 ++ u "></invoke></function_calls> world"])
    as (H1 & _ & _ & H4); [reflexivity|reflexivity|].
  split; [exact H1 | exact H4].
Defined.

(** Property X18.  The detector does not leave a block by itself: once a
    chunk has made it report a complete block, every further chunk makes
    it report the same block again, until [reset] is called. *)
Theorem X18_stop_is_kept (chunk : str) (d : StreamFunctionDetector) (call : str)
    (d' : StreamFunctionDetector) (more : list str) :
  feed_chunk chunk d = ((true, Some call, []), d') ->
  Forall (fun st => st.1 = (true, Some call, [])) (feed_all more d').
Proof.
  intros H. revert chunk d d' H. induction more as [|c more IH]; intros chunk d d' H.
  - constructor.
  - cbn [feed_all]. destruct (stop_is_kept chunk d call d' H c) as [d'' Hc].
    constructor; [rewrite Hc; reflexivity|].
    rewrite Hc. cbn [snd]. apply (IH c d' d'' Hc).
Qed.

Lemma X18_witness :
  Forall (fun st => st.1 = (true, Some full_block, []))
         (feed_all [u " and"; u " more"]
                   (feed_chunk (full_block ++ u " world") reset).2).
Proof.
  apply (X18_stop_is_kept (full_block ++ u " world") reset full_block _
           [u " and"; u " more"]).
  reflexivity.
Defined.

End DetectorProperties.

(** ** Properties of the session manager *)

Section SessionProperties.
Import session_manager scenarios.

Lemma write_allowed (w : World) (file : path) :
  write_denied w file = false ->
  negb (has_dir w file.1) && mkdir_denied w file.1 = false
  /\ open_denied w file = false /\ dump_denied w file = false.
Proof.
  unfold write_denied. intros H.
  apply orb_false_elim in H as [H Hdump]. apply orb_false_elim in H as [Hdir Hopen].
  auto.
Qed.

Lemma can_make (w : World) (date_dir : str) :
  has_dir w date_dir = true \/ mkdir_denied w date_dir = false ->
  negb (has_dir w date_dir) && mkdir_denied w date_dir = false.
Proof. intros [-> | ->]; [reflexivity | apply andb_false_r]. Qed.

(** [add_message] when the session file can be written and encoded. *)
Lemma add_message_saved (system_clock : nat -> instant) (w : World)
    (id role content : str) :
  current_session_id (self w) = Some id -> id <> [] ->
  let r := clock_reads w in
  let file := (today (system_clock (4 + r)%nat), id ++ u ".json") in
  write_denied w file = false ->
  let context' :=
    current_context (self w) ++ [mkMessage role content (isoformat (system_clock r))] in
  let document :=
    mkSessionData id (isoformat (system_clock (2 + r)%nat))
                  (isoformat (system_clock (3 + r)%nat)) context' in
  encodable_document document = true ->
  add_message system_clock role content w
  = (Return tt,
     mkWorld
       (mkSessionManager (Some id) context' (time (system_clock (1 + r)%nat))
                         (session_timeout (self w)))
       (<[file := Document document]> (files w))
       (made file.1 w) (mkdir_denied w) (open_denied w)
       (dump_denied w) (strerror w) (5 + r)%nat
       (stdout w)).
Proof.
  intros Hid Hne r file Hw context' document Henc.
  destruct (write_allowed w file Hw) as (Hdir & Hopen & Hdump). cbn [fst file] in Hdir.
  rewrite (run_add_message system_clock w id role content Hid Hne). cbv zeta.
  fold r. rewrite Hdir. fold file. rewrite Hopen, Hdump. fold context'. fold document.
  rewrite Henc. reflexivity.
Qed.

(** Property X19.  [add_message] with a current session whose file can be
    written and whose text UTF-8 can encode: the message, stamped with
    the first clock reading, is appended to the context in memory, the
    activity time is refreshed, and the session file is rewritten so
    that it holds exactly the context in memory; its directory is there
    afterwards, no other file is touched and nothing is printed.
    [get_current_context] then ends with the new role and content,
    without the timestamp. *)
Theorem X19_add_message_is_saved (system_clock : nat -> instant) (w : World)
    (id role content : str) :
  current_session_id (self w) = Some id -> id <> [] ->
  let r := clock_reads w in
  let file := (today (system_clock (4 + r)%nat), id ++ u ".json") in
  write_denied w file = false ->
  let context' :=
    current_context (self w) ++ [mkMessage role content (isoformat (system_clock r))] in
  let document :=
    mkSessionData id (isoformat (system_clock (2 + r)%nat))
                  (isoformat (system_clock (3 + r)%nat)) context' in
  encodable_document document = true ->
  let w' :=
    mkWorld
      (mkSessionManager (Some id) context' (time (system_clock (1 + r)%nat))
                        (session_timeout (self w)))
      (<[file := Document document]> (files w))
      (made file.1 w) (mkdir_denied w) (open_denied w)
      (dump_denied w) (strerror w) (5 + r)%nat
      (stdout w) in
  add_message system_clock role content w = (Return tt, w')
  /\ (get_current_context w').1
     = Return (map (fun msg => (session_manager.role msg, session_manager.content msg))
                   (current_context (self w)) ++ [(role, content)]).
Proof.
  intros Hid Hne r file Hw context' document Henc w'.
  split.
  - exact (add_message_saved system_clock w id role content Hid Hne Hw Henc).
  - unfold get_current_context, mbind, M_bind, get_self, mret, M_ret. cbn.
    unfold context'. rewrite map_app. reflexivity.
Qed.

Lemma X19_witness :
  (get_current_context
     (add_message sample_instants (u "user") (u "hi")
                  (create_new_session sample_instants empty_logs).2).2).1
  = Return [(u "user", u "hi")].
Proof.
  edestruct (X19_add_message_is_saved sample_instants
               (create_new_session sample_instants empty_logs).2
               (u "session_001") (u "user") (u "hi")) as [H1 H2];
    [vm_compute; reflexivity | discriminate | vm_compute; reflexivity
     | vm_compute; reflexivity |].
  rewrite H1. exact H2.
Defined.

(** Property X20.  A session file that cannot be written does not stop
    the conversation, as long as the day's directory is there or can be
    made: [add_message] still returns, the message is in the context in
    memory, the activity time is refreshed and one line, the warning with
    the text of the exception, is printed.  When the file cannot be
    opened no file is changed; when the device does not take the text,
    or the write stops at text that UTF-8 cannot encode, the file is
    left with the beginning of the document.  But when the day's
    directory cannot be made, [add_message] raises, after it has put the
    message in memory: the path is computed outside the [try]. *)
Theorem X20_save_failure_is_not_fatal (system_clock : nat -> instant) (w : World)
    (id role content : str) :
  current_session_id (self w) = Some id -> id <> [] ->
  let r := clock_reads w in
  let day := today (system_clock (4 + r)%nat) in
  let file := (day, id ++ u ".json") in
  let context' :=
    current_context (self w) ++ [mkMessage role content (isoformat (system_clock r))] in
  let me' :=
    mkSessionManager (Some id) context' (time (system_clock (1 + r)%nat))
                     (session_timeout (self w)) in
  let document :=
    mkSessionData id (isoformat (system_clock (2 + r)%nat))
                  (isoformat (system_clock (3 + r)%nat)) context' in
  let after files' stdout' :=
    mkWorld me' files' (made day w) (mkdir_denied w) (open_denied w)
            (dump_denied w) (strerror w)
            (5 + r)%nat stdout' in
  (has_dir w day = true \/ mkdir_denied w day = false ->
   (open_denied w file = true ->
    add_message system_clock role content w
    = (Return tt,
       after (files w)
             (stdout w ++ [u "⚠️  会话保存失败: " ++ strerror w (at_open file)])))
   /\ (open_denied w file = false -> dump_denied w file = true ->
       add_message system_clock role content w
       = (Return tt,
          after (<[file := Partial document]> (files w))
                (stdout w ++ [u "⚠️  会话保存失败: " ++ strerror w (at_write file)])))
   /\ (open_denied w file = false -> dump_denied w file = false ->
       encodable_document document = false ->
       add_message system_clock role content w
       = (Return tt,
          after (<[file := Partial document]> (files w))
                (stdout w ++ [u "⚠️  会话保存失败: " ++ strerror w (at_encode document)]))))
  /\ (has_dir w day = false -> mkdir_denied w day = true ->
      add_message system_clock role content w
      = (Raise (OSError (strerror w (at_mkdir day))),
         mkWorld me' (files w) (dirs w) (mkdir_denied w) (open_denied w)
                 (dump_denied w) (strerror w)
                 (5 + r)%nat (stdout w))).
Proof.
  intros Hid Hne r day file context' me' document after.
  pose proof (run_add_message system_clock w id role content Hid Hne) as H.
  cbv zeta in H. fold r in H. fold day in H. fold file in H. fold context' in H.
  fold me' in H. fold document in H.
  split; [intros Hdir; split; [|split]|].
  - intros Hopen. rewrite H, (can_make w day Hdir), Hopen. reflexivity.
  - intros Hopen Hdump. rewrite H, (can_make w day Hdir), Hopen, Hdump. reflexivity.
  - intros Hopen Hdump Henc.
    rewrite H, (can_make w day Hdir), Hopen, Hdump, Henc. reflexivity.
  - intros Hdir Hdenied. rewrite H, Hdir, Hdenied. reflexivity.
Qed.

(** A world in which the session files cannot be opened, one in which no
    directory can be made, and one whose disk is full. *)
Definition locked_files : World :=
  mkWorld (mkSessionManager (Some (u "session_001")) [] (float_of_int 0) 1800)
          ∅ ∅ (fun _ => false) (fun _ => true) (fun _ => false) sample_strerror 0 [].

Definition locked_logs : World :=
  mkWorld (mkSessionManager (Some (u "session_001")) [] (float_of_int 0) 1800)
          ∅ ∅ (fun _ => true) (fun _ => false) (fun _ => false) sample_strerror 0 [].

Definition full_disk : World :=
  mkWorld (mkSessionManager (Some (u "session_001")) [] (float_of_int 0) 1800)
          ∅ ∅ (fun _ => false) (fun _ => false) (fun _ => true) sample_strerror 0 [].

Lemma X20_witness :
  (add_message sample_instants (u "user") (u "hi") locked_files).1 = Return tt
  /\ stdout (add_message sample_instants (u "user") (u "hi") locked_files).2
     = [u "⚠️  会话保存失败: [Errno 13] Permission denied: 'logs/2025-08-28/session_001.json'"]
  /\ files (add_message sample_instants (u "user") (u "hi") locked_files).2 = ∅
  /\ (exists document,
        files (add_message sample_instants (u "user") [55296%N]
                 (create_new_session sample_instants empty_logs).2).2 !! session_file
        = Some (Partial document))
  /\ (exists document,
        files (add_message sample_instants (u "user") (u "hi") full_disk).2
          !! session_file
        = Some (Partial document))
  /\ stdout (add_message sample_instants (u "user") (u "hi") full_disk).2
     = [u "⚠️  会话保存失败: [Errno 28] No space left on device"]
  /\ (add_message sample_instants (u "user") (u "hi") locked_logs).1
     = Raise (OSError (u "[Errno 13] Permission denied: 'logs/2025-08-28'")).
Proof.
  destruct (X20_save_failure_is_not_fatal sample_instants locked_files
              (u "session_001") (u "user") (u "hi") eq_refl ltac:(discriminate))
    as [H1 _].
  destruct (H1 (or_intror eq_refl)) as [Hopen _]. specialize (Hopen eq_refl).
  destruct (X20_save_failure_is_not_fatal sample_instants full_disk
              (u "session_001") (u "user") (u "hi") eq_refl ltac:(discriminate))
    as [H4 _].
  destruct (H4 (or_intror eq_refl)) as (_ & Hdump & _).
  specialize (Hdump eq_refl eq_refl).
  destruct (X20_save_failure_is_not_fatal sample_instants
              (create_new_session sample_instants empty_logs).2
              (u "session_001") (u "user") [55296%N]
              ltac:(vm_compute; reflexivity) ltac:(discriminate))
    as [H2 _].
  lapply H2; [clear H2; intros (_ & _ & Henc) | left; vm_compute; reflexivity].
  lapply Henc; [clear Henc; intros Henc | vm_compute; reflexivity].
  lapply Henc; [clear Henc; intros Henc | vm_compute; reflexivity].
  lapply Henc; [clear Henc; intros Henc | vm_compute; reflexivity].
  destruct (X20_save_failure_is_not_fatal sample_instants locked_logs
              (u "session_001") (u "user") (u "hi") eq_refl ltac:(discriminate))
    as [_ H3].
  lapply H3; [clear H3; intros H3 | vm_compute; reflexivity].
  specialize (H3 eq_refl).
  rewrite Hopen, Henc, Hdump, H3.
  split; [reflexivity|]. split; [vm_compute; reflexivity|]. split; [reflexivity|].
  split; [eexists; cbn [snd files]; apply lookup_insert_eq|].
  split; [eexists; cbn [snd files]; apply lookup_insert_eq|].
  split; vm_compute; reflexivity.
Defined.

(** Property X21.  [create_new_session], in full.  It makes the day's
    directory before anything else: when that cannot be done the call
    raises and the manager is as it was.  Otherwise it names the session
    after the number of session files of the day, plus one, and switches
    to it before it writes the file: the id is set, the context in
    memory is emptied and the activity time refreshed.  It then makes
    the directory of the day again, at a later clock reading, and writes
    the file, which then holds the new id and no messages, replacing
    whatever a file of that name held.  When the directory cannot be
    made, the file cannot be opened, the device does not take the text
    or the text cannot be encoded, the call raises and leaves the
    manager on a session without a file, or with the beginning of
    one. *)
Theorem X21_create_new_session (system_clock : nat -> instant) (w : World) :
  let r := clock_reads w in
  let day0 := today (system_clock r) in
  let id := u "session_" ++ format_03d (session_count day0 w + 1) in
  let day := today (system_clock (4 + r)%nat) in
  let file := (day, id ++ u ".json") in
  let me' :=
    mkSessionManager (Some id) [] (time (system_clock (1 + r)%nat))
                     (session_timeout (self w)) in
  let document :=
    mkSessionData id (isoformat (system_clock (2 + r)%nat))
                  (isoformat (system_clock (3 + r)%nat)) [] in
  let w0 :=
    mkWorld (self w) (files w) (made day0 w) (mkdir_denied w) (open_denied w)
            (dump_denied w) (strerror w) r (stdout w) in
  let after files' :=
    mkWorld me' files' (made day w0) (mkdir_denied w) (open_denied w)
            (dump_denied w) (strerror w)
            (5 + r)%nat (stdout w) in
  create_new_session system_clock w
  = if negb (has_dir w day0) && mkdir_denied w day0
    then (Raise (OSError (strerror w (at_mkdir day0))),
          mkWorld (self w) (files w) (dirs w) (mkdir_denied w) (open_denied w)
                  (dump_denied w) (strerror w) (1 + r)%nat (stdout w))
    else if negb (has_dir w0 day) && mkdir_denied w day
    then (Raise (OSError (strerror w (at_mkdir day))),
          mkWorld me' (files w) (made day0 w) (mkdir_denied w) (open_denied w)
                  (dump_denied w) (strerror w) (5 + r)%nat (stdout w))
    else if open_denied w file
    then (Raise (OSError (strerror w (at_open file))), after (files w))
    else if dump_denied w file
    then (Raise (OSError (strerror w (at_write file))),
          after (<[file := Partial document]> (files w)))
    else if encodable_document document
    then (Return id, after (<[file := Document document]> (files w)))
    else (Raise (UnicodeEncodeError (strerror w (at_encode document))),
          after (<[file := Partial document]> (files w))).
Proof.
  intros r day0 id day file me' document w0 after.
  unfold create_new_session, _generate_session_id.
  unfold mbind at 1. unfold M_bind at 1. unfold mbind at 1. unfold M_bind at 1.
  rewrite run_get_today_dir. fold r. fold day0.
  destruct (negb (has_dir w day0) && mkdir_denied w day0) eqn:E0; [reflexivity|].
  cbv iota beta.
  set (w1 := mkWorld (self w) (files w) (made day0 w) (mkdir_denied w) (open_denied w)
                     (dump_denied w) (strerror w) (S r) (stdout w)).
  unfold mbind at 1. unfold M_bind at 1. unfold get at 1. cbv iota beta.
  unfold mret at 1. unfold M_ret at 1. cbv iota beta.
  change (u "session_"
            ++ format_03d
                 (Z.of_nat (length (List.filter
                                      (fun f : path * Content =>
                                         str_eqb f.1.1 day0 && is_session_file f.1.2)
                                      (map_to_list (files w1)))) + 1))
    with id.
  set (m2 := set_current_session_id (Some id) (self w)).
  set (m3 := set_current_context [] m2).
  set (w2 := mkWorld m2 (files w) (made day0 w) (mkdir_denied w) (open_denied w)
                     (dump_denied w) (strerror w) (1 + r)%nat (stdout w)).
  set (w3 := mkWorld m3 (files w) (made day0 w) (mkdir_denied w) (open_denied w)
                     (dump_denied w) (strerror w) (1 + r)%nat (stdout w)).
  set (w4 := mkWorld m3 (files w) (made day0 w) (mkdir_denied w) (open_denied w)
                     (dump_denied w) (strerror w) (2 + r)%nat (stdout w)).
  set (w5 := mkWorld me' (files w) (made day0 w) (mkdir_denied w) (open_denied w)
                     (dump_denied w) (strerror w) (2 + r)%nat (stdout w)).
  set (w6 := mkWorld me' (files w) (made day0 w) (mkdir_denied w) (open_denied w)
                     (dump_denied w) (strerror w) (3 + r)%nat (stdout w)).
  set (w7 := mkWorld me' (files w) (made day0 w) (mkdir_denied w) (open_denied w)
                     (dump_denied w) (strerror w) (4 + r)%nat (stdout w)).
  assert (E2 : set_self (set_current_session_id (Some id)) w1 = (Return tt, w2))
    by reflexivity.
  assert (E3 : set_self (set_current_context []) w2 = (Return tt, w3)) by reflexivity.
  assert (E4 : now system_clock w3 = (Return (system_clock (1 + r)%nat), w4))
    by reflexivity.
  assert (E5 : set_self (set_last_activity_time (time (system_clock (1 + r)%nat))) w4
               = (Return tt, w5)) by reflexivity.
  assert (E6 : now system_clock w5 = (Return (system_clock (2 + r)%nat), w6))
    by reflexivity.
  assert (E7 : now system_clock w6 = (Return (system_clock (3 + r)%nat), w7))
    by reflexivity.
  pose proof (run_get_session_file_path system_clock w7 id) as E8. cbv zeta in E8.
  change (today (system_clock (clock_reads w7))) with day in E8.
  change (has_dir w7 day) with (has_dir w0 day) in E8.
  change (made day w7) with (made day w0) in E8.
  cbn [w7 self files dirs mkdir_denied open_denied
       dump_denied strerror clock_reads stdout] in E8.
  fold file in E8.
  clearbody w2 w3 w4 w5 w6 m2 m3.
  run_step E2. run_step E3. run_step E4. run_step E5. run_step E6. run_step E7.
  unfold mbind at 1. unfold M_bind at 1. rewrite E8. clear E8.
  destruct (negb (has_dir w0 day) && mkdir_denied w day) eqn:E1; [reflexivity|].
  cbv iota beta.
  set (w8 := mkWorld me' (files w) (made day w0) (mkdir_denied w) (open_denied w)
                     (dump_denied w) (strerror w) (S (4 + r)) (stdout w)).
  assert (Hdir : has_dir w8 file.1 = true) by (apply (has_dir_made w0); reflexivity).
  unfold mbind at 1. unfold M_bind at 1.
  destruct (open_denied w file) eqn:Eo.
  - rewrite (run_write_json_denied w8 file _ Eo). reflexivity.
  - rewrite (run_write_json w8 file _ Hdir Eo). fold document.
    change (dump_denied w8 file) with (dump_denied w file).
    destruct (dump_denied w file); [reflexivity|].
    destruct (encodable_document document); reflexivity.
Qed.

(** The ways of [create_new_session] on the examples. *)
Example create_new_session_examples :
  create_new_session sample_instants locked_logs
  = (Raise (OSError (u "[Errno 13] Permission denied: 'logs/2025-08-28'")),
     mkWorld (self locked_logs) ∅ ∅ (fun _ => true) (fun _ => false) (fun _ => false)
             sample_strerror 1 [])
  /\ (create_new_session sample_instants locked_files).1
     = Raise (OSError
                (u "[Errno 13] Permission denied: 'logs/2025-08-28/session_001.json'"))
  /\ current_session_id (self (create_new_session sample_instants locked_files).2)
     = Some (u "session_001")
  /\ files (create_new_session sample_instants locked_files).2 = ∅
  /\ (create_new_session sample_instants full_disk).1
     = Raise (OSError (u "[Errno 28] No space left on device"))
  /\ (create_new_session sample_instants empty_logs).1 = Return (u "session_001")
  /\ dirs (create_new_session sample_instants empty_logs).2 = {[u "2025-08-28"]}.
Proof.
  repeat split; vm_compute; reflexivity.
Qed.

(** Property X22.  Without a current session nothing is written: before
    any session is created or loaded, [add_message] keeps the message in
    memory only, and [clear_current_session] only empties the context;
    the files, the directories and the printed lines stay as they
    were. *)
Theorem X22_no_session_nothing_written (system_clock : nat -> instant) (w : World)
    (role content : str) :
  current_session_id (self w) = None ->
  let r := clock_reads w in
  add_message system_clock role content w
  = (Return tt,
     mkWorld
       (mkSessionManager None
          (current_context (self w) ++ [mkMessage role content (isoformat (system_clock r))])
          (time (system_clock (1 + r)%nat)) (session_timeout (self w)))
       (files w) (dirs w) (mkdir_denied w) (open_denied w)
       (dump_denied w) (strerror w) (2 + r)%nat
       (stdout w))
  /\ clear_current_session system_clock w
     = (Return tt,
        mkWorld
          (mkSessionManager None [] (last_activity_time (self w))
                            (session_timeout (self w)))
          (files w) (dirs w) (mkdir_denied w) (open_denied w) (dump_denied w) (strerror w) r
          (stdout w)).
Proof.
  intros Hid r. split.
  - rewrite (run_add_message_no_session system_clock w role content (or_introl Hid)).
    cbv zeta. rewrite Hid. reflexivity.
  - unfold clear_current_session.
    unfold mbind, M_bind, get_self, set_self, mret, M_ret. cbn.
    rewrite Hid. unfold set_current_context. cbn. rewrite Hid. reflexivity.
Qed.

Lemma X22_witness :
  files (add_message sample_instants (u "user") (u "hi") empty_logs).2 = ∅
  /\ dirs (add_message sample_instants (u "user") (u "hi") empty_logs).2 = ∅.
Proof.
  destruct (X22_no_session_nothing_written sample_instants empty_logs
              (u "user") (u "hi")) as [H _]; [reflexivity|].
  rewrite H. split; reflexivity.
Defined.

(** Property X23.  [clear_current_session] with a current session whose
    file can be written and whose id and time stamps UTF-8 can encode
    empties the context in memory and rewrites the session file with an
    empty message list: the history on disk is erased as well. *)
Theorem X23_clear_erases_the_file (system_clock : nat -> instant) (w : World)
    (id : str) :
  current_session_id (self w) = Some id -> id <> [] ->
  let r := clock_reads w in
  let file := (today (system_clock (2 + r)%nat), id ++ u ".json") in
  write_denied w file = false ->
  let document :=
    mkSessionData id (isoformat (system_clock r)) (isoformat (system_clock (1 + r)%nat))
                  [] in
  encodable_document document = true ->
  clear_current_session system_clock w
  = (Return tt,
     mkWorld
       (mkSessionManager (Some id) [] (last_activity_time (self w))
                         (session_timeout (self w)))
       (<[file := Document document]> (files w))
       (made file.1 w) (mkdir_denied w) (open_denied w)
       (dump_denied w) (strerror w) (3 + r)%nat
       (stdout w)).
Proof.
  intros Hid Hne r file Hw document Henc.
  destruct (write_allowed w file Hw) as (Hdir & Hopen & Hdump). cbn [fst file] in Hdir.
  rewrite (run_clear_current_session system_clock w id Hid Hne). cbv zeta.
  fold r. rewrite Hdir. fold file. rewrite Hopen, Hdump. fold document. rewrite Henc.
  reflexivity.
Qed.

Lemma X23_witness :
  let w1 := (add_message sample_instants (u "user") (u "hi")
               (create_new_session sample_instants empty_logs).2).2 in
  files w1 !! session_file
  = Some (Document (mkSessionData (u "session_001") (u "T7") (u "T8")
                                  [mkMessage (u "user") (u "hi") (u "T5")]))
  /\ files (clear_current_session sample_instants w1).2 !! session_file
     = Some (Document (mkSessionData (u "session_001") (u "T10") (u "T11") [])).
Proof.
  split; [vm_compute; reflexivity|].
  rewrite (X23_clear_erases_the_file sample_instants _ (u "session_001"));
    [vm_compute; reflexivity | vm_compute; reflexivity | discriminate
     | vm_compute; reflexivity | vm_compute; reflexivity].
Defined.







End SessionProperties.

(** ** The latest session *)

Section Ordering.
Import session_manager.

Lemma str_ltb_irrefl (a : str) : str_ltb a a = false.
Proof.
  induction a as [|x a IH]; [reflexivity|].
  simpl. rewrite N.ltb_irrefl, N.eqb_refl, IH. reflexivity.
Qed.

Lemma str_ltb_trans (a : str) : forall b c : str,
  str_ltb a b = true -> str_ltb b c = true -> str_ltb a c = true.
Proof.
  induction a as [|x a IH]; intros [|y b] [|z c] Hab Hbc; simpl in *;
    try discriminate; try reflexivity.
  apply orb_true_iff in Hab, Hbc. apply orb_true_iff.
  destruct Hab as [Hab|Hab], Hbc as [Hbc|Hbc].
  - left. apply N.ltb_lt in Hab, Hbc. apply N.ltb_lt. lia.
  - apply andb_true_iff in Hbc as [E _]. apply N.eqb_eq in E. subst. left. exact Hab.
  - apply andb_true_iff in Hab as [E _]. apply N.eqb_eq in E. subst. left. exact Hbc.
  - apply andb_true_iff in Hab as [E1 H1]. apply andb_true_iff in Hbc as [E2 H2].
    apply N.eqb_eq in E1, E2. subst. right. rewrite N.eqb_refl. simpl.
    exact (IH _ _ H1 H2).
Qed.

Lemma str_ltb_total (a : str) : forall b : str,
  str_ltb a b = true \/ a = b \/ str_ltb b a = true.
Proof.
  induction a as [|x a IH]; intros [|y b]; simpl; auto.
  destruct (N.lt_trichotomy x y) as [H|[H|H]].
  - left. apply N.ltb_lt in H. rewrite H. reflexivity.
  - subst. rewrite N.ltb_irrefl, N.eqb_refl. simpl.
    destruct (IH b) as [H|[H|H]]; [left; exact H | right; left; f_equal; exact H
                                  | right; right; exact H].
  - right; right. apply N.ltb_lt in H. rewrite H. reflexivity.
Qed.

(** [a] comes no later than [b] in a descending list. *)
Definition not_below (a b : str) : Prop := str_ltb a b = false.

Lemma not_below_refl a : not_below a a.
Proof. apply str_ltb_irrefl. Qed.

Lemma not_below_of_ltb a b : str_ltb a b = true -> not_below b a.
Proof.
  intros H. unfold not_below. destruct (str_ltb b a) eqn:E; [|reflexivity].
  pose proof (str_ltb_trans _ _ _ H E) as F. rewrite str_ltb_irrefl in F. discriminate F.
Qed.

Lemma not_below_trans a b c : not_below a b -> not_below b c -> not_below a c.
Proof.
  unfold not_below. intros Hab Hbc. destruct (str_ltb a c) eqn:E; [|reflexivity].
  destruct (str_ltb_total a b) as [H|[H|H]].
  - rewrite H in Hab. discriminate Hab.
  - subst. rewrite E in Hbc. discriminate Hbc.
  - pose proof (str_ltb_trans _ _ _ H E) as F. rewrite F in Hbc. discriminate Hbc.
Qed.

Lemma insert_descending_elem n l x :
  x ∈ insert_descending n l <-> x = n \/ x ∈ l.
Proof.
  induction l as [|y l IH]; simpl.
  - rewrite elem_of_cons, elem_of_nil. tauto.
  - destruct (str_ltb n y); rewrite !elem_of_cons; [rewrite IH|]; tauto.
Qed.

Lemma sorted_descending_elem l x : x ∈ sorted_descending l <-> x ∈ l.
Proof.
  induction l as [|y l IH]; simpl; [tauto|].
  rewrite insert_descending_elem, IH, elem_of_cons. tauto.
Qed.

Lemma insert_descending_sorted n l :
  Sorted.StronglySorted not_below l -> Sorted.StronglySorted not_below (insert_descending n l).
Proof.
  induction 1 as [|y l Hs IH Hall]; simpl.
  - repeat constructor.
  - destruct (str_ltb n y) eqn:E.
    + constructor; [exact IH|].
      apply Forall_forall. intros x Hx. apply insert_descending_elem in Hx as [->|Hx].
      * apply not_below_of_ltb, E.
      * rewrite Forall_forall in Hall. apply Hall, Hx.
    + constructor; [constructor; assumption|].
      constructor; [exact E|].
      eapply Forall_impl; [exact Hall|]. intros x Hx.
      apply (not_below_trans n y x E Hx).
Qed.

Lemma sorted_descending_sorted l : Sorted.StronglySorted not_below (sorted_descending l).
Proof.
  induction l as [|y l IH]; simpl; [constructor|]. apply insert_descending_sorted, IH.
Qed.

(** The first name of a descending list is the greatest. *)
Lemma sorted_descending_head l f rest :
  sorted_descending l = f :: rest -> f ∈ l /\ forall x, x ∈ l -> not_below f x.
Proof.
  intros H. pose proof (sorted_descending_sorted l) as Hs. rewrite H in Hs.
  split.
  - apply sorted_descending_elem. rewrite H. left.
  - intros x Hx. apply sorted_descending_elem in Hx. rewrite H in Hx.
    apply elem_of_cons in Hx as [->|Hx]; [apply not_below_refl|].
    apply Sorted.StronglySorted_inv in Hs as [_ Hall]. rewrite Forall_forall in Hall.
    apply Hall, Hx.
Qed.

Lemma sorted_descending_nil l : sorted_descending l = [] -> l = [].
Proof.
  intros H. destruct l as [|y l]; [reflexivity|].
  assert (Hy : y ∈ sorted_descending (y :: l)) by (apply sorted_descending_elem; left).
  rewrite H in Hy. apply elem_of_nil in Hy. contradiction.
Qed.

Lemma latest_in_dirs_spec (w : World) (dirs : list str) :
  Sorted.StronglySorted not_below dirs ->
  match latest_in_dirs dirs w with
  | Some id =>
      exists date_dir session_file,
        date_dir ∈ dirs /\ session_file ∈ glob_sessions date_dir w
        /\ id = stem session_file
        /\ (forall other, other ∈ glob_sessions date_dir w ->
                          not_below session_file other)
        /\ (forall other, other ∈ dirs -> glob_sessions other w <> [] ->
                          not_below date_dir other)
  | None => forall date_dir, date_dir ∈ dirs -> glob_sessions date_dir w = []
  end.
Proof.
  induction 1 as [|d dirs Hs IH Hall]; cbn [latest_in_dirs].
  - intros d Hd. apply elem_of_nil in Hd. contradiction.
  - destruct (sorted_descending (glob_sessions d w)) as [|f rest] eqn:E.
    + apply sorted_descending_nil in E.
      destruct (latest_in_dirs dirs w) as [id|].
      * destruct IH as (D & f & HD & Hf & Hid & Hmax & Hdirs).
        exists D, f. split; [right; exact HD|]. split; [exact Hf|]. split; [exact Hid|].
        split; [exact Hmax|]. intros other Ho Hne.
        apply elem_of_cons in Ho as [->|Ho]; [contradiction|]. apply Hdirs; assumption.
      * intros D HD. apply elem_of_cons in HD as [->|HD]; [exact E|apply IH, HD].
    + destruct (sorted_descending_head _ _ _ E) as [Hf Hmax].
      exists d, f. split; [left|]. split; [exact Hf|]. split; [reflexivity|].
      split; [exact Hmax|]. intros other Ho _.
      apply elem_of_cons in Ho as [->|Ho]; [apply not_below_refl|].
      rewrite Forall_forall in Hall. apply Hall, Ho.
Qed.

End Ordering.

Section LatestProperties.
Import session_manager scenarios.

(** Property X26.  [get_latest_session_id] changes nothing and returns
    the stem of the greatest session file name in the greatest listed
    date directory that holds session files, or [None] when no listed
    date directory holds one.  Names are compared as text, code point by
    code point, so that [session_999.json] counts as later than
    [session_1000.json]. *)
Theorem X26_latest_session_id (iterdir : World -> list str)
    (is_decimal : char -> bool) (w : World) :
  exists latest,
    get_latest_session_id iterdir is_decimal w = (Return latest, w)
    /\ match latest with
       | Some id =>
           exists date_dir session_file,
             date_dir ∈ iterdir w /\ is_date_name is_decimal date_dir = true
             /\ session_file ∈ glob_sessions date_dir w
             /\ id = stem session_file
             /\ (forall other, other ∈ glob_sessions date_dir w ->
                               str_ltb session_file other = false)
             /\ (forall other, other ∈ iterdir w ->
                               is_date_name is_decimal other = true ->
                               glob_sessions other w <> [] ->
                               str_ltb date_dir other = false)
       | None =>
           forall date_dir, date_dir ∈ iterdir w ->
                            is_date_name is_decimal date_dir = true ->
                            glob_sessions date_dir w = []
       end
    /\ str_ltb (u "session_1000.json") (u "session_999.json") = true.
Proof.
  eexists. split; [reflexivity|]. split; [|reflexivity].
  pose proof (latest_in_dirs_spec w
                (sorted_descending (List.filter (is_date_name is_decimal) (iterdir w)))
                (sorted_descending_sorted _)) as H.
  assert (Hin : forall d,
             d ∈ sorted_descending (List.filter (is_date_name is_decimal) (iterdir w))
             <-> d ∈ iterdir w /\ is_date_name is_decimal d = true).
  { intros d. rewrite sorted_descending_elem, !list_elem_of_In, filter_In. tauto. }
  destruct (latest_in_dirs _ w) as [id|].
  - destruct H as (D & f & HD & Hf & Hid & Hmax & Hdirs).
    apply Hin in HD as [HD1 HD2].
    exists D, f. repeat split; try assumption.
    intros other Ho Hdate Hne. apply Hdirs; [|exact Hne]. apply Hin. auto.
  - intros D HD Hdate. apply H. apply Hin. auto.
Qed.



End LatestProperties.

(** ** More on the turn driver *)

Section HandlerMore.
Import function_registry chat_handler.

Context {E : Type}.
Variable system_clock : nat -> session_manager.instant.
Variable anthropic : nat -> Request -> Response.
Variable registry : UnifiedFunctionRegistry E.
Variable generate_xml : UnifiedFunctionRegistry E -> str.
Variable update_system_prompt : str -> E -> str * E.
Variable handle_api_error : str -> str.
Variable recursion_room : Z -> nat.

Local Abbreviation HM := (Eff.M (World (E := E))).

(** A computation sends at most [n] requests to the model, and only adds
    to the list of those sent. *)
Definition sends (n : nat) {A} (m : HM A) : Prop :=
  forall w, exists extra,
    requests (m w).2 = requests w ++ extra /\ (length extra <= n)%nat.

Lemma sends_same {A} (m : HM A) n :
  (forall w, requests (m w).2 = requests w) -> sends n m.
Proof. intros H w. exists []. rewrite H, app_nil_r. split; [reflexivity|simpl; lia]. Qed.

Lemma sends_bind n1 n2 {A B} (m : HM A) (f : A -> HM B) :
  sends n1 m -> (forall a, sends n2 (f a)) -> sends (n1 + n2) (m ≫= f).
Proof.
  intros Hm Hf w. unfold mbind, M_bind. destruct (Hm w) as (e1 & H1 & L1).
  destruct (m w) as [[a|e] w'] eqn:Em; cbn [snd] in *.
  - destruct (Hf a w') as (e2 & H2 & L2). exists (e1 ++ e2).
    rewrite H2, H1, <- app_assoc. split; [reflexivity|]. rewrite length_app. lia.
  - exists e1. split; [exact H1|lia].
Qed.

Lemma sends_if {A} n (b : bool) (m1 m2 : HM A) :
  sends n m1 -> sends n m2 -> sends n (if b then m1 else m2).
Proof. destruct b; auto. Qed.

Lemma sends_in_sessions {A} (m : session_manager.M A) : sends 0 (in_sessions m).
Proof.
  apply sends_same. intros w. unfold in_sessions. destruct (m (sessions w)). reflexivity.
Qed.

Lemma sends_in_env {A} (m : Eff.M E A) : sends 0 (in_env m).
Proof.
  apply sends_same. intros w. unfold in_env. destruct (m (env w)). reflexivity.
Qed.

Lemma sends_callback f text : sends 0 (callback f text).
Proof. destruct f; [apply sends_in_env|apply sends_same; reflexivity]. Qed.

Lemma sends_stream_loop cb events : forall full, sends 0 (stream_loop cb events full).
Proof.
  induction events as [|chunk rest IH]; intros full; cbn [stream_loop].
  - apply sends_same. reflexivity.
  - apply (sends_bind 0 0); [apply sends_same; reflexivity|]. intros w0.
    destruct (feed_chunk chunk (detector (self w0))) as [[[stop call] clean] d].
    apply (sends_bind 0 0); [apply sends_same; reflexivity|]. intros _.
    apply sends_if; [apply sends_same; reflexivity|].
    apply (sends_bind 0 0); [|intros _; apply IH].
    apply sends_if; [apply sends_callback|apply sends_same; reflexivity].
Qed.

Lemma sends_get_response_stream prompt cb :
  sends 1 (get_response_stream anthropic handle_api_error prompt cb).
Proof.
  unfold get_response_stream.
  apply (sends_bind 0 1); [apply sends_same; reflexivity|]. intros _.
  apply (sends_bind 0 1); [apply sends_same; reflexivity|]. intros w0.
  apply (sends_bind 1 0).
  - intros w. exists [mkRequest settings.AI_MODEL prompt (context (self w0))].
    split; [reflexivity|simpl; lia].
  - intros response. apply (sends_bind 0 0); [apply sends_stream_loop|].
    intros [full stopped]. apply sends_if; [apply sends_same; reflexivity|].
    destruct (failure response); [|apply sends_same; reflexivity].
    apply (sends_bind 0 0); [apply sends_same; reflexivity|].
    intros _. apply sends_same. reflexivity.
Qed.

Lemma sends_log_results results : sends 0 (log_results results).
Proof.
  induction results as [|r results IH]; cbn [log_results].
  - apply sends_same. reflexivity.
  - apply (sends_bind 0 0); [apply sends_same; reflexivity|]. intros _. exact IH.
Qed.

Lemma sends_add_assistant_message message :
  sends 0 (add_assistant_message system_clock message).
Proof.
  unfold add_assistant_message.
  apply (sends_bind 0 0); [apply sends_in_sessions|]. intros _.
  apply sends_same. reflexivity.
Qed.

Lemma turn_sends cb1 cb2 (k : nat) : forall depth,
  (Z.to_nat (max_depth - depth) <= k)%nat ->
  sends k (process_conversation_turn system_clock anthropic registry generate_xml
             update_system_prompt handle_api_error recursion_room depth cb1 cb2).
Proof.
  induction k as [|k IH]; intros depth Hk w; simp process_conversation_turn;
    destruct (decide (max_depth <= depth)) as [Hy|Hn];
    try (exists []; rewrite app_nil_r; split; [reflexivity|simpl; lia]).
  - exfalso. lia.
  - cbn [process_conversation_turn_clause_1].
    match goal with
    | |- exists extra, requests (?m w).2 = _ /\ _ =>
        cut (sends (S k) m); [intros Hs; apply Hs|]
    end.
    apply (sends_bind 0 (S k)); [apply sends_in_env|]. intros system_prompt.
    apply (sends_bind 0 (S k)); [apply sends_in_sessions|]. intros ctx.
    apply (sends_bind 0 (S k)); [apply sends_same; reflexivity|]. intros _.
    apply (sends_bind 1 k); [apply sends_get_response_stream|].
    intros [response_content has_function_calls].
    apply (sends_bind 0 k); [apply sends_same; reflexivity|]. intros _.
    apply (sends_bind 0 k); [apply sends_add_assistant_message|]. intros _.
    destruct has_function_calls; [|apply sends_same; reflexivity].
    apply (sends_bind 0 k); [apply sends_same; reflexivity|]. intros _.
    apply (sends_bind 0 k); [apply sends_in_env|]. intros results.
    apply (sends_bind 0 k); [apply sends_log_results|]. intros _.
    apply (sends_bind 0 k).
    { destruct cb2; [apply sends_in_env|apply sends_same; reflexivity]. }
    intros _.
    destruct (existsb needs_confirmation results).
    + apply (sends_bind 0 k); [apply sends_in_sessions|]. intros _.
      apply sends_same. reflexivity.
    + apply (sends_bind 0 k); [apply sends_in_sessions|]. intros _.
      intros w'. apply (IH (depth + 1)). lia.
Qed.





End HandlerMore.

Section SessionReturns.
Import session_manager.


End SessionReturns.

(** ** Properties of the turn driver *)

Section HandlerProperties.
Import function_registry chat_handler scenarios.

(** Property X28.  One call of [process_conversation_turn] sends at most
    [5 - depth] requests to the model, whatever the model answers and
    whatever the registered functions do, and none at depth 5 or more;
    requests already sent are never removed or changed. *)
Theorem X28_requests_are_bounded {E : Type}
    (system_clock : nat -> session_manager.instant)
    (anthropic : nat -> Request -> Response)
    (registry : UnifiedFunctionRegistry E)
    (generate_xml : UnifiedFunctionRegistry E -> str)
    (update_system_prompt : str -> E -> str * E)
    (handle_api_error : str -> str)
    (recursion_room : Z -> nat)
    (depth : Z)
    (on_text_chunk : option (str -> E -> E))
    (on_function_call : option (list FunctionResult -> E -> E))
    (w : World) :
  exists sent,
    requests (process_conversation_turn system_clock anthropic registry generate_xml
                update_system_prompt handle_api_error recursion_room depth
                on_text_chunk on_function_call w).2
    = requests w ++ sent
    /\ (length sent <= Z.to_nat (5 - depth))%nat.
Proof.
  apply (turn_sends system_clock anthropic registry generate_xml update_system_prompt
           handle_api_error recursion_room on_text_chunk on_function_call
           (Z.to_nat (5 - depth)) depth).
  unfold max_depth, settings.MAX_CONVERSATION_DEPTH. lia.
Qed.



End HandlerProperties.

Section PreviewProperties.
Import session_manager scenarios.

(** Property X30.  [_get_session_preview] shows the first message whose
    role is [user], whatever comes before and after it: its content when
    that has at most 50 characters, and otherwise its first 50
    characters followed by three dots, so never more than 53 characters.
    Messages of other roles alone give the fixed text. *)
Theorem X30_session_preview (others : list Message) (msg : Message)
    (rest : list Message) :
  Forall (fun m => role m <> u "user") others ->
  role msg = u "user" ->
  _get_session_preview (others ++ msg :: rest)
  = (if (50 <? length (content msg))%nat
     then take 50 (content msg) ++ u "..."
     else content msg)
  /\ (length (_get_session_preview (others ++ msg :: rest)) <= 53)%nat
  /\ _get_session_preview others = u "无对话内容".
Proof.
  intros Hothers Hmsg.
  assert (H1 : _get_session_preview (others ++ msg :: rest)
               = (if (50 <? length (content msg))%nat
                  then take 50 (content msg) ++ u "..."
                  else content msg)).
  { induction Hothers as [|m others Hm _ IH]; cbn [app _get_session_preview].
    - unfold str_eqb. rewrite bool_decide_eq_true_2 by exact Hmsg. reflexivity.
    - unfold str_eqb. rewrite bool_decide_eq_false_2 by exact Hm. exact IH. }
  split; [exact H1|]. split.
  - rewrite H1. destruct (50 <? length (content msg))%nat eqn:E.
    + rewrite length_app, length_take. change (length (u "...")) with 3%nat. lia.
    + apply Nat.ltb_ge in E. lia.
  - clear H1. induction Hothers as [|m others Hm _ IH]; cbn [_get_session_preview];
      [reflexivity|].
    unfold str_eqb. rewrite bool_decide_eq_false_2 by exact Hm. exact IH.
Qed.

Lemma X30_witness :
  _get_session_preview
    ([mkMessage (u "assistant") (u "hello") (u "t0")]
       ++ mkMessage (u "user") (u "what is on my list today?") (u "t1") :: [])
  = u "what is on my list today?".
Proof.
  destruct (X30_session_preview [mkMessage (u "assistant") (u "hello") (u "t0")]
              (mkMessage (u "user") (u "what is on my list today?") (u "t1")) [])
    as (H & _ & _).
  - repeat constructor. discriminate.
  - reflexivity.
  - rewrite H. vm_compute. reflexivity.
Defined.

End PreviewProperties.
